(** * MyEzz BAP: protocol authentication and transaction correlation

    A shallow embedding of the cryptographic glue (bap-server/crypto/sign.js,
    bap-server/crypto/verify.js), of the in-memory transaction store
    (store.js), of the callback handlers that use them
    (bap-server/routes/on_confirm.js, on_cancel.js, on_search.js) and of the
    subscription handshake (bap-server/scripts/test-crypto.js and the
    [/on_subscribe] route).

    Conventions of the embedding.
    - A JavaScript string is represented by the sequence of its UTF-8 bytes
      ([string]).  Every character class the code tests (the word characters
      of the header grammar, the double quote, decimal digits, the base64
      alphabet) is ASCII, and no byte of a multi-byte UTF-8 sequence is
      ASCII, so scanning bytes and scanning code units select the same spans.
      Strings holding unpaired surrogates have no UTF-8 form and are outside
      the model.
    - A [Uint8Array] is a [list ascii].
    - A JavaScript computation that may throw returns a [result]; [try]/[catch]
      is [try_catch].
    - JavaScript numbers are exact integers.  Those that hold Unix times
      are in the range where a double is exact; elsewhere the numbers of the
      code agree with the integers up to [Number.MAX_SAFE_INTEGER], the bound
      that the theorems on computed numbers and on serialised values carry
      ([max_safe_integer], [js_value]).  The clock ([Date.now()],
      [new Date().toISOString()]) and the randomness of key generation are
      arguments of the functions that read them.
    - The external primitives (tweetnacl's Ed25519 and key agreement, Node's
      AES) are parameters; base64, SHA-256, [parseInt] and JSON are written
      out. *)

From Stdlib Require Import ZArith NArith Ascii String List Lia Bool.
From Stdlib Require Import Decimal DecimalString DecimalZ DecimalN.
From stdpp Require Import base option gmap strings list fin_maps.

Local Open Scope string_scope.
Local Open Scope list_scope.

(** ** JavaScript completion records *)

Module Js.

Inductive result (A : Type) : Type :=
| Ok (a : A)
| Throw (err : string).
Arguments Ok {A} a.
Arguments Throw {A} err.

#[export] Instance result_ret : MRet result := fun A a => Ok a.
#[export] Instance result_bind : MBind result := fun A B f m =>
  match m with
  | Ok a => f a
  | Throw e => Throw e
  end.

(** [try { body } catch (err) { handler(err.message) }] *)
Definition try_catch {A} (body : result A) (handler : string -> result A) : result A :=
  match body with
  | Ok a => Ok a
  | Throw e => handler e
  end.

Definition returns {A} (m : result A) : Prop := exists a, m = Ok a.

(** Truthiness of a string value ([!s] is true exactly for the empty string). *)
Definition truthy (s : string) : bool :=
  match s with
  | EmptyString => false
  | String _ _ => true
  end.

(** Truthiness of a possibly [undefined] string. *)
Definition truthy_opt (o : option string) : bool :=
  match o with
  | Some s => truthy s
  | None => false
  end.

(** [a || b] on possibly-undefined strings, with a string default. *)
Definition or_default (o : option string) (d : string) : string :=
  match o with
  | Some s => if truthy s then s else d
  | None => d
  end.

End Js.
Export Js.

(** ** Base64 as tweetnacl-util does it

    [encodeBase64] is RFC 4648 with padding.  [decodeBase64] first validates
    the text (groups of four alphabet characters, padding only in the last
    group) and throws [TypeError('invalid encoding')] otherwise. *)

Module Base64.

Definition alphabet : list ascii :=
  list_ascii_of_string
    "ABCDEFGHIJKLMNOPQRSTUVWXYZabcdefghijklmnopqrstuvwxyz0123456789+/".

Definition pad : ascii := "="%char.

Definition enc (n : N) : ascii := nth (N.to_nat n) alphabet pad.

Definition dec (c : ascii) : option N :=
  let n := N_of_ascii c in
  if (65 <=? n)%N && (n <=? 90)%N then Some (n - 65)%N
  else if (97 <=? n)%N && (n <=? 122)%N then Some (n - 71)%N
  else if (48 <=? n)%N && (n <=? 57)%N then Some (n + 4)%N
  else if (n =? 43)%N then Some 62%N
  else if (n =? 47)%N then Some 63%N
  else None.

Definition byte_of (n : N) : ascii := ascii_of_N (n mod 256).

Fixpoint encodeBase64 (bs : list ascii) : string :=
  match bs with
  | [] => ""
  | [a] =>
      let n := N_of_ascii a in
      String (enc (n / 4)) (String (enc ((n mod 4) * 16)) (String pad (String pad "")))
  | [a; b] =>
      let n := (N_of_ascii a * 256 + N_of_ascii b)%N in
      String (enc (n / 1024)) (String (enc ((n / 16) mod 64))
        (String (enc ((n mod 16) * 4)) (String pad "")))
  | a :: b :: c :: rest =>
      let n := (N_of_ascii a * 65536 + N_of_ascii b * 256 + N_of_ascii c)%N in
      String (enc (n / 262144)) (String (enc ((n / 4096) mod 64))
        (String (enc ((n / 64) mod 64)) (String (enc (n mod 64)) (encodeBase64 rest))))
  end.

Definition invalid_encoding : string := "invalid encoding".

(** The last group of four characters: [xx==], [xxx=] or [xxxx]. *)
Definition decode_last (c1 c2 c3 c4 : ascii) : result (list ascii) :=
  match dec c1, dec c2 with
  | Some s1, Some s2 =>
      if Ascii.eqb c3 pad then
        if Ascii.eqb c4 pad then Ok [byte_of (s1 * 4 + s2 / 16)]
        else Throw invalid_encoding
      else
        match dec c3 with
        | Some s3 =>
            if Ascii.eqb c4 pad then
              let n := (s1 * 4096 + s2 * 64 + s3)%N in
              Ok [byte_of (n / 1024); byte_of (n / 4)]
            else
              match dec c4 with
              | Some s4 =>
                  let n := (s1 * 262144 + s2 * 4096 + s3 * 64 + s4)%N in
                  Ok [byte_of (n / 65536); byte_of (n / 256); byte_of n]
              | None => Throw invalid_encoding
              end
        | None => Throw invalid_encoding
        end
  | _, _ => Throw invalid_encoding
  end.

Fixpoint decodeBase64 (s : string) : result (list ascii) :=
  match s with
  | "" => Ok []
  | String c1 (String c2 (String c3 (String c4 rest))) =>
      match rest with
      | "" => decode_last c1 c2 c3 c4
      | _ =>
          match dec c1, dec c2, dec c3, dec c4 with
          | Some s1, Some s2, Some s3, Some s4 =>
              let n := (s1 * 262144 + s2 * 4096 + s3 * 64 + s4)%N in
              match decodeBase64 rest with
              | Ok bs => Ok (byte_of (n / 65536) :: byte_of (n / 256) :: byte_of n :: bs)
              | Throw e => Throw e
              end
          | _, _, _, _ => Throw invalid_encoding
          end
      end
  | _ => Throw invalid_encoding
  end.

End Base64.

(** ** SHA-256 (Node's [crypto.createHash('sha256')])

    FIPS 180-4 on 32-bit words held in [N], wrap-around written out. *)

Module Sha256.

Definition w32 (x : N) : N := (x mod 4294967296)%N.
Definition add32 (a b : N) : N := w32 (a + b).
Definition not32 (x : N) : N := N.lxor x 4294967295.
Definition rotr (n x : N) : N := N.lor (N.shiftr x n) (w32 (N.shiftl x (32 - n))).

Definition Ch (x y z : N) : N := N.lxor (N.land x y) (N.land (not32 x) z).
Definition Maj (x y z : N) : N :=
  N.lxor (N.lxor (N.land x y) (N.land x z)) (N.land y z).
Definition Sigma0 (x : N) : N := N.lxor (N.lxor (rotr 2 x) (rotr 13 x)) (rotr 22 x).
Definition Sigma1 (x : N) : N := N.lxor (N.lxor (rotr 6 x) (rotr 11 x)) (rotr 25 x).
Definition sigma0 (x : N) : N := N.lxor (N.lxor (rotr 7 x) (rotr 18 x)) (N.shiftr x 3).
Definition sigma1 (x : N) : N := N.lxor (N.lxor (rotr 17 x) (rotr 19 x)) (N.shiftr x 10).

Definition K : list N :=
  [1116352408; 1899447441; 3049323471; 3921009573; 961987163; 1508970993;
   2453635748; 2870763221; 3624381080; 310598401; 607225278; 1426881987;
   1925078388; 2162078206; 2614888103; 3248222580; 3835390401; 4022224774;
   264347078; 604807628; 770255983; 1249150122; 1555081692; 1996064986;
   2554220882; 2821834349; 2952996808; 3210313671; 3336571891; 3584528711;
   113926993; 338241895; 666307205; 773529912; 1294757372; 1396182291;
   1695183700; 1986661051; 2177026350; 2456956037; 2730485921; 2820302411;
   3259730800; 3345764771; 3516065817; 3600352804; 4094571909; 275423344;
   430227734; 506948616; 659060556; 883997877; 958139571; 1322822218;
   1537002063; 1747873779; 1955562222; 2024104815; 2227730452; 2361852424;
   2428436474; 2756734187; 3204031479; 3329325298]%N.

Definition H0 : list N :=
  [1779033703; 3144134277; 1013904242; 2773480762;
   1359893119; 2600822924; 528734635; 1541459225]%N.

(** Message padding: a 1 bit, zeros, and the bit length on 64 bits. *)
Definition be_bytes (count : nat) (x : N) : list N :=
  map (fun i => (N.shiftr x (8 * N.of_nat i) mod 256)%N) (rev (seq 0 count)).

Definition padding (msg : list N) : list N :=
  let len := length msg in
  let zeros := (64 - (len + 9) mod 64) mod 64 in
  msg ++ [128%N] ++ repeat 0%N zeros ++ be_bytes 8 (8 * N.of_nat len).

Fixpoint words (bs : list N) : list N :=
  match bs with
  | a :: b :: c :: d :: rest =>
      (a * 16777216 + b * 65536 + c * 256 + d)%N :: words rest
  | _ => []
  end.

(** The message schedule, most recent word first. *)
Fixpoint extend (count : nat) (w : list N) : list N :=
  match count with
  | O => w
  | S count' =>
      let x := add32 (add32 (sigma1 (nth 1 w 0%N)) (nth 6 w 0%N))
                     (add32 (sigma0 (nth 14 w 0%N)) (nth 15 w 0%N)) in
      extend count' (x :: w)
  end.

Definition schedule (block : list N) : list N := rev (extend 48 (rev block)).

Definition round (st : list N) (kw : N * N) : list N :=
  match st with
  | [a; b; c; d; e; f; g; h] =>
      let t1 := add32 (add32 (add32 h (Sigma1 e)) (add32 (Ch e f g) (fst kw))) (snd kw) in
      let t2 := add32 (Sigma0 a) (Maj a b c) in
      [add32 t1 t2; a; b; c; add32 d t1; e; f; g]
  | _ => st
  end.

Definition compress (h : list N) (block : list N) : list N :=
  let st := fold_left round (combine K (schedule block)) h in
  map (fun p => add32 (fst p) (snd p)) (combine h st).

Fixpoint blocks (fuel : nat) (ws : list N) : list (list N) :=
  match fuel, ws with
  | _, [] => []
  | O, _ => []
  | S fuel', _ => firstn 16 ws :: blocks fuel' (skipn 16 ws)
  end.

Definition sha256 (msg : list ascii) : list ascii :=
  let ws := words (padding (map N_of_ascii msg)) in
  let h := fold_left compress (blocks (length ws) ws) H0 in
  map ascii_of_N (flat_map (be_bytes 4) h).

End Sha256.

(** ** Numbers and their decimal text *)

Module Num.

(** The result of [parseInt]: [NaN] or an integer.  The integers are exact:
    they are the numbers of the code up to [Number.MAX_SAFE_INTEGER], beyond
    which a double rounds; what is proved of computed values stays below it. *)
Inductive number : Type :=
| NaN
| Int (z : Z).

(** [String(n)] / template interpolation of a number. *)
Definition to_string (n : number) : string :=
  match n with
  | NaN => "NaN"
  | Int z => NilZero.string_of_int (Z.to_int z)
  end.

Definition is_digit (c : ascii) : bool :=
  let n := N_of_ascii c in (48 <=? n)%N && (n <=? 57)%N.

Definition digit_value (c : ascii) : Z := Z.of_N (N_of_ascii c) - 48.

(** [StrWhiteSpaceChar], on the UTF-8 form of the string: TAB, LF, VT, FF,
    CR, SP, U+00A0, U+1680, U+2000..U+200A, U+2028, U+2029, U+202F, U+205F,
    U+3000 and U+FEFF. *)
Fixpoint skip_whitespace (s : string) : string :=
  match s with
  | String c r =>
      let n := N_of_ascii c in
      if ((9 <=? n)%N && (n <=? 13)%N) || (n =? 32)%N then skip_whitespace r
      else
        match r with
        | String c2 r2 =>
            let n2 := N_of_ascii c2 in
            if (n =? 194)%N && (n2 =? 160)%N then skip_whitespace r2
            else
              match r2 with
              | String c3 r3 =>
                  let n3 := N_of_ascii c3 in
                  if ((n =? 225)%N && (n2 =? 154)%N && (n3 =? 128)%N)
                     || ((n =? 226)%N && (n2 =? 128)%N
                         && (((128 <=? n3)%N && (n3 <=? 138)%N)
                             || (n3 =? 168)%N || (n3 =? 169)%N || (n3 =? 175)%N))
                     || ((n =? 226)%N && (n2 =? 129)%N && (n3 =? 159)%N)
                     || ((n =? 227)%N && (n2 =? 128)%N && (n3 =? 128)%N)
                     || ((n =? 239)%N && (n2 =? 187)%N && (n3 =? 191)%N)
                  then skip_whitespace r3
                  else s
              | EmptyString => s
              end
        | EmptyString => s
        end
  | EmptyString => s
  end.

(** The value of the longest prefix of decimal digits, most significant first. *)
Fixpoint digits_value (s : string) (acc : Z) : Z :=
  match s with
  | String c r => if is_digit c then digits_value r (acc * 10 + digit_value c) else acc
  | EmptyString => acc
  end.

Definition starts_with_digit (s : string) : bool :=
  match s with
  | String c _ => is_digit c
  | EmptyString => false
  end.

(** [parseInt(s, 10)]: leading white space, an optional sign, then the longest
    run of digits; [NaN] when there is none. *)
Definition parseInt (s : string) : number :=
  let s1 := skip_whitespace s in
  let '(negative, s2) :=
    match s1 with
    | String "-" r => (true, r)
    | String "+" r => (false, r)
    | _ => (false, s1)
    end in
  if starts_with_digit s2
  then Int (if negative then - digits_value s2 0 else digits_value s2 0)
  else NaN.

(** [a > b] on numbers: false as soon as one side is [NaN]. *)
Definition gt (a b : number) : bool :=
  match a, b with
  | Int x, Int y => (y <? x)%Z
  | _, _ => false
  end.

End Num.

(** ** JSON values, [JSON.stringify] and [JSON.parse]

    Numbers are integers: a text with a fraction or an exponent is outside
    the fragment and [parse] answers [None] for it, as it does for text that
    is not JSON.  An object is the list of its own properties in enumeration
    order. *)

Module Json.

#[local] Set Warnings "-register-all".
Inductive json : Type :=
| JNull
| JBool (b : bool)
| JNum (z : Z)
| JStr (s : string)
| JArr (items : list json)
| JObj (fields : list (string * json)).

Definition dquote : ascii := "034"%char.
Definition backslash : ascii := "092"%char.

Definition hex_digit (n : N) : ascii :=
  if (n <? 10)%N then ascii_of_N (48 + n) else ascii_of_N (87 + n).

(** [QuoteJSONString]: the escapes of [JSON.stringify]. *)
Fixpoint escape (s : string) : string :=
  match s with
  | EmptyString => EmptyString
  | String c r =>
      let n := N_of_ascii c in
      if (n =? 34)%N then String backslash (String dquote (escape r))
      else if (n =? 92)%N then String backslash (String backslash (escape r))
      else if (n =? 8)%N then String backslash (String "b" (escape r))
      else if (n =? 9)%N then String backslash (String "t" (escape r))
      else if (n =? 10)%N then String backslash (String "n" (escape r))
      else if (n =? 12)%N then String backslash (String "f" (escape r))
      else if (n =? 13)%N then String backslash (String "r" (escape r))
      else if (n <? 32)%N then
        String backslash (String "u" (String "0" (String "0"
          (String (hex_digit (n / 16)) (String (hex_digit (n mod 16)) (escape r))))))
      else String c (escape r)
  end.

Definition quote (s : string) : string :=
  String dquote (escape s +:+ String dquote EmptyString).

Fixpoint stringify (j : json) : string :=
  match j with
  | JNull => "null"
  | JBool true => "true"
  | JBool false => "false"
  | JNum z => Num.to_string (Num.Int z)
  | JStr s => quote s
  | JArr items =>
      "[" +:+ (fix elements (l : list json) : string :=
                match l with
                | [] => ""
                | x :: rest =>
                    match rest with
                    | [] => stringify x
                    | _ :: _ => stringify x +:+ "," +:+ elements rest
                    end
                end) items +:+ "]"
  | JObj fields =>
      "{" +:+ (fix members (l : list (string * json)) : string :=
                match l with
                | [] => ""
                | (k, v) :: rest =>
                    match rest with
                    | [] => quote k +:+ ":" +:+ stringify v
                    | _ :: _ => quote k +:+ ":" +:+ stringify v +:+ "," +:+ members rest
                    end
                end) fields +:+ "}"
  end.

(** *** Property order of an object

    [obj_set] is property definition on an ordinary object: an existing key
    keeps its place, a new array index goes among the indices in ascending
    order (they are enumerated first), any other new key goes last. *)

Definition canonical_index (k : string) : option N :=
  match k with
  | EmptyString => None
  | String c r =>
      if forallb Num.is_digit (list_ascii_of_string k)
         && (negb (Ascii.eqb c "0") || String.eqb r "")
      then
        let v := Z.to_N (Num.digits_value k 0) in
        if (v <? 4294967295)%N then Some v else None
      else None
  end.

Fixpoint replace_field (k : string) (v : json) (fs : list (string * json))
  : option (list (string * json)) :=
  match fs with
  | [] => None
  | (k', v') :: rest =>
      if String.eqb k k' then Some ((k, v) :: rest)
      else match replace_field k v rest with
           | Some rest' => Some ((k', v') :: rest')
           | None => None
           end
  end.

Fixpoint insert_index (i : N) (k : string) (v : json) (fs : list (string * json))
  : list (string * json) :=
  match fs with
  | [] => [(k, v)]
  | (k', v') :: rest =>
      match canonical_index k' with
      | Some i' => if (i <? i')%N then (k, v) :: fs else (k', v') :: insert_index i k v rest
      | None => (k, v) :: fs
      end
  end.

Definition obj_set (k : string) (v : json) (fs : list (string * json))
  : list (string * json) :=
  match replace_field k v fs with
  | Some fs' => fs'
  | None =>
      match canonical_index k with
      | Some i => insert_index i k v fs
      | None => fs ++ [(k, v)]
      end
  end.

Fixpoint obj_get (k : string) (fs : list (string * json)) : option json :=
  match fs with
  | [] => None
  | (k', v) :: rest => if String.eqb k k' then Some v else obj_get k rest
  end.

(** *** The parser *)


Fixpoint strip_prefix (p s : string) : option string :=
  match p, s with
  | EmptyString, _ => Some s
  | String a p', String b s' => if Ascii.eqb a b then strip_prefix p' s' else None
  | String _ _, EmptyString => None
  end.







End Json.
Export Json(json, JNull, JBool, JNum, JStr, JArr, JObj).

(** ** tweetnacl: the signing interface

    The Ed25519 primitives are a parameter of the development; the size
    checks of [nacl.sign.detached] and [nacl.sign.detached.verify] are
    written out, since they decide when the callers see an exception. *)

Module Nacl.

Record primitives : Type := {
  (** [crypto_sign_keypair]: from the random seed to (publicKey, secretKey) *)
  crypto_sign_keypair : list ascii -> list ascii * list ascii;
  (** the detached signature of a message under a secret key *)
  crypto_sign : list ascii -> list ascii -> list ascii;
  (** [crypto_sign_open] on message, signature and public key *)
  crypto_sign_open : list ascii -> list ascii -> list ascii -> bool
}.

Definition sign_keyPair (P : primitives) (seed : list ascii) : list ascii * list ascii :=
  crypto_sign_keypair P seed.

Definition sign_detached (P : primitives) (msg secretKey : list ascii)
  : result (list ascii) :=
  if Nat.eqb (length secretKey) 64 then Ok (crypto_sign P msg secretKey)
  else Throw "bad secret key size".

Definition sign_detached_verify (P : primitives) (msg sig publicKey : list ascii)
  : result bool :=
  if negb (Nat.eqb (length sig) 64) then Throw "bad signature size"
  else if negb (Nat.eqb (length publicKey) 32) then Throw "bad public key size"
  else Ok (crypto_sign_open P msg sig publicKey).

End Nacl.

(** ** crypto/sign.js and crypto/verify.js *)

Module Crypto.

Import Base64.

Record KeyPair : Type := { publicKey : string; privateKey : string }.

(** [naclUtil.decodeUTF8]: the bytes of the string. *)
Definition decodeUTF8 (s : string) : list ascii := list_ascii_of_string s.

Definition generateKeyPair (P : Nacl.primitives) (seed : list ascii) : KeyPair :=
  let keyPair := Nacl.sign_keyPair P seed in
  {| publicKey := encodeBase64 (fst keyPair);
     privateKey := encodeBase64 (snd keyPair) |}.

Definition createDigest (body : string) : string :=
  let hash := Sha256.sha256 (list_ascii_of_string body) in
  "BLAKE-512=" +:+ encodeBase64 hash.

Definition newline : string := String "010"%char "".

Definition createSigningString (created expires : Num.number) (digest : string) : string :=
  "(created): " +:+ Num.to_string created +:+ newline
  +:+ "(expires): " +:+ Num.to_string expires +:+ newline
  +:+ "digest: " +:+ digest.

Definition sign (P : Nacl.primitives) (message privateKeyBase64 : string) : result string :=
  privateKey ← decodeBase64 privateKeyBase64;
  let messageBytes := decodeUTF8 message in
  signatureBytes ← Nacl.sign_detached P messageBytes privateKey;
  Ok (encodeBase64 signatureBytes).

Definition verify (P : Nacl.primitives) (message signatureBase64 publicKeyBase64 : string)
  : result bool :=
  try_catch
    (publicKey ← decodeBase64 publicKeyBase64;
     signature ← decodeBase64 signatureBase64;
     let messageBytes := decodeUTF8 message in
     Nacl.sign_detached_verify P messageBytes signature publicKey)
    (fun _ => Ok false).

(** [process.env] *)
Abbreviation Env := (gmap string string).

(** The [body] argument of [createAuthorizationHeader]: an object or a string. *)
Inductive Body : Type :=
| BodyObject (j : json)
| BodyString (s : string).

Definition dq : string := String Json.dquote "".

(** The header text for a configured private key (lines 75-92 of sign.js). *)
Definition signed_header (P : Nacl.primitives) (subscriberId uniqueKeyId privateKey : string)
    (now_ms : Z) (body : Body) : result string :=
  let bodyString :=
    match body with
    | BodyString s => s
    | BodyObject j => Json.stringify j
    end in
  let digest := createDigest bodyString in
  let created := (now_ms / 1000)%Z in
  let expires := (created + 30)%Z in
  let signingString := createSigningString (Num.Int created) (Num.Int expires) digest in
  signature ← sign P signingString privateKey;
  Ok ("Signature keyId=" +:+ dq +:+ subscriberId +:+ "|" +:+ uniqueKeyId +:+ "|ed25519" +:+ dq +:+ ","
      +:+ "algorithm=" +:+ dq +:+ "ed25519" +:+ dq +:+ ","
      +:+ "created=" +:+ dq +:+ Num.to_string (Num.Int created) +:+ dq +:+ ","
      +:+ "expires=" +:+ dq +:+ Num.to_string (Num.Int expires) +:+ dq +:+ ","
      +:+ "headers=" +:+ dq +:+ "(created) (expires) digest" +:+ dq +:+ ","
      +:+ "signature=" +:+ dq +:+ signature +:+ dq).

(** [createAuthorizationHeader(body)]: the environment is threaded through,
    since a missing [PRIVATE_KEY] is generated and written back before the
    function calls itself again.  [seed] is the randomness [nacl.sign.keyPair]
    draws, [now_ms] is [Date.now()].  Were the generated key empty, the
    function would call itself without end; that stack overflow is the
    [RangeError] below. *)
Definition createAuthorizationHeader (P : Nacl.primitives) (env : Env) (seed : list ascii)
    (now_ms : Z) (body : Body) : result (Env * string) :=
  let subscriberId := or_default (env !! "SUBSCRIBER_ID") "ondc-logistics-bap.example.com" in
  let uniqueKeyId := or_default (env !! "UNIQUE_KEY_ID") "k1" in
  let env' :=
    if truthy_opt (env !! "PRIVATE_KEY") then env
    else
      let keyPair := generateKeyPair P seed in
      <["PUBLIC_KEY" := publicKey keyPair]> (<["PRIVATE_KEY" := privateKey keyPair]> env) in
  match env' !! "PRIVATE_KEY" with
  | Some key =>
      if truthy key then
        header ← signed_header P subscriberId uniqueKeyId key now_ms body;
        Ok (env', header)
      else Throw "Maximum call stack size exceeded"
  | None => Throw "Maximum call stack size exceeded"
  end.

(** *** The header grammar

    The regular expression of [parseAuthorizationHeader], global flag set:
    a run of word characters (group 1), an equals sign, a double quote, a
    run of characters other than the double quote (group 2), a double
    quote. *)

Definition is_word_char (c : ascii) : bool :=
  let n := N_of_ascii c in
  ((65 <=? n)%N && (n <=? 90)%N) || ((97 <=? n)%N && (n <=? 122)%N)
  || ((48 <=? n)%N && (n <=? 57)%N) || (n =? 95)%N.

Definition is_not_quote (c : ascii) : bool := negb (Ascii.eqb c Json.dquote).

(** The longest prefix whose characters satisfy [p], and what follows it. *)
Fixpoint span (p : ascii -> bool) (s : string) : string * string :=
  match s with
  | String c r =>
      if p c then let '(a, b) := span p r in (String c a, b) else (EmptyString, s)
  | EmptyString => (EmptyString, EmptyString)
  end.

(** One attempt of the pattern at the start of [s]: the two groups and the
    text after the match.  Both quantifiers are greedy and what must follow
    each run ([=] after the word characters, the quote after the value) is
    outside its class, so only the longest run can match. *)
Definition match_here (s : string) : option (string * string * string) :=
  let '(key, r1) := span is_word_char s in
  if truthy key then
    match r1 with
    | String "=" (String c r2) =>
        if Ascii.eqb c Json.dquote then
          let '(value, r3) := span is_not_quote r2 in
          if truthy value then
            match r3 with
            | String c' r4 => if Ascii.eqb c' Json.dquote then Some (key, value, r4) else None
            | EmptyString => None
            end
          else None
        else None
    | _ => None
    end
  else None.

(** [params[key] = value] on an object literal: assigning a string to
    [__proto__] runs the inherited setter, which ignores it. *)
Definition set_param (key value : string) (params : gmap string string)
  : gmap string string :=
  if String.eqb key "__proto__" then params else <[key := value]> params.

(** [while ((match = regex.exec(headerContent)) !== null) ...]: [exec] looks
    for the leftmost match from [lastIndex] on, and a match moves [lastIndex]
    past itself.  Every step consumes a character; [fuel] bounds the steps. *)
Fixpoint exec_loop (fuel : nat) (s : string) (params : gmap string string)
  : gmap string string :=
  match fuel with
  | O => params
  | S fuel' =>
      match match_here s with
      | Some (key, value, rest) => exec_loop fuel' rest (set_param key value params)
      | None =>
          match s with
          | String _ r => exec_loop fuel' r params
          | EmptyString => params
          end
      end
  end.

Definition signaturePrefix : string := "Signature ".

Definition parseAuthorizationHeader (header : string) : gmap string string :=
  let headerContent :=
    match Json.strip_prefix signaturePrefix header with
    | Some content => content
    | None => header
    end in
  exec_loop (S (String.length headerContent)) headerContent ∅.

(** *** The verifier *)

(** A request whose body a parser has set.  The request as a route receives
    it, whose body can be [undefined], is [Callbacks.Request], and the
    verifier on it is [Callbacks.verifyAuthorizationHeader]. *)
Record Request : Type := {
  authorization : option string;  (** [req.headers.authorization] *)
  body : json                     (** [req.body], as [express.json()] left it *)
}.

Record Verdict : Type := { valid : bool; error : option string }.

Definition parseInt_opt (o : option string) : Num.number :=
  match o with
  | Some s => Num.parseInt s
  | None => Num.NaN
  end.

Definition verifyAuthorizationHeader (P : Nacl.primitives) (env : Env) (now_ms : Z)
    (req : Request) : result Verdict :=
  let isDevMode := bool_decide (env !! "DEV_MODE" = Some "true") in
  if isDevMode then Ok {| valid := true; error := None |}
  else
    match authorization req with
    | None => Ok {| valid := false; error := Some "Missing Authorization header" |}
    | Some authHeader =>
        if negb (truthy authHeader)
        then Ok {| valid := false; error := Some "Missing Authorization header" |}
        else
          try_catch
            (let params := parseAuthorizationHeader authHeader in
             if negb (truthy_opt (params !! "keyId"))
                || negb (truthy_opt (params !! "signature"))
                || negb (truthy_opt (params !! "created"))
                || negb (truthy_opt (params !! "expires"))
             then Ok {| valid := false; error := Some "Malformed Authorization header" |}
             else
               let now := Num.Int (now_ms / 1000) in
               if Num.gt now (parseInt_opt (params !! "expires"))
               then Ok {| valid := false; error := Some "Authorization header expired" |}
               else
                 let publicKey := env !! "PUBLIC_KEY" in
                 if negb (truthy_opt publicKey)
                 then Ok {| valid := false;
                            error := Some "No public key configured for verification" |}
                 else
                   let bodyString := Json.stringify (body req) in
                   let digest := createDigest bodyString in
                   let signingString :=
                     createSigningString (parseInt_opt (params !! "created"))
                                         (parseInt_opt (params !! "expires")) digest in
                   isValid ← verify P signingString (default "" (params !! "signature"))
                                    (default "" publicKey);
                   Ok {| valid := isValid;
                         error := if isValid then None else Some "Invalid signature" |})
            (fun message =>
               Ok {| valid := false; error := Some ("Verification failed: " +:+ message) |})
    end.



End Crypto.

(** ** store.js: the in-memory transaction store

    [store.transactions] is an object literal used as a map.  Reading
    [store.transactions[id]] consults the object's own properties and then
    its prototype chain, and the key [__proto__] reads and writes the
    prototype itself; both are part of the state below.  A transaction record
    is a mutable object held by the store, so an update is written back to
    the slot the record was read from. *)

Module Store.

Record Transaction : Type := {
  transactionId : string;
  messageId : string;
  status : string;
  search : json;
  catalogs : list json;
  selections : list json;
  initResults : list json;
  statusResults : list json;
  errors : list json;
  createdAt : string;
  updatedAt : string
}.

Record State : Type := {
  (** the own properties of [store.transactions] *)
  transactions : gmap string Transaction;
  (** its prototype: [None] is [Object.prototype], [Some t] a transaction
      record installed by an assignment to [__proto__] *)
  prototype : option Transaction
}.

(** [const store = { transactions: {} }] *)
Definition initial : State := {| transactions := ∅; prototype := None |}.

(** The data properties every ordinary object inherits from [Object.prototype]. *)
Definition object_prototype_members : list string :=
  ["constructor"; "hasOwnProperty"; "isPrototypeOf"; "propertyIsEnumerable";
   "toLocaleString"; "toString"; "valueOf"; "__defineGetter__"; "__defineSetter__";
   "__lookupGetter__"; "__lookupSetter__"].

(** Where a transaction record read from the store lives. *)
Inductive Slot : Type :=
| Own (key : string)
| Proto.

(** What [store.transactions[id]] evaluates to. *)
Inductive Value : Type :=
| Undefined
| Null
| TransactionRef (slot : Slot) (t : Transaction)
| Builtin (name : string)       (** [Object.prototype] or one of its functions *)
| StringValue (s : string)      (** a string field of the prototype record *)
| ArrayValue (items : list json) (** a list field of the prototype record *)
| JsonValue (j : json).          (** the [search] payload of the prototype record *)

Definition inherited_builtin (key : string) : Value :=
  if bool_decide (key ∈ object_prototype_members) then Builtin key else Undefined.

Definition inherited_field (t : Transaction) (key : string) : Value :=
  if String.eqb key "transactionId" then StringValue (transactionId t)
  else if String.eqb key "messageId" then StringValue (messageId t)
  else if String.eqb key "status" then StringValue (status t)
  else if String.eqb key "search" then JsonValue (search t)
  else if String.eqb key "catalogs" then ArrayValue (catalogs t)
  else if String.eqb key "selections" then ArrayValue (selections t)
  else if String.eqb key "initResults" then ArrayValue (initResults t)
  else if String.eqb key "statusResults" then ArrayValue (statusResults t)
  else if String.eqb key "errors" then ArrayValue (errors t)
  else if String.eqb key "createdAt" then StringValue (createdAt t)
  else if String.eqb key "updatedAt" then StringValue (updatedAt t)
  else inherited_builtin key.

(** [store.transactions[key]] *)
Definition lookup (s : State) (key : string) : Value :=
  if String.eqb key "__proto__" then
    match prototype s with
    | Some t => TransactionRef Proto t
    | None => Builtin "Object.prototype"
    end
  else
    match transactions s !! key with
    | Some t => TransactionRef (Own key) t
    | None =>
        match prototype s with
        | Some t => inherited_field t key
        | None => inherited_builtin key
        end
    end.

(** [store.transactions[key] = t] *)
Definition assign (s : State) (key : string) (t : Transaction) : State :=
  if String.eqb key "__proto__"
  then {| transactions := transactions s; prototype := Some t |}
  else {| transactions := <[key := t]> (transactions s); prototype := prototype s |}.

(** A mutation of the record held in [slot]. *)
Definition write (s : State) (slot : Slot) (t : Transaction) : State :=
  match slot with
  | Own key => {| transactions := <[key := t]> (transactions s); prototype := prototype s |}
  | Proto => {| transactions := transactions s; prototype := Some t |}
  end.

(** [createTransaction]; [t1] and [t2] are the two readings of the clock. *)
Definition createTransaction (s : State) (transactionId messageId : string)
    (searchPayload : json) (t1 t2 : string) : State * Value :=
  let s' := assign s transactionId
    {| transactionId := transactionId;
       messageId := messageId;
       status := "searching";
       search := searchPayload;
       catalogs := [];
       selections := [];
       initResults := [];
       statusResults := [];
       errors := [];
       createdAt := t1;
       updatedAt := t2 |} in
  (s', lookup s' transactionId).

Definition falsy_json (j : json) : bool :=
  match j with
  | JNull | JBool false | JNum 0 | JStr EmptyString => true
  | _ => false
  end.

Definition falsy (v : Value) : bool :=
  match v with
  | Undefined | Null => true
  | StringValue s => negb (truthy s)
  | JsonValue j => falsy_json j
  | TransactionRef _ _ | Builtin _ | ArrayValue _ => false
  end.

(** [store.transactions[transactionId] || null] *)
Definition getTransaction (s : State) (transactionId : string) : Value :=
  let v := lookup s transactionId in
  if falsy v then Null else v.

(** The five callback kinds: the list each appends to and the status each
    sets ([addStatusData] sets none). *)
Inductive Kind : Type := Catalog | Select | Init | StatusUpdate | Error.

Definition list_name (k : Kind) : string :=
  match k with
  | Catalog => "catalogs"
  | Select => "selections"
  | Init => "initResults"
  | StatusUpdate => "statusResults"
  | Error => "errors"
  end.

Definition next_status (k : Kind) : option string :=
  match k with
  | Catalog => Some "results_ready"
  | Select => Some "selected"
  | Init => Some "initialized"
  | StatusUpdate => None
  | Error => Some "error"
  end.

(** [txn.<list>.push(data); txn.status = ...; txn.updatedAt = now] on a record *)
Definition update (k : Kind) (data : json) (now : string) (t : Transaction) : Transaction :=
  {| transactionId := transactionId t;
     messageId := messageId t;
     status := default (status t) (next_status k);
     search := search t;
     catalogs := match k with Catalog => catalogs t ++ [data] | _ => catalogs t end;
     selections := match k with Select => selections t ++ [data] | _ => selections t end;
     initResults := match k with Init => initResults t ++ [data] | _ => initResults t end;
     statusResults :=
       match k with StatusUpdate => statusResults t ++ [data] | _ => statusResults t end;
     errors := match k with Error => errors t ++ [data] | _ => errors t end;
     createdAt := createdAt t;
     updatedAt := now |}.

(** The same three statements on a parsed JSON object. *)
Definition update_json (k : Kind) (data : json) (now : string)
    (fields : list (string * json)) : option (list (string * json)) :=
  match Json.obj_get (list_name k) fields with
  | Some (JArr items) =>
      let f1 := Json.obj_set (list_name k) (JArr (items ++ [data])) fields in
      let f2 :=
        match next_status k with
        | Some st => Json.obj_set "status" (JStr st) f1
        | None => f1
        end in
      Some (Json.obj_set "updatedAt" (JStr now) f2)
  | _ => None
  end.

(** The prototype record after a mutation of its [search] payload. *)
Definition with_search (p : Transaction) (payload : json) : Transaction :=
  {| transactionId := transactionId p;
     messageId := messageId p;
     status := status p;
     search := payload;
     catalogs := catalogs p;
     selections := selections p;
     initResults := initResults p;
     statusResults := statusResults p;
     errors := errors p;
     createdAt := createdAt p;
     updatedAt := updatedAt p |}.

Definition type_error : string := "Cannot read properties of undefined (reading 'push')".

(** The common body of the [add*] functions:
    [const txn = store.transactions[transactionId]; if (!txn) return null;
     txn.<list>.push(data); ...; return txn]. *)
Definition add_data (k : Kind) (s : State) (transactionId : string) (data : json)
    (now : string) : result (State * Value) :=
  let txn := lookup s transactionId in
  if falsy txn then Ok (s, Null)
  else
    match txn with
    | TransactionRef slot t =>
        let t' := update k data now t in
        Ok (write s slot t', TransactionRef slot t')
    | JsonValue (JObj fields) =>
        match update_json k data now fields, prototype s with
        | Some fields', Some p =>
            Ok ({| transactions := transactions s;
                   prototype := Some (with_search p (JObj fields')) |},
                JsonValue (JObj fields'))
        | _, _ => Throw type_error
        end
    | _ => Throw type_error
    end.

Definition addCatalogData := add_data Catalog.
Definition addSelectData := add_data Select.
Definition addInitData := add_data Init.
Definition addStatusData := add_data StatusUpdate.
Definition addErrorData := add_data Error.

(** [Object.keys(store.transactions)]: the own keys (their order is not
    modelled). *)
Definition getAllTransactionIds (s : State) : gset string := dom (transactions s).

(** [store.transactions = {}] *)
Definition clearAll (s : State) : State := initial.

(** [module.exports] of store.js: what a property of the required module
    evaluates to.  The functions are the ten names exported; any other
    property of the exports object is [undefined]. *)
Inductive Export : Type :=
| ExportStore
| ExportCreateTransaction
| ExportGetTransaction
| ExportAdd (k : Kind)
| ExportGetAllTransactionIds
| ExportClearAll.

Definition module_exports : gmap string Export :=
  list_to_map
    [("store", ExportStore);
     ("createTransaction", ExportCreateTransaction);
     ("getTransaction", ExportGetTransaction);
     ("addCatalogData", ExportAdd Catalog);
     ("addSelectData", ExportAdd Select);
     ("addInitData", ExportAdd Init);
     ("addStatusData", ExportAdd StatusUpdate);
     ("addErrorData", ExportAdd Error);
     ("getAllTransactionIds", ExportGetAllTransactionIds);
     ("clearAll", ExportClearAll)].

End Store.

(** ** routes/on_confirm.js and routes/on_cancel.js *)

Module Routes.

Import Store.

Inductive Response : Type :=
| Ack
| Nack (code message : string).

(** [store.<name> ? store.<name>(transactionId, data) : null]: a name the
    module does not export is [undefined] and the conditional yields [null].
    The handlers below use it for two names only, so the case of an export
    that is not an [add*] function is never reached. *)
Definition call_if_exported (name : string) (s : State) (transactionId : string)
    (data : json) (now : string) : result (State * Value) :=
  match module_exports !! name with
  | Some (ExportAdd k) => add_data k s transactionId data now
  | Some _ => Throw "not a function of (transactionId, data)"
  | None => Ok (s, Null)
  end.

(** The handler of [POST /beckn/on_confirm], after the two middlewares. *)
Definition on_confirm (s : State) (transactionId : string) (data : json) (now : string)
  : result (State * Response) :=
  if negb (truthy transactionId) then Ok (s, Nack "400" "Missing transaction_id")
  else
    r ← call_if_exported "addConfirmData" s transactionId data now;
    let '(s', txn) := r in
    if falsy txn then Ok (s', Nack "404" "Transaction not found or server error")
    else Ok (s', Ack).

(** The handler of [POST /beckn/on_cancel], after the two middlewares. *)
Definition on_cancel (s : State) (transactionId : string) (data : json) (now : string)
  : result (State * Response) :=
  if negb (truthy transactionId) then Ok (s, Nack "400" "Missing transaction_id")
  else
    r ← call_if_exported "addCancelData" s transactionId data now;
    let '(s', txn) := r in
    if falsy txn then Ok (s', Nack "404" "Transaction not found or server error")
    else Ok (s', Ack).

(** The handler of [POST /beckn/on_search], after the two middlewares. *)
Definition on_search (s : State) (transactionId : string) (data : json) (now : string)
  : result (State * Response) :=
  if negb (truthy transactionId) then Ok (s, Nack "400" "Missing transaction_id")
  else
    r ← addCatalogData s transactionId data now;
    let '(s', txn) := r in
    if falsy txn then Ok (s', Nack "404" "Transaction not found")
    else Ok (s', Ack).

End Routes.

(** ** packages/shared/helpers.js

    The callbacks hand these functions values that [express.json()] parsed,
    so a context is a [json] value.  An object property holding [undefined]
    is left out of the [json] object: reading it and serialising the object
    give the same in both cases. *)

Module Helpers.

(** [String(v)] for a parsed JSON value, as a template literal, a property
    key or [Array.prototype.join] converts it.  An array joins its elements
    with commas, [null] elements giving the empty text.  An object is
    converted by its [toString]: the inherited one gives the text below; an
    own property of that name is never callable in a parsed value, and
    since [valueOf] cannot give a primitive either, the conversion throws. *)
Definition primitive_error : string := "Cannot convert object to primitive value".

Fixpoint to_js_string (v : json) : result string :=
  match v with
  | JNull => Ok "null"
  | JBool true => Ok "true"
  | JBool false => Ok "false"
  | JNum z => Ok (Num.to_string (Num.Int z))
  | JStr s => Ok s
  | JArr items =>
      (fix join_items (l : list json) : result string :=
         match l with
         | [] => Ok ""
         | x :: rest =>
             match (match x with JNull => Ok "" | _ => to_js_string x end) with
             | Ok text =>
                 match rest with
                 | [] => Ok text
                 | _ :: _ =>
                     match join_items rest with
                     | Ok others => Ok (text +:+ "," +:+ others)
                     | Throw e => Throw e
                     end
                 end
             | Throw e => Throw e
             end
         end) items
  | JObj fields =>
      match Json.obj_get "toString" fields with
      | Some _ => Throw primitive_error
      | None => Ok "[object Object]"
      end
  end.

(** [v[key]] or [v?.[key]] for a key that is no array index, not [length]
    and no member of [Object.prototype] (the keys read below are such):
    only an object can hold it.  [None] is [undefined].  Reading a property
    of [null] without [?.] throws; the callers below see to that case. *)
Definition property (v : json) (key : string) : option json :=
  match v with
  | JObj fields => Json.obj_get key fields
  | _ => None
  end.

(** Truthiness of a possibly [undefined] value. *)
Definition truthy_value (o : option json) : bool :=
  match o with
  | Some j => negb (Store.falsy_json j)
  | None => false
  end.

(** [v !== text] for a string literal [text] *)
Definition differs_from (v : json) (text : string) : bool :=
  match v with
  | JStr s => negb (String.eqb s text)
  | _ => true
  end.

(** [list.join(sep)] *)
Fixpoint join (sep : string) (l : list string) : string :=
  match l with
  | [] => ""
  | x :: rest =>
      match rest with
      | [] => x
      | _ :: _ => x +:+ sep +:+ join sep rest
      end
  end.

(** The parameter object of [buildContext]; [None] is a property that is
    absent or [undefined]. *)
Record ContextParams : Type := {
  action : option string;
  transactionId : option string;
  messageId : option string;
  bapId : option string;
  bapUri : option string;
  bppId : option string;
  bppUri : option string;
  domain : option string;
  country : option string;
  city : option string;
  coreVersion : option string;
  ttl : option string
}.

(** A property of the object literal: left out when its value is [undefined]. *)
Definition field (name : string) (o : option string) : list (string * json) :=
  match o with
  | Some s => [(name, JStr s)]
  | None => []
  end.

(** [buildContext]; [uuid] is what [crypto.randomUUID()] returns when it is
    called, [timestamp] is [new Date().toISOString()]. *)
Definition buildContext (p : ContextParams) (uuid timestamp : string) : json :=
  let context :=
    [("domain", JStr (default "ONDC:LOG10" (domain p)));
     ("country", JStr (default "IND" (country p)));
     ("city", JStr (default "std:011" (city p)))]
    ++ field "action" (action p)
    ++ [("core_version", JStr (default "1.2.0" (coreVersion p)))]
    ++ field "bap_id" (bapId p)
    ++ field "bap_uri" (bapUri p)
    ++ field "transaction_id" (transactionId p)
    ++ [("message_id", JStr (or_default (messageId p) uuid));
        ("timestamp", JStr timestamp);
        ("ttl", JStr (default "PT30S" (ttl p)))] in
  let context :=
    match bppId p with
    | Some id => if truthy id then Json.obj_set "bpp_id" (JStr id) context else context
    | None => context
    end in
  let context :=
    match bppUri p with
    | Some uri => if truthy uri then Json.obj_set "bpp_uri" (JStr uri) context else context
    | None => context
    end in
  JObj context.

(** [{ ...context, timestamp: getTimestamp() }] for a context that is an
    object: its fields in their order, then the assignment. *)
Definition stamped (context : list (string * json)) (timestamp : string)
  : list (string * json) :=
  Json.obj_set "timestamp" (JStr timestamp) context.

Definition ack (status : string) : json :=
  JObj [("ack", JObj [("status", JStr status)])].

Definition domain_error (errorCode errorMessage : string) : json :=
  JObj [("type", JStr "DOMAIN-ERROR"); ("code", JStr errorCode);
        ("message", JStr errorMessage)].

(** [buildAckResponse(context)] for a context that is an object. *)
Definition buildAckResponse (context : list (string * json)) (timestamp : string) : json :=
  JObj [("context", JObj (stamped context timestamp)); ("message", ack "ACK")].

(** [buildNackResponse(context, errorCode, errorMessage)], likewise. *)
Definition buildNackResponse (context : list (string * json))
    (errorCode errorMessage timestamp : string) : json :=
  JObj [("context", JObj (stamped context timestamp)); ("message", ack "NACK");
        ("error", domain_error errorCode errorMessage)].

(** [buildErrorPayload(context, errorCode, errorMessage)], likewise. *)
Definition buildErrorPayload (context : list (string * json))
    (errorCode errorMessage timestamp : string) : json :=
  JObj [("context",
         JObj (Json.obj_set "timestamp" (JStr timestamp)
                 (Json.obj_set "action" (JStr "on_error") context)));
        ("error", domain_error errorCode errorMessage)].

(** *** Durations *)

(** Arithmetic of JavaScript numbers on the values [parseInt] returns;
    as in [Num], a number is an exact integer (the doubles of JavaScript
    agree with them up to 2^53). *)
Definition times (a : Num.number) (k : Z) : Num.number :=
  match a with
  | Num.Int x => Num.Int (x * k)
  | Num.NaN => Num.NaN
  end.

Definition plus (a b : Num.number) : Num.number :=
  match a, b with
  | Num.Int x, Num.Int y => Num.Int (x + y)
  | _, _ => Num.NaN
  end.

(** [Math.ceil(a / k)] for a positive [k] *)
Definition ceil_div (a : Num.number) (k : Z) : Num.number :=
  match a with
  | Num.Int x => Num.Int (- ((- x) / k))
  | Num.NaN => Num.NaN
  end.

(** The text after the leftmost occurrence of the letters P, T. *)
Fixpoint after_PT (s : string) : option string :=
  match s with
  | EmptyString => None
  | String c r =>
      match r with
      | String c' r' =>
          if Ascii.eqb c "P" && Ascii.eqb c' "T" then Some r' else after_PT r
      | EmptyString => None
      end
  end.

(** One optional group of the pattern: a run of digits followed by the
    letter [unit].  The run is greedy and the letter is no digit, so the
    group matches with the longest run or not at all; when it does not, the
    match goes on from the same place and the group is [undefined]. *)
Definition group (unit : ascii) (s : string) : option string * string :=
  let '(digits, r) := Crypto.span Num.is_digit s in
  if truthy digits then
    match r with
    | String c r' => if Ascii.eqb c unit then (Some digits, r') else (None, s)
    | EmptyString => (None, s)
    end
  else (None, s).

(** [duration.match(pattern)]: every group is optional, so the pattern
    matches at the leftmost P, T; the three groups are returned. *)
Definition duration_match (duration : string)
  : option (option string * option string * option string) :=
  match after_PT duration with
  | Some r0 =>
      let '(hours, r1) := group "H" r0 in
      let '(minutes, r2) := group "M" r1 in
      let '(seconds, _) := group "S" r2 in
      Some (hours, minutes, seconds)
  | None => None
  end.

(** [parseInt(g || '0', 10)] *)
Definition group_value (g : option string) : Num.number :=
  Num.parseInt (or_default g "0").

Definition parseDurationToMinutes (duration : string) : Num.number :=
  match duration_match duration with
  | None => Num.Int 0
  | Some (h, m, s) =>
      let hours := group_value h in
      let minutes := group_value m in
      let seconds := group_value s in
      plus (plus (times hours 60) minutes) (ceil_div seconds 60)
  end.

(** *** Context validation *)

Record Validation : Type := { valid : bool; errors : list string }.

Definition required : list string :=
  ["domain"; "country"; "city"; "action"; "core_version"; "bap_id"; "bap_uri";
   "transaction_id"; "message_id"; "timestamp"].

(** The loop over [required]. *)
Definition missing_fields (context : json) : list string :=
  flat_map
    (fun name =>
       if truthy_value (property context name) then []
       else ["Missing required field: context." +:+ name])
    required.

(** [if (context.f && context.f !== expected) errors.push(...)]: the
    message interpolates the value, which can throw. *)
Definition unexpected (context : json) (name label expected : string)
  : result (list string) :=
  match property context name with
  | Some v =>
      if negb (Store.falsy_json v) && differs_from v expected
      then
        text ← to_js_string v;
        Ok ["Invalid " +:+ label +:+ ": " +:+ text +:+ ", expected " +:+ expected]
      else Ok []
  | None => Ok []
  end.

Definition validateContext (context : json) : result Validation :=
  match context with
  | JNull => Throw "Cannot read properties of null (reading 'domain')"
  | _ =>
      domainErrors ← unexpected context "domain" "domain" "ONDC:LOG10";
      versionErrors ← unexpected context "core_version" "core_version" "1.2.0";
      let errors := missing_fields context ++ domainErrors ++ versionErrors in
      Ok {| valid := Nat.eqb (length errors) 0; errors := errors |}
  end.

End Helpers.

(** ** The search and results routes (src/unnamed/part_002): the duration
    of a catalogue item *)

Module Results.

(** [parseDuration]: the same pattern as [parseDurationToMinutes], another
    default and no seconds. *)
Definition parseDuration (duration : string) : Num.number :=
  match Helpers.duration_match duration with
  | None => Num.Int 60
  | Some (h, m, _) =>
      let hours := Helpers.group_value h in
      let minutes := Helpers.group_value m in
      Helpers.plus (Helpers.times hours 60) minutes
  end.

End Results.

(** ** services/beckn-service.js: where a request goes and what context it carries *)

Module Service.

Definition getGatewayUrl (env : Crypto.Env) : string :=
  if bool_decide (env !! "DEV_MODE" = Some "true")
  then or_default (env !! "MOCK_SELLER_URL") "http://localhost:4000"
  else or_default (env !! "GATEWAY_URL") "https://preprod.gateway.ondc.org".

(** The context [search] builds (lines 70-80): [transactionId] is the
    caller's, [uuid1] and [uuid2] are the two identifiers drawn. *)
Definition search_context (env : Crypto.Env) (transactionId : option string)
    (uuid1 uuid2 timestamp : string) : json :=
  let txnId := or_default transactionId uuid1 in
  let msgId := uuid2 in
  Helpers.buildContext
    {| Helpers.action := Some "search";
       Helpers.transactionId := Some txnId;
       Helpers.messageId := Some msgId;
       Helpers.bapId := Some (or_default (env !! "SUBSCRIBER_ID") "ondc-logistics-bap.example.com");
       Helpers.bapUri := Some (or_default (env !! "BAP_BASE_URL") "http://localhost:3000");
       Helpers.bppId := None;
       Helpers.bppUri := None;
       Helpers.domain := None;
       Helpers.country := None;
       Helpers.city := None;
       Helpers.coreVersion := None;
       Helpers.ttl := None |}
    uuid2 timestamp.

End Service.

(** ** routes/beckn.js: the callback endpoints

    Each endpoint is a chain: [verifyAuth], [validateBecknContext] (not for
    [/on_error]) and the handler.  A reply records which response builder
    the code calls and with which context.  A route ends with a reply or
    with an exception, which the error handler of the application answers
    with status 500; either way the store is what the route left. *)

Module Callbacks.

Import Store.

(** The request as Express hands it over: [req.body] is [undefined]
    ([None]) when no parser has set it. *)
Record Request : Type := {
  authorization : option string;
  body : option json
}.

(** The message of the [TypeError] of [hash.update(undefined)]. *)
Definition digest_type_error : string :=
  "The " +:+ Crypto.dq +:+ "data" +:+ Crypto.dq
  +:+ " argument must be of type string or an instance of Buffer, TypedArray, or DataView."
  +:+ " Received undefined".

(** [verifyAuthorizationHeader(req)] on such a request.  With a body it is
    the function of the crypto module; with none, [JSON.stringify] gives
    [undefined] and [createDigest] throws inside the [try]. *)
Definition verifyAuthorizationHeader (P : Nacl.primitives) (env : Crypto.Env) (now_ms : Z)
    (req : Request) : result Crypto.Verdict :=
  match body req with
  | Some b =>
      Crypto.verifyAuthorizationHeader P env now_ms
        {| Crypto.authorization := authorization req; Crypto.body := b |}
  | None =>
      let isDevMode := bool_decide (env !! "DEV_MODE" = Some "true") in
      if isDevMode then Ok {| Crypto.valid := true; Crypto.error := None |}
      else
        match authorization req with
        | None =>
            Ok {| Crypto.valid := false; Crypto.error := Some "Missing Authorization header" |}
        | Some authHeader =>
            if negb (truthy authHeader)
            then Ok {| Crypto.valid := false;
                       Crypto.error := Some "Missing Authorization header" |}
            else
              try_catch
                (let params := Crypto.parseAuthorizationHeader authHeader in
                 if negb (truthy_opt (params !! "keyId"))
                    || negb (truthy_opt (params !! "signature"))
                    || negb (truthy_opt (params !! "created"))
                    || negb (truthy_opt (params !! "expires"))
                 then Ok {| Crypto.valid := false;
                            Crypto.error := Some "Malformed Authorization header" |}
                 else
                   let now := Num.Int (now_ms / 1000) in
                   if Num.gt now (Crypto.parseInt_opt (params !! "expires"))
                   then Ok {| Crypto.valid := false;
                              Crypto.error := Some "Authorization header expired" |}
                   else
                     if negb (truthy_opt (env !! "PUBLIC_KEY"))
                     then Ok {| Crypto.valid := false;
                                Crypto.error :=
                                  Some "No public key configured for verification" |}
                     else Throw digest_type_error)
                (fun message =>
                   Ok {| Crypto.valid := false;
                         Crypto.error := Some ("Verification failed: " +:+ message) |})
        end
  end.

Inductive Reply : Type :=
| Ack (context : json)
    (** [res.json(buildAckResponse(context))] *)
| Nack (context : json) (code : string) (message : option string)
    (** [res.json(buildNackResponse(context, code, message))] *)
| MissingContext.
    (** status 400 with the PROTOCOL-ERROR object *)

(** What a middleware does: call [next()] or answer. *)
Inductive Step : Type :=
| Next
| Respond (r : Reply).

(** How a route ends, and the store it leaves. *)
Inductive Outcome : Type :=
| Replied (s : State) (r : Reply)
| Crashed (s : State) (message : string).

(** What follows a step that may throw; [s] is the store at that point. *)
Definition guard {A} (s : State) (m : result A) (k : A -> Outcome) : Outcome :=
  match m with
  | Ok a => k a
  | Throw e => Crashed s e
  end.

(** [v || d] *)
Definition or_else (o : option json) (d : json) : json :=
  match o with
  | Some j => if falsy_json j then d else j
  | None => d
  end.

(** [v || {}] *)
Definition or_empty_object (o : option json) : json := or_else o (JObj []).

(** [v?.key], for the keys [Helpers.property] reads. *)
Definition optional_property (o : option json) (key : string) : option json :=
  match o with
  | Some v => Helpers.property v key
  | None => None
  end.

(** The number of UTF-16 code units of a string given by its UTF-8 bytes:
    none for a continuation byte, two for the first byte of a four-byte
    sequence, one for any other byte. *)
Fixpoint utf16_length (s : string) : Z :=
  match s with
  | EmptyString => 0
  | String c r =>
      let n := N_of_ascii c in
      (if (128 <=? n)%N && (n <? 192)%N then 0
       else if (240 <=? n)%N then 2 else 1) + utf16_length r
  end.

(** [v?.length] *)
Definition length_property (o : option json) : option json :=
  match o with
  | Some (JArr items) => Some (JNum (Z.of_nat (length items)))
  | Some (JStr s) => Some (JNum (utf16_length s))
  | Some (JObj fields) => Json.obj_get "length" fields
  | _ => None
  end.

(** [message?.catalog?.['bpp/providers']?.length || 0] *)
Definition providerCount (message : option json) : json :=
  or_else
    (length_property
       (optional_property (optional_property message "catalog") "bpp/providers"))
    (JNum 0).

(** A value interpolated into a template literal. *)
Definition interpolate (o : option json) : result string :=
  match o with
  | Some v => Helpers.to_js_string v
  | None => Ok "undefined"
  end.

Definition verifyAuth (P : Nacl.primitives) (env : Crypto.Env) (now_ms : Z)
    (req : Request) : result Step :=
  result ← verifyAuthorizationHeader P env now_ms req;
  if negb (Crypto.valid result) then
    let context := or_empty_object (optional_property (body req) "context") in
    Ok (Respond (Nack context "401" (Crypto.error result)))
  else Ok Next.

Definition validateBecknContext (env : Crypto.Env) (req : Request) : result Step :=
  match body req with
  | None => Ok (Respond MissingContext)
  | Some b =>
      if falsy_json b then Ok (Respond MissingContext)
      else
        match Helpers.property b "context" with
        | None => Ok (Respond MissingContext)
        | Some context =>
            if falsy_json context then Ok (Respond MissingContext)
            else
              v ← Helpers.validateContext context;
              if negb (Helpers.valid v)
                 && negb (bool_decide (env !! "DEV_MODE" = Some "true"))
              then Ok (Respond (Nack context "400"
                                  (Some (Helpers.join "; " (Helpers.errors v)))))
              else Ok Next
        end
  end.

(** The object literal [{ context, <name> }] of the handlers. *)
Definition payload (context : json) (name : string) (value : option json) : json :=
  JObj (("context", context) ::
        match value with
        | Some v => [(name, v)]
        | None => []
        end).

Definition destructure_error (what : string) : string :=
  "Cannot destructure property 'context' of 'req.body' as it is " +:+ what +:+ ".".

Definition read_error (what : string) : string :=
  "Cannot read properties of " +:+ what +:+ " (reading 'transaction_id')".

(** The five routes of the file and the [add*] function each calls. *)
Inductive Route : Type := OnSearch | OnSelect | OnInit | OnStatus | OnError.

Definition kind_of (route : Route) : Kind :=
  match route with
  | OnSearch => Catalog
  | OnSelect => Select
  | OnInit => Init
  | OnStatus => StatusUpdate
  | OnError => Error
  end.

(** The log lines, as far as they can throw: what a template literal
    interpolates is converted to a string, the text written is not kept.
    On arrival every handler logs the transaction id and [/on_search] also
    [context.bpp_id || 'unknown']; after the store call [/on_search] logs
    the provider count.  The transaction id is interpolated again later; a
    value that was converted once converts again. *)
Definition log_received (route : Route) (context : json) (transactionId : option json)
  : result unit :=
  _ ← interpolate transactionId;
  match route with
  | OnSearch =>
      _ ← Helpers.to_js_string
            (or_else (Helpers.property context "bpp_id") (JStr "unknown"));
      Ok tt
  | _ => Ok tt
  end.

Definition log_stored (route : Route) (message : option json) : result unit :=
  match route with
  | OnSearch => _ ← Helpers.to_js_string (providerCount message); Ok tt
  | _ => Ok tt
  end.

(** The handler of [/on_search], [/on_select], [/on_init] and [/on_status];
    [now] is the time the store reads. *)
Definition handler (route : Route) (now : string) (req : Request) (s : State) : Outcome :=
  match body req with
  | None => Crashed s (destructure_error "undefined")
  | Some JNull => Crashed s (destructure_error "null")
  | Some b =>
      match Helpers.property b "context" with
      | None => Crashed s (read_error "undefined")
      | Some JNull => Crashed s (read_error "null")
      | Some context =>
          let message := Helpers.property b "message" in
          let transactionId := Helpers.property context "transaction_id" in
          guard s (log_received route context transactionId) (fun _ =>
            match transactionId with
            | None => Replied s (Nack context "400" (Some "Missing transaction_id"))
            | Some id =>
                if falsy_json id
                then Replied s (Nack context "400" (Some "Missing transaction_id"))
                else
                  guard s
                    (key ← Helpers.to_js_string id;
                     add_data (kind_of route) s key (payload context "message" message) now)
                    (fun r =>
                       if falsy (snd r)
                       then Replied (fst r)
                              (Nack context "404" (Some "Transaction not found"))
                       else
                         guard (fst r) (log_stored route message) (fun _ =>
                           Replied (fst r) (Ack context)))
            end)
      end
  end.

(** The handler of [/on_error]: the result of [addErrorData] is not looked at. *)
Definition error_handler (now : string) (req : Request) (s : State) : Outcome :=
  match body req with
  | None => Crashed s (destructure_error "undefined")
  | Some JNull => Crashed s (destructure_error "null")
  | Some b =>
      let context := Helpers.property b "context" in
      let error := Helpers.property b "error" in
      let transactionId := optional_property context "transaction_id" in
      guard s (interpolate transactionId) (fun _ =>
        match context, transactionId with
        | Some c, Some id =>
            if falsy_json id then Replied s (Ack (or_empty_object context))
            else
              guard s
                (key ← Helpers.to_js_string id;
                 addErrorData s key (payload c "error" error) now)
                (fun r => Replied (fst r) (Ack (or_empty_object context)))
        | _, _ => Replied s (Ack (or_empty_object context))
        end)
  end.

Definition callback (route : Route) (P : Nacl.primitives) (env : Crypto.Env)
    (now_ms : Z) (now : string) (req : Request) (s : State) : Outcome :=
  guard s (verifyAuth P env now_ms req) (fun a =>
    match a with
    | Respond r => Replied s r
    | Next =>
        match route with
        | OnError => error_handler now req s
        | _ =>
            guard s (validateBecknContext env req) (fun b =>
              match b with
              | Respond r => Replied s r
              | Next => handler route now req s
              end)
        end
    end).

End Callbacks.

(** ** The subscription handshake

    scripts/test-crypto.js and the [/on_subscribe] route are among the
    sources; the module they require for [decryptChallenge] is not.  The key
    agreement ([nacl.box.before]) and the block cipher (Node's
    [aes-256-ecb]) are parameters. *)

Module Challenge.

Import Base64.

Record primitives : Type := {
  (** [nacl.box.keyPair]: from the random seed to (publicKey, secretKey) *)
  box_keypair : list ascii -> list ascii * list ascii;
  (** the shared key of [nacl.box.before(publicKey, secretKey)] *)
  box_beforenm : list ascii -> list ascii -> list ascii;
  (** [aes-256-ecb] with PKCS#7 padding, no initialisation vector *)
  aes256ecb_encrypt : list ascii -> list ascii -> list ascii;
  (** decryption fails on a misaligned text or on bad padding *)
  aes256ecb_decrypt : list ascii -> list ascii -> result (list ascii)
}.

(** [nacl.box.before] checks both key lengths. *)
Definition box_before (P : primitives) (publicKey secretKey : list ascii)
  : result (list ascii) :=
  if negb (Nat.eqb (length publicKey) 32) then Throw "bad public key size"
  else if negb (Nat.eqb (length secretKey) 32) then Throw "bad secret key size"
  else Ok (box_beforenm P publicKey secretKey).

(** [crypto.createCipheriv('aes-256-ecb', key, null)] wants a 32-byte key. *)
Definition cipher_key (key : list ascii) : result (list ascii) :=
  if Nat.eqb (length key) 32 then Ok key else Throw "Invalid key length".

Record KeyPair : Type := { publicKey : string; privateKey : string }.

(** Modelled from the spec: [generateEncryptionKeyPair] of the bap-server
    crypto module, whose file is not among the sources (the Key Material
    Provider of section 2).  As scripts/test-crypto.js uses it: the base64
    texts of a key pair for the key agreement. *)
Definition generateEncryptionKeyPair (P : primitives) (seed : list ascii) : KeyPair :=
  let keyPair := box_keypair P seed in
  {| publicKey := encodeBase64 (fst keyPair);
     privateKey := encodeBase64 (snd keyPair) |}.

(** The sender's side as scripts/test-crypto.js writes it (lines 18-27):
    the shared key of the sender's secret key and the receiver's public key,
    then [cipher.update(challenge, 'utf8', 'base64') + cipher.final('base64')]. *)
Definition encryptChallenge (P : primitives) (challenge : string)
    (senderPrivateKey receiverPublicKey : string) : result string :=
  senderSecretKeyBytes ← decodeBase64 senderPrivateKey;
  receiverPublicKeyBytes ← decodeBase64 receiverPublicKey;
  sharedSecretSender ← box_before P receiverPublicKeyBytes senderSecretKeyBytes;
  key ← cipher_key sharedSecretSender;
  Ok (encodeBase64 (aes256ecb_encrypt P key (list_ascii_of_string challenge))).

(** Modelled from the spec: [decryptChallenge] of the bap-server crypto
    module, whose file is not among the sources.  Section 4.3: derive the
    shared secret between the counterparty's public key and this node's
    private key, use the raw shared secret as the key of the block
    decryption (no initialisation vector), return the decrypted UTF-8
    string; wrong keys, corrupted ciphertext or wrong block alignment
    surface as an explicit failure value ([None], the falsy value the
    [/on_subscribe] route tests for), never as an exception.
    [decrypt_steps] is the part that may throw. *)
Definition decrypt_steps (P : primitives) (encryptedBase64 : string)
    (counterpartyPublicKey ownPrivateKey : string) : result string :=
  publicKeyBytes ← decodeBase64 counterpartyPublicKey;
  privateKeyBytes ← decodeBase64 ownPrivateKey;
  sharedSecret ← box_before P publicKeyBytes privateKeyBytes;
  key ← cipher_key sharedSecret;
  ciphertext ← decodeBase64 encryptedBase64;
  plaintext ← aes256ecb_decrypt P key ciphertext;
  Ok (string_of_list_ascii plaintext).

(** Modelled from the spec: [decryptChallenge] itself, the steps above with
    every exception turned into the failure value (section 4.3: an explicit
    failure value, not a crash; section 7: raw exceptions must never escape
    the crypto layer). *)
Definition decryptChallenge (P : primitives) (encryptedBase64 : string)
    (counterpartyPublicKey ownPrivateKey : string) : result (option string) :=
  try_catch
    (decrypt_steps P encryptedBase64 counterpartyPublicKey ownPrivateKey
       ≫= fun plaintext => Ok (Some plaintext))
    (fun _ => Ok None).

End Challenge.

(** ** Fixtures

    Stand-ins for the external primitives, used to run the definitions above
    on concrete inputs.  They have the shapes of the real ones (key and
    signature sizes) and none of their security. *)

Module Fixture.

(** [l] cut or zero-filled to exactly [n] bytes. *)
Definition fit (n : nat) (l : list ascii) : list ascii :=
  firstn n (l ++ repeat Ascii.zero n).

(** A keyed tag over the whole message. *)
Definition tag (publicKey msg : list ascii) : list ascii :=
  fit 64 (Sha256.sha256 (publicKey ++ msg) ++ Sha256.sha256 (msg ++ publicKey)).

Definition bytes_eqb (a b : list ascii) : bool := bool_decide (a = b).

Definition sign_primitives : Nacl.primitives :=
  {| Nacl.crypto_sign_keypair := fun seed => (fit 32 seed, fit 32 seed ++ fit 32 seed);
     Nacl.crypto_sign := fun msg secretKey => tag (skipn 32 secretKey) msg;
     Nacl.crypto_sign_open := fun msg sig publicKey => bytes_eqb sig (tag publicKey msg) |}.

Definition xor_bytes (a b : list ascii) : list ascii :=
  map (fun p => ascii_of_N (N.lxor (N_of_ascii (fst p)) (N_of_ascii (snd p)))) (combine a b).

(** Key agreement by exclusive or (the public key is the secret key), and
    a cipher that writes the key in front of the plaintext and, to decrypt,
    checks that the text starts with the key. *)
Definition box_primitives : Challenge.primitives :=
  {| Challenge.box_keypair := fun seed => (fit 32 seed, fit 32 seed);
     Challenge.box_beforenm := fun publicKey secretKey => xor_bytes publicKey secretKey;
     Challenge.aes256ecb_encrypt := fun key plaintext => key ++ plaintext;
     Challenge.aes256ecb_decrypt := fun key ciphertext =>
       if bytes_eqb (firstn 32 ciphertext) key then Ok (skipn 32 ciphertext)
       else Throw "bad decrypt" |}.

Definition seed1 : list ascii := list_ascii_of_string "seed-one".
Definition seed2 : list ascii := list_ascii_of_string "seed-two".

End Fixture.

(** * Specification vocabulary

    The contracts of the external primitives and the notions the theorems
    are stated with. *)

(** What the callers rely on from tweetnacl's Ed25519: the sizes of keys and
    signatures, and that a signature made with the secret key of a
    generated pair opens under its public key. *)
Record ed25519_contract (P : Nacl.primitives) : Prop := {
  keypair_public_size :
    forall seed, length (fst (Nacl.crypto_sign_keypair P seed)) = 32;
  keypair_secret_size :
    forall seed, length (snd (Nacl.crypto_sign_keypair P seed)) = 64;
  signature_size :
    forall msg secretKey,
      length secretKey = 64 -> length (Nacl.crypto_sign P msg secretKey) = 64;
  sign_open_correct :
    forall seed msg,
      Nacl.crypto_sign_open P msg
        (Nacl.crypto_sign P msg (snd (Nacl.crypto_sign_keypair P seed)))
        (fst (Nacl.crypto_sign_keypair P seed)) = true
}.

(** What the handshake relies on from the primitives: key sizes, that both
    sides derive the same shared key, and that decryption undoes
    encryption under a 32-byte key. *)
Record handshake_contract (P : Challenge.primitives) : Prop := {
  box_public_size :
    forall seed, length (fst (Challenge.box_keypair P seed)) = 32;
  box_secret_size :
    forall seed, length (snd (Challenge.box_keypair P seed)) = 32;
  box_shared_size :
    forall publicKey secretKey,
      length publicKey = 32 -> length secretKey = 32 ->
      length (Challenge.box_beforenm P publicKey secretKey) = 32;
  box_agreement :
    forall seedA seedB,
      Challenge.box_beforenm P (fst (Challenge.box_keypair P seedB))
                               (snd (Challenge.box_keypair P seedA))
      = Challenge.box_beforenm P (fst (Challenge.box_keypair P seedA))
                                 (snd (Challenge.box_keypair P seedB));
  aes_decrypt_encrypt :
    forall key plaintext,
      length key = 32 ->
      Challenge.aes256ecb_decrypt P key (Challenge.aes256ecb_encrypt P key plaintext)
      = Ok plaintext
}.

(** Every character of [s] satisfies [p]. *)
Fixpoint all_chars (p : ascii -> bool) (s : string) : bool :=
  match s with
  | EmptyString => true
  | String c r => p c && all_chars p r
  end.

(** The loop on the whole of a text. *)
Definition scan (s : string) (params : gmap string string) : gmap string string :=
  Crypto.exec_loop (S (String.length s)) s params.

(** The wire form of an envelope: six fields in fixed order, each value in
    double quotes, after the [Signature] prefix. *)
Definition envelope_text (keyId algorithm created expires headers signature : string) : string :=
  "Signature keyId=" +:+ Crypto.dq +:+ keyId +:+ Crypto.dq +:+ ","
  +:+ "algorithm=" +:+ Crypto.dq +:+ algorithm +:+ Crypto.dq +:+ ","
  +:+ "created=" +:+ Crypto.dq +:+ created +:+ Crypto.dq +:+ ","
  +:+ "expires=" +:+ Crypto.dq +:+ expires +:+ Crypto.dq +:+ ","
  +:+ "headers=" +:+ Crypto.dq +:+ headers +:+ Crypto.dq +:+ ","
  +:+ "signature=" +:+ Crypto.dq +:+ signature +:+ Crypto.dq.

(** The mapping that binds the six field names to the six values. *)
Definition envelope_fields (keyId algorithm created expires headers signature : string)
  : gmap string string :=
  <["signature" := signature]> (<["headers" := headers]> (<["expires" := expires]>
    (<["created" := created]> (<["algorithm" := algorithm]> (<["keyId" := keyId]> ∅))))).

(** A value the grammar can carry: not empty, no double quote in it. *)
Definition quotable (s : string) : bool := truthy s && all_chars Crypto.is_not_quote s.

Definition decimal_char (c : ascii) : bool := Num.is_digit c || Ascii.eqb c "-".

(** A key, an equals sign and a quoted value in front of [rest]. *)
Definition token (key value rest : string) : string :=
  key +:+ String "=" (String Json.dquote (value +:+ String Json.dquote rest)).

(** [typeof body === 'string' ? body : JSON.stringify(body)] *)
Definition body_text (body : Crypto.Body) : string :=
  match body with
  | Crypto.BodyString s => s
  | Crypto.BodyObject j => Json.stringify j
  end.

(** Inputs the theorems are run on. *)

Definition fixture_env : Crypto.Env :=
  <["PRIVATE_KEY" :=
      Crypto.privateKey (Crypto.generateKeyPair Fixture.sign_primitives Fixture.seed1)]>
    (<["PUBLIC_KEY" :=
        Crypto.publicKey (Crypto.generateKeyPair Fixture.sign_primitives Fixture.seed1)]> ∅).

Definition expired_header : string :=
  "Signature keyId=" +:+ Crypto.dq +:+ "bpp.example.com|k1|ed25519" +:+ Crypto.dq
  +:+ ",algorithm=" +:+ Crypto.dq +:+ "ed25519" +:+ Crypto.dq
  +:+ ",created=" +:+ Crypto.dq +:+ "1700000000" +:+ Crypto.dq
  +:+ ",expires=" +:+ Crypto.dq +:+ "1700000030" +:+ Crypto.dq
  +:+ ",headers=" +:+ Crypto.dq +:+ "(created) (expires) digest" +:+ Crypto.dq
  +:+ ",signature=" +:+ Crypto.dq +:+ "AAAA" +:+ Crypto.dq.



(** Number.MAX_SAFE_INTEGER: up to it every integer is a number of its own. *)
Definition max_safe_integer : Z := 9007199254740991.



(** The properties of [fields] defined one after the other on [acc]. *)
Definition set_each (fields acc : list (string * json)) : list (string * json) :=
  fold_left (fun acc f => Json.obj_set (fst f) (snd f) acc) fields acc.

(** A value a JavaScript program can hold: every integer is a safe one, and
    the properties of every object are listed in enumeration order, the
    order that defining them one after the other leaves them in. *)
Fixpoint js_value (j : json) : Prop :=
  match j with
  | JNum z => (- max_safe_integer <= z <= max_safe_integer)%Z
  | JArr items =>
      (fix all (l : list json) : Prop :=
         match l with
         | [] => True
         | x :: rest => js_value x /\ all rest
         end) items
  | JObj fields =>
      set_each fields [] = fields
      /\ (fix all (l : list (string * json)) : Prop :=
            match l with
            | [] => True
            | f :: rest => js_value (snd f) /\ all rest
            end) fields
  | _ => True
  end.





(** The properties of a transaction record, which the map inherits once a
    record has been installed as its prototype. *)
Definition record_members : list string :=
  ["transactionId"; "messageId"; "status"; "search"; "catalogs"; "selections";
   "initResults"; "statusResults"; "errors"; "createdAt"; "updatedAt"].


(** ** Vocabulary of the further properties *)

(** The list a callback kind appends to. *)
Definition received (k : Store.Kind) (t : Store.Transaction) : list json :=
  match k with
  | Store.Catalog => Store.catalogs t
  | Store.Select => Store.selections t
  | Store.Init => Store.initResults t
  | Store.StatusUpdate => Store.statusResults t
  | Store.Error => Store.errors t
  end.

Definition same_kind (a b : Store.Kind) : bool :=
  match a, b with
  | Store.Catalog, Store.Catalog | Store.Select, Store.Select | Store.Init, Store.Init
  | Store.StatusUpdate, Store.StatusUpdate | Store.Error, Store.Error => true
  | _, _ => false
  end.

(** A run of [add*] calls for one transaction id, each with its kind, its
    payload and the time the store reads. *)
Fixpoint add_each (s : Store.State) (id : string) (calls : list (Store.Kind * json * string))
  : result Store.State :=
  match calls with
  | [] => Ok s
  | (k, data, now) :: rest =>
      r ← Store.add_data k s id data now;
      add_each (fst r) id rest
  end.

(** The payloads of kind [k] among [calls], in order. *)
Fixpoint payloads_of (k : Store.Kind) (calls : list (Store.Kind * json * string)) : list json :=
  match calls with
  | [] => []
  | (k', data, _) :: rest =>
      if same_kind k' k then data :: payloads_of k rest else payloads_of k rest
  end.

(** Text between two fields of a header: no word character in it. *)
Definition separator (s : string) : bool :=
  all_chars (fun c => negb (Crypto.is_word_char c)) s.

(** A field name the loop records: word characters, at least one, and not
    the name of the prototype accessor. *)
Definition field_name (k : string) : bool :=
  truthy k && all_chars Crypto.is_word_char k && negb (String.eqb k "__proto__").

(** A header body: each field with the separator in front of it, then [tail]. *)
Fixpoint fields_text (fields : list (string * string * string)) (tail : string) : string :=
  match fields with
  | [] => tail
  | (sep, k, v) :: rest => sep +:+ token k v (fields_text rest tail)
  end.

(** The bindings of the fields, made from left to right. *)
Definition bind_fields (fields : list (string * string * string)) (params : gmap string string)
  : gmap string string :=
  fold_left (fun m f => <[snd (fst f) := snd f]> m) fields params.

Definition field_ok (f : string * string * string) : bool :=
  separator (fst (fst f)) && field_name (snd (fst f)) && quotable (snd f).

(** What holds of every binding the loop has made. *)
Definition recorded (params : gmap string string) : Prop :=
  forall k v, params !! k = Some v -> field_name k = true /\ quotable v = true.

(** A request that carries a header with the four fields the verifier
    needs, not past its expiry at [now_ms], whose signature verifies under
    the configured public key over the signing string rebuilt from the
    header and the body received. *)
Definition signed_request (P : Nacl.primitives) (env : Crypto.Env) (now_ms : Z)
    (req : Crypto.Request) : Prop :=
  exists header keyId signature created expires publicKey,
    Crypto.authorization req = Some header
    /\ Crypto.parseAuthorizationHeader header !! "keyId" = Some keyId
    /\ Crypto.parseAuthorizationHeader header !! "signature" = Some signature
    /\ Crypto.parseAuthorizationHeader header !! "created" = Some created
    /\ Crypto.parseAuthorizationHeader header !! "expires" = Some expires
    /\ Num.gt (Num.Int (now_ms / 1000)) (Num.parseInt expires) = false
    /\ env !! "PUBLIC_KEY" = Some publicKey /\ truthy publicKey = true
    /\ Crypto.verify P
         (Crypto.createSigningString (Num.parseInt created) (Num.parseInt expires)
            (Crypto.createDigest (Json.stringify (Crypto.body req))))
         signature publicKey = Ok true.

(** A valid context, a callback carrying it, and a store that knows its
    transaction. *)
Definition sample_fields : list (string * json) :=
  [("domain", JStr "ONDC:LOG10"); ("country", JStr "IND"); ("city", JStr "std:011");
   ("action", JStr "on_search"); ("core_version", JStr "1.2.0");
   ("bap_id", JStr "bap.example.com"); ("bap_uri", JStr "http://localhost:3000");
   ("transaction_id", JStr "T1"); ("message_id", JStr "M1");
   ("timestamp", JStr "2024-01-01T00:00:00.000Z")].

Definition sample_context : json := JObj sample_fields.

Definition sample_body : json := JObj [("context", sample_context); ("message", JObj [])].

Definition sample_header : string :=
  match Crypto.createAuthorizationHeader Fixture.sign_primitives fixture_env Fixture.seed1
          1700000000000 (Crypto.BodyObject sample_body) with
  | Ok (_, header) => header
  | Throw _ => ""
  end.

Definition sample_request : Crypto.Request :=
  {| Crypto.authorization := Some sample_header; Crypto.body := sample_body |}.

(** The same callback as Express hands it to a route, and one without a
    header. *)
Definition sample_callback : Callbacks.Request :=
  {| Callbacks.authorization := Some sample_header; Callbacks.body := Some sample_body |}.


Definition sample_store : Store.State :=
  fst (Store.createTransaction Store.initial "T1" "M1" (JObj []) "t0" "t0").

Definition sample_params : Helpers.ContextParams :=
  {| Helpers.action := Some "select";
     Helpers.transactionId := Some "T1";
     Helpers.messageId := None;
     Helpers.bapId := Some "bap.example.com";
     Helpers.bapUri := Some "http://localhost:3000";
     Helpers.bppId := Some "bpp.example.com";
     Helpers.bppUri := None;
     Helpers.domain := None;
     Helpers.country := None;
     Helpers.city := None;
     Helpers.coreVersion := None;
     Helpers.ttl := None |}.

(** The property of the body a route stores beside the context. *)
Definition stored_property (route : Callbacks.Route) : string :=
  match route with
  | Callbacks.OnError => "error"
  | _ => "message"
  end.

Definition is_ack (r : Callbacks.Reply) : bool :=
  match r with
  | Callbacks.Ack _ => true
  | _ => false
  end.

(** One component of a duration text: the decimal text of the count and
    the unit letter, or nothing. *)
Definition component (count : option Z) (unit : string) : string :=
  match count with
  | Some n => Num.to_string (Num.Int n) +:+ unit
  | None => ""
  end.

(** The text of a duration: the marker, then hours, minutes and seconds,
    each optional. *)
Definition duration_text (hours minutes seconds : option Z) : string :=
  "PT" +:+ component hours "H" +:+ component minutes "M" +:+ component seconds "S".

(** A count the code holds exactly: a safe integer that is not negative. *)
Definition count_ok (count : option Z) : Prop :=
  match count with
  | Some n => (0 <= n <= max_safe_integer)%Z
  | None => True
  end.

Definition not_newline (c : ascii) : bool := negb (Ascii.eqb c "010").


(** * Theorems *)

(** ** Base64 *)

Section Base64_facts.

Import Base64.

#[local] Ltac Zify.zify_post_hook ::= Z.to_euclidean_division_equations.

Lemma dec_enc (n : N) : (n < 64)%N -> dec (enc n) = Some n.
Proof.
  intros H.
  destruct n as [|p]; [reflexivity|].
  do 6 (destruct p as [p|p|]; try reflexivity); lia.
Qed.

Lemma enc_not_pad (n : N) : (n < 64)%N -> Ascii.eqb (enc n) pad = false.
Proof.
  intros H. destruct (Ascii.eqb_spec (enc n) pad) as [E|]; [|reflexivity].
  pose proof (dec_enc n H) as D. rewrite E in D. discriminate.
Qed.

Lemma byte_of_N_of_ascii (a : ascii) (n : N) : (n mod 256)%N = N_of_ascii a -> byte_of n = a.
Proof. intros E. unfold byte_of. rewrite E. apply ascii_N_embedding. Qed.

Lemma list_ind3 {A} (P : list A -> Prop) :
  P [] -> (forall a, P [a]) -> (forall a b, P [a; b]) ->
  (forall a b c rest, P rest -> P (a :: b :: c :: rest)) ->
  forall l, P l.
Proof.
  intros H0 H1 H2 H3.
  fix IH 1. intros [|a [|b [|c rest]]].
  - exact H0.
  - apply H1.
  - apply H2.
  - apply H3. apply IH.
Qed.

Lemma encodeBase64_empty (bs : list ascii) : encodeBase64 bs = "" -> bs = [].
Proof. destruct bs as [|a [|b [|c rest]]]; simpl; intros H; congruence. Qed.

Lemma decode_last_group (a b c : ascii) :
  let n := (N_of_ascii a * 65536 + N_of_ascii b * 256 + N_of_ascii c)%N in
  decode_last (enc (n / 262144)) (enc ((n / 4096) mod 64))
              (enc ((n / 64) mod 64)) (enc (n mod 64)) = Ok [a; b; c].
Proof.
  intros n. subst n.
  pose proof (N_ascii_bounded a). pose proof (N_ascii_bounded b).
  pose proof (N_ascii_bounded c).
  unfold decode_last.
  rewrite !dec_enc, !enc_not_pad by lia.
  cbv zeta. f_equal.
  repeat f_equal; apply byte_of_N_of_ascii; lia.
Qed.

Lemma decode_full_group (a b c : ascii) :
  let n := (N_of_ascii a * 65536 + N_of_ascii b * 256 + N_of_ascii c)%N in
  let m := (n / 262144 * 262144 + (n / 4096) mod 64 * 4096 + (n / 64) mod 64 * 64 + n mod 64)%N in
  byte_of (m / 65536) = a /\ byte_of (m / 256) = b /\ byte_of m = c.
Proof.
  intros n m. subst n m.
  pose proof (N_ascii_bounded a). pose proof (N_ascii_bounded b).
  pose proof (N_ascii_bounded c).
  repeat split; apply byte_of_N_of_ascii; lia.
Qed.

(** Decoding what [encodeBase64] produced gives the bytes back. *)
Lemma decodeBase64_encodeBase64 (bs : list ascii) :
  decodeBase64 (encodeBase64 bs) = Ok bs.
Proof.
  induction bs as [|a|a b|a b c rest IH] using list_ind3.
  - reflexivity.
  - pose proof (N_ascii_bounded a).
    cbn [encodeBase64 decodeBase64]. unfold decode_last.
    rewrite !dec_enc by lia. rewrite !Ascii.eqb_refl.
    f_equal. f_equal. apply byte_of_N_of_ascii. lia.
  - pose proof (N_ascii_bounded a). pose proof (N_ascii_bounded b).
    cbn [encodeBase64 decodeBase64]. unfold decode_last.
    rewrite !dec_enc, !enc_not_pad by lia. rewrite !Ascii.eqb_refl.
    cbv zeta. f_equal. repeat f_equal; apply byte_of_N_of_ascii; lia.
  - pose proof (N_ascii_bounded a). pose proof (N_ascii_bounded b).
    pose proof (N_ascii_bounded c).
    cbn [encodeBase64]. cbv zeta.
    set (n := (N_of_ascii a * 65536 + N_of_ascii b * 256 + N_of_ascii c)%N) in *.
    cbn [decodeBase64].
    destruct (encodeBase64 rest) as [|x xs] eqn:E.
    + apply encodeBase64_empty in E. subst rest. apply decode_last_group.
    + rewrite !dec_enc by lia. rewrite IH.
      destruct (decode_full_group a b c) as (Ha & Hb & Hc).
      fold n in Ha, Hb, Hc. cbv zeta. rewrite Ha, Hb, Hc. reflexivity.
Qed.

End Base64_facts.

(** ** Signing and verification *)

Section Fixture_facts.

Import Fixture.

Lemma fit_length (n : nat) (l : list ascii) : length (fit n l) = n.
Proof.
  unfold fit. rewrite length_take, length_app, repeat_length. lia.
Qed.

Lemma fixture_ed25519_contract : ed25519_contract sign_primitives.
Proof.
  split; cbn [sign_primitives Nacl.crypto_sign_keypair Nacl.crypto_sign
              Nacl.crypto_sign_open fst snd].
  - intros seed. apply fit_length.
  - intros seed. rewrite length_app, fit_length. reflexivity.
  - intros msg sk _. apply fit_length.
  - intros seed msg.
    replace (skipn 32 (fit 32 seed ++ fit 32 seed)) with (fit 32 seed).
    + unfold bytes_eqb. apply bool_decide_eq_true. reflexivity.
    + rewrite <- (fit_length 32 seed) at 2. symmetry. apply drop_app_length.
Qed.

End Fixture_facts.

Section Signing.

Import Crypto.

Variable P : Nacl.primitives.
Hypothesis contract : ed25519_contract P.

Lemma sign_generated (message : string) (seed : list ascii) :
  sign P message (privateKey (generateKeyPair P seed))
  = Ok (Base64.encodeBase64
          (Nacl.crypto_sign P (decodeUTF8 message)
             (snd (Nacl.crypto_sign_keypair P seed)))).
Proof.
  unfold sign, generateKeyPair, Nacl.sign_keyPair. cbn [privateKey].
  rewrite decodeBase64_encodeBase64. cbn [mbind result_bind].
  unfold Nacl.sign_detached.
  rewrite (keypair_secret_size P contract). reflexivity.
Qed.

Lemma verify_generated (message : string) (seed : list ascii) :
  verify P message
    (Base64.encodeBase64
       (Nacl.crypto_sign P (decodeUTF8 message) (snd (Nacl.crypto_sign_keypair P seed))))
    (publicKey (generateKeyPair P seed))
  = Ok true.
Proof.
  unfold verify, generateKeyPair, Nacl.sign_keyPair. cbn [publicKey].
  rewrite !decodeBase64_encodeBase64. cbn [mbind result_bind].
  unfold Nacl.sign_detached_verify.
  rewrite (signature_size P contract) by apply (keypair_secret_size P contract).
  rewrite (keypair_public_size P contract).
  cbn [Nat.eqb negb try_catch].
  rewrite (sign_open_correct P contract). reflexivity.
Qed.


(** C1. For every message and every key pair produced by [generateKeyPair],
    [verify(message, sign(message, privateKey), publicKey)] returns [true]. *)
Theorem verify_sign_roundtrip (message : string) (seed : list ascii) :
  let keyPair := generateKeyPair P seed in
  (sign P message (privateKey keyPair)
     ≫= fun signature => verify P message signature (publicKey keyPair))
  = Ok true.
Proof.
  intros keyPair. subst keyPair.
  rewrite sign_generated. cbn [mbind result_bind].
  apply verify_generated.
Qed.

End Signing.

Lemma verify_sign_roundtrip_witness :
  ed25519_contract Fixture.sign_primitives /\
  (Crypto.sign Fixture.sign_primitives "hello"
     (Crypto.privateKey (Crypto.generateKeyPair Fixture.sign_primitives Fixture.seed1))
     ≫= fun signature =>
          Crypto.verify Fixture.sign_primitives "hello" signature
            (Crypto.publicKey (Crypto.generateKeyPair Fixture.sign_primitives Fixture.seed1)))
  = Ok true.
Proof.
  split.
  - exact fixture_ed25519_contract.
  - exact (verify_sign_roundtrip Fixture.sign_primitives fixture_ed25519_contract
             "hello" Fixture.seed1).
Defined.

(** [verify] is total: it returns [true] exactly when both texts decode, the
    sizes are those of a signature and of a public key, and the primitive
    accepts; in every other case, a thrown exception included, it returns
    [false]. *)
Lemma verify_characterised (P : Nacl.primitives) (message signatureBase64 publicKeyBase64 : string) :
  Crypto.verify P message signatureBase64 publicKeyBase64
  = Ok match Base64.decodeBase64 publicKeyBase64, Base64.decodeBase64 signatureBase64 with
       | Ok publicKey, Ok signature =>
           Nat.eqb (length signature) 64 && Nat.eqb (length publicKey) 32
           && Nacl.crypto_sign_open P (Crypto.decodeUTF8 message) signature publicKey
       | _, _ => false
       end.
Proof.
  unfold Crypto.verify, Nacl.sign_detached_verify.
  destruct (Base64.decodeBase64 publicKeyBase64) as [pk|e1]; cbn [mbind result_bind try_catch];
    [|reflexivity].
  destruct (Base64.decodeBase64 signatureBase64) as [sg|e2]; cbn [mbind result_bind try_catch];
    [|reflexivity].
  destruct (Nat.eqb (length sg) 64); cbn [negb andb try_catch]; [|reflexivity].
  destruct (Nat.eqb (length pk) 32); reflexivity.
Qed.

Lemma verify_never_throws (P : Nacl.primitives) (message signatureBase64 publicKeyBase64 : string) :
  returns (Crypto.verify P message signatureBase64 publicKeyBase64).
Proof. rewrite verify_characterised. eexists. reflexivity. Qed.

Lemma verify_malformed_false (P : Nacl.primitives) (message signatureBase64 publicKeyBase64 : string) :
  (forall publicKey, Base64.decodeBase64 publicKeyBase64 = Ok publicKey -> length publicKey <> 32)
  \/ (forall signature, Base64.decodeBase64 signatureBase64 = Ok signature -> length signature <> 64) ->
  Crypto.verify P message signatureBase64 publicKeyBase64 = Ok false.
Proof.
  intros H. rewrite verify_characterised. f_equal.
  destruct (Base64.decodeBase64 publicKeyBase64) as [pk|]; [|reflexivity].
  destruct (Base64.decodeBase64 signatureBase64) as [sg|]; [|reflexivity].
  destruct H as [H|H].
  - specialize (H pk eq_refl). apply Nat.eqb_neq in H. rewrite H.
    rewrite andb_false_r. reflexivity.
  - specialize (H sg eq_refl). apply Nat.eqb_neq in H. rewrite H. reflexivity.
Qed.

(** ** The verifier in development mode *)

(** C10. With [DEV_MODE] equal to [true] every request is accepted, and the
    verdict is the same for any two requests at any two times: nothing of the
    request is read. *)
Theorem dev_mode_accepts_everything (P : Nacl.primitives) (env : Crypto.Env)
    (now1 now2 : Z) (req1 req2 : Crypto.Request) :
  env !! "DEV_MODE" = Some "true" ->
  Crypto.verifyAuthorizationHeader P env now1 req1
  = Ok {| Crypto.valid := true; Crypto.error := None |}
  /\ Crypto.verifyAuthorizationHeader P env now1 req1
     = Crypto.verifyAuthorizationHeader P env now2 req2.
Proof.
  intros H. unfold Crypto.verifyAuthorizationHeader.
  rewrite bool_decide_eq_true_2 by exact H. split; reflexivity.
Qed.

Lemma dev_mode_accepts_everything_witness :
  let env : Crypto.Env := {["DEV_MODE" := "true"]} in
  let absent := {| Crypto.authorization := None; Crypto.body := JNull |} in
  let forged := {| Crypto.authorization := Some "Signature forged"; Crypto.body := JObj [] |} in
  env !! "DEV_MODE" = Some "true"
  /\ Crypto.verifyAuthorizationHeader Fixture.sign_primitives env 0 absent
     = Ok {| Crypto.valid := true; Crypto.error := None |}
  /\ Crypto.verifyAuthorizationHeader Fixture.sign_primitives env 0 absent
     = Crypto.verifyAuthorizationHeader Fixture.sign_primitives env 1700000000000 forged.
Proof.
  intros env absent forged.
  split; [reflexivity|].
  exact (dev_mode_accepts_everything Fixture.sign_primitives env 0 1700000000000
           absent forged eq_refl).
Defined.

(** ** The transaction store *)

Section Store_facts.

Import Store.

Lemma eqb_proto_false (key : string) : key <> "__proto__" -> String.eqb key "__proto__" = false.
Proof. intros H. apply String.eqb_neq. exact H. Qed.

(** Reading back the key just assigned gives the record assigned. *)
Lemma lookup_assign (s : State) (key : string) (t : Transaction) :
  lookup (assign s key t) key
  = TransactionRef (if String.eqb key "__proto__" then Proto else Own key) t.
Proof.
  unfold lookup, assign.
  destruct (String.eqb key "__proto__") eqn:E; cbn [prototype transactions].
  - reflexivity.
  - rewrite lookup_insert_eq. reflexivity.
Qed.

(** Reading the slot just written gives the record written. *)
Lemma lookup_write (s : State) (key : string) (t : Transaction) :
  lookup (write s (if String.eqb key "__proto__" then Proto else Own key) t) key
  = TransactionRef (if String.eqb key "__proto__" then Proto else Own key) t.
Proof.
  unfold lookup.
  destruct (String.eqb key "__proto__") eqn:E; cbn [write prototype transactions].
  - reflexivity.
  - rewrite lookup_insert_eq. reflexivity.
Qed.

Lemma add_data_existing (k : Kind) (s : State) (id : string) (slot : Slot)
    (t : Transaction) (data : json) (now : string) :
  lookup s id = TransactionRef slot t ->
  add_data k s id data now
  = Ok (write s slot (update k data now t), TransactionRef slot (update k data now t)).
Proof. intros H. unfold add_data. rewrite H. reflexivity. Qed.

(** C7. After [createTransaction(T1, messageId, payload)],
    [addCatalogData(T1, a)] and [addCatalogData(T1, b)], [getTransaction(T1)]
    returns the record of [T1] with [catalogs] exactly [a; b], in arrival
    order, and [status] equal to [results_ready]. *)
Theorem two_catalogs_recorded (s : State) (T1 messageId : string) (payload a b : json)
    (t1 t2 n1 n2 : string) :
  let s1 := fst (createTransaction s T1 messageId payload t1 t2) in
  (addCatalogData s1 T1 a n1 ≫= (fun r2 =>
   addCatalogData (fst r2) T1 b n2 ≫= (fun r3 =>
   Ok (getTransaction (fst r3) T1))))
  = Ok (TransactionRef (if String.eqb T1 "__proto__" then Proto else Own T1)
          {| transactionId := T1;
             messageId := messageId;
             status := "results_ready";
             search := payload;
             catalogs := [a; b];
             selections := [];
             initResults := [];
             statusResults := [];
             errors := [];
             createdAt := t1;
             updatedAt := n2 |}).
Proof.
  intros s1. subst s1. unfold createTransaction, addCatalogData. cbn [fst].
  erewrite add_data_existing by apply lookup_assign.
  cbn [mbind result_bind fst].
  erewrite add_data_existing by apply lookup_write.
  cbn [mbind result_bind fst].
  unfold getTransaction. rewrite lookup_write. reflexivity.
Qed.

(** An identifier the object neither owns nor inherits is answered with
    [null] by every [add*] function, and the store is left as it was. *)
Lemma add_data_unknown (k : Kind) (s : State) (id : string) (data : json) (now : string) :
  lookup s id = Undefined ->
  add_data k s id data now = Ok (s, Null).
Proof. intros H. unfold add_data. rewrite H. reflexivity. Qed.

Lemma lookup_fresh_uninherited (s : State) (id : string) :
  prototype s = None ->
  transactions s !! id = None ->
  id <> "__proto__" ->
  id ∉ object_prototype_members ->
  lookup s id = Undefined.
Proof.
  intros Hp Ho Hn Hm. unfold lookup.
  rewrite eqb_proto_false by exact Hn. rewrite Ho, Hp.
  unfold inherited_builtin. rewrite bool_decide_eq_false_2 by exact Hm. reflexivity.
Qed.

(** C8, on the code: [constructor] is not a stored transaction id, yet no
    [add*] function answers [null] for it; each throws a [TypeError]. *)
Theorem add_unknown_inherited_key_throws :
  ("constructor" ∉ getAllTransactionIds initial)
  /\ addCatalogData initial "constructor" (JObj []) "2024-01-01T00:00:00.000Z" = Throw type_error
  /\ addSelectData initial "constructor" (JObj []) "2024-01-01T00:00:00.000Z" = Throw type_error
  /\ addInitData initial "constructor" (JObj []) "2024-01-01T00:00:00.000Z" = Throw type_error
  /\ addStatusData initial "constructor" (JObj []) "2024-01-01T00:00:00.000Z" = Throw type_error
  /\ addErrorData initial "constructor" (JObj []) "2024-01-01T00:00:00.000Z" = Throw type_error.
Proof.
  split.
  - unfold getAllTransactionIds, initial. cbn [transactions]. rewrite dom_empty_L.
    apply not_elem_of_empty.
  - repeat split; reflexivity.
Qed.

End Store_facts.

(** ** The confirm and cancel callbacks *)

Section Routes_facts.

Import Store Routes.

Lemma addConfirmData_not_exported : module_exports !! "addConfirmData" = None.
Proof. reflexivity. Qed.

Lemma addCancelData_not_exported : module_exports !! "addCancelData" = None.
Proof. reflexivity. Qed.

(** No function of the store sets the status to [confirmed] or [cancelled]. *)
Lemma next_status_never_confirmed (k : Kind) :
  next_status k <> Some "confirmed" /\ next_status k <> Some "cancelled".
Proof. destruct k; split; discriminate. Qed.

(** C2, on the code: the store exports neither [addConfirmData] nor
    [addCancelData]; the two callbacks therefore answer NACK 404 for every
    transaction id, a stored one included, and the store is left as it
    was. *)
Theorem confirm_and_cancel_never_stored (s : State) (c : ascii) (rest : string)
    (data : json) (now : string) :
  module_exports !! "addConfirmData" = None
  /\ module_exports !! "addCancelData" = None
  /\ on_confirm s (String c rest) data now
     = Ok (s, Nack "404" "Transaction not found or server error")
  /\ on_cancel s (String c rest) data now
     = Ok (s, Nack "404" "Transaction not found or server error").
Proof. repeat split; reflexivity. Qed.

(** The failing input of C2 run through the model: a stored transaction
    keeps the status [searching] after its confirmation arrives. *)
Example confirm_of_stored_transaction :
  let s1 := fst (createTransaction initial "T1" "M1" (JObj []) "t0" "t0") in
  on_confirm s1 "T1" (JObj []) "t1"
  = Ok (s1, Nack "404" "Transaction not found or server error")
  /\ exists slot t, getTransaction s1 "T1" = TransactionRef slot t /\ status t = "searching".
Proof.
  split; [reflexivity|].
  eexists _, _. split; reflexivity.
Qed.

End Routes_facts.

(** ** The expiry gate *)

Section Expiry.

Import Crypto.

Variable P : Nacl.primitives.

Lemma parse_empty_header : parseAuthorizationHeader "" = ∅.
Proof. reflexivity. Qed.

(** C4, as the code has it.  For a request whose header yields [keyId],
    [signature], [created] and [expires], the last one reading as the
    integer [E]: the verdict is the error [Authorization header expired]
    exactly when [E] is earlier than the current time in seconds, whatever
    the signature, the configured key and the body are; so the request gets
    past the gate only while now <= E. *)
Theorem expired_header_rejected (env : Env) (now_ms : Z) (req : Request)
    (h e : string) (E : Z) :
  env !! "DEV_MODE" <> Some "true" ->
  authorization req = Some h ->
  truthy_opt (parseAuthorizationHeader h !! "keyId") = true ->
  truthy_opt (parseAuthorizationHeader h !! "signature") = true ->
  truthy_opt (parseAuthorizationHeader h !! "created") = true ->
  parseAuthorizationHeader h !! "expires" = Some e ->
  Num.parseInt e = Num.Int E ->
  (verifyAuthorizationHeader P env now_ms req
   = Ok {| valid := false; error := Some "Authorization header expired" |}
   <-> (E < now_ms / 1000)%Z).
Proof.
  intros Hdev Hauth HkeyId Hsig Hcreated Hexpires HE.
  assert (He : truthy e = true).
  { destruct e; [discriminate HE|reflexivity]. }
  assert (Hh : truthy h = true).
  { destruct h; [|reflexivity]. rewrite parse_empty_header in HkeyId. discriminate. }
  unfold verifyAuthorizationHeader.
  rewrite bool_decide_eq_false_2 by exact Hdev.
  rewrite Hauth, Hh. cbn [negb].
  rewrite HkeyId, Hsig, Hcreated, Hexpires. cbn [truthy_opt]. rewrite He.
  cbn [negb orb parseInt_opt]. rewrite HE. cbn [Num.gt].
  destruct (Z.ltb_spec E (now_ms / 1000)) as [Hlt|Hge].
  - cbn [try_catch]. split; [intros _; exact Hlt|reflexivity].
  - split; [|lia]. intros Hv. exfalso.
    destruct (truthy_opt (env !! "PUBLIC_KEY")); cbn [negb] in Hv.
    + rewrite verify_characterised in Hv. cbn [mbind result_bind try_catch] in Hv.
      injection Hv as Hvalid Herror. rewrite Hvalid in Herror. discriminate Herror.
    + discriminate Hv.
Qed.

End Expiry.

Lemma expired_header_rejected_witness :
  let req := {| Crypto.authorization := Some expired_header; Crypto.body := JObj [] |} in
  Crypto.verifyAuthorizationHeader Fixture.sign_primitives ∅ 1700000031000 req
  = Ok {| Crypto.valid := false; Crypto.error := Some "Authorization header expired" |}
  <-> (1700000030 < 1700000031000 / 1000)%Z.
Proof.
  intros req.
  apply (expired_header_rejected Fixture.sign_primitives ∅ 1700000031000 req
           expired_header "1700000030" 1700000030).
  - vm_compute. discriminate.
  - reflexivity.
  - vm_compute. reflexivity.
  - vm_compute. reflexivity.
  - vm_compute. reflexivity.
  - vm_compute. reflexivity.
  - vm_compute. reflexivity.
Defined.

(** C4 as stated fails: a header that carries only an [expires] field, long
    past, is answered [Malformed Authorization header], not
    [Authorization header expired]. *)
Lemma expired_header_counterexample :
  let h := "Signature expires=" +:+ Crypto.dq +:+ "1" +:+ Crypto.dq in
  let req := {| Crypto.authorization := Some h; Crypto.body := JObj [] |} in
  Crypto.parseAuthorizationHeader h !! "expires" = Some "1"
  /\ Num.gt (Num.Int (100000 / 1000)) (Num.parseInt "1") = true
  /\ Crypto.verifyAuthorizationHeader Fixture.sign_primitives ∅ 100000 req
     = Ok {| Crypto.valid := false; Crypto.error := Some "Malformed Authorization header" |}.
Proof. vm_compute. repeat split; reflexivity. Qed.

(** ** The header codec *)

Section Header_codec.

Import Crypto.

Lemma append_cons (c : ascii) (a b : string) : String c a +:+ b = String c (a +:+ b).
Proof. reflexivity. Qed.

Lemma append_empty_l (b : string) : "" +:+ b = b.
Proof. reflexivity. Qed.

Lemma length_append (a b : string) :
  String.length (a +:+ b) = String.length a + String.length b.
Proof. induction a as [|c a IH]; [reflexivity|]. rewrite append_cons. cbn. rewrite IH. reflexivity. Qed.

Lemma append_assoc (a b c : string) : (a +:+ b) +:+ c = a +:+ (b +:+ c).
Proof. induction a as [|x a IH]; [reflexivity|]. rewrite !append_cons, IH. reflexivity. Qed.

Lemma all_chars_append (p : ascii -> bool) (a b : string) :
  all_chars p (a +:+ b) = all_chars p a && all_chars p b.
Proof.
  induction a as [|c a IH]; [reflexivity|].
  rewrite append_cons. cbn. rewrite IH, andb_assoc. reflexivity.
Qed.

Lemma span_all (p : ascii -> bool) (a : string) (c : ascii) (r : string) :
  all_chars p a = true -> p c = false ->
  span p (a +:+ String c r) = (a, String c r).
Proof.
  intros Ha Hc. induction a as [|x a IH].
  - rewrite append_empty_l. cbn. rewrite Hc. reflexivity.
  - cbn in Ha. apply andb_true_iff in Ha as [Hx Ha].
    rewrite append_cons. cbn. rewrite Hx, (IH Ha). reflexivity.
Qed.

Lemma span_decompose (p : ascii -> bool) (s a b : string) :
  span p s = (a, b) -> s = a +:+ b /\ all_chars p a = true.
Proof.
  revert a b. induction s as [|c s IH]; intros a b H; cbn in H.
  - injection H as <- <-. split; reflexivity.
  - destruct (p c) eqn:Hc.
    + destruct (span p s) as [a' b'] eqn:E. injection H as <- <-.
      destruct (IH a' b' eq_refl) as [-> Ha]. split; [reflexivity|].
      cbn. rewrite Hc, Ha. reflexivity.
    + injection H as <- <-. split; reflexivity.
Qed.

(** The pattern matches a well-formed token at the start of a text. *)
Lemma match_here_token (key value rest : string) :
  truthy key = true -> all_chars is_word_char key = true ->
  truthy value = true -> all_chars is_not_quote value = true ->
  match_here (key +:+ String "=" (String Json.dquote (value +:+ String Json.dquote rest)))
  = Some (key, value, rest).
Proof.
  intros Hk Hkw Hv Hvq. unfold match_here.
  rewrite (span_all is_word_char key "=" _ Hkw eq_refl). rewrite Hk.
  rewrite Ascii.eqb_refl.
  rewrite (span_all is_not_quote value Json.dquote rest Hvq eq_refl). rewrite Hv.
  rewrite Ascii.eqb_refl. reflexivity.
Qed.

(** Conversely, a match is such a token: the scanner implements the pattern. *)
Lemma match_here_sound (s key value rest : string) :
  match_here s = Some (key, value, rest) ->
  s = key +:+ String "=" (String Json.dquote (value +:+ String Json.dquote rest))
  /\ truthy key = true /\ all_chars is_word_char key = true
  /\ truthy value = true /\ all_chars is_not_quote value = true.
Proof.
  unfold match_here. intros H.
  destruct (span is_word_char s) as [k r1] eqn:E1.
  destruct (truthy k) eqn:Hk; [|discriminate].
  destruct r1 as [|c1 r1']; [discriminate|].
  destruct c1 as [[] [] [] [] [] [] [] []]; try discriminate H.
  destruct r1' as [|c2 r2]; [discriminate|].
  destruct (Ascii.eqb_spec c2 Json.dquote) as [->|]; [|discriminate].
  destruct (span is_not_quote r2) as [v r3] eqn:E2.
  destruct (truthy v) eqn:Hv; [|discriminate].
  destruct r3 as [|c3 r4]; [discriminate|].
  destruct (Ascii.eqb_spec c3 Json.dquote) as [->|]; [|discriminate].
  injection H as <- <- <-.
  apply span_decompose in E1 as [-> Hkw]. apply span_decompose in E2 as [-> Hvq].
  repeat split; assumption.
Qed.

Lemma match_here_shorter (s key value rest : string) :
  match_here s = Some (key, value, rest) -> String.length rest < String.length s.
Proof.
  intros H. apply match_here_sound in H as (-> & _).
  rewrite length_append. cbn [String.length]. rewrite length_append. cbn [String.length]. lia.
Qed.

(** Once the fuel exceeds the length of the text it no longer matters: the
    loop of [parseAuthorizationHeader] always runs to the end of the header. *)
Lemma exec_loop_fuel (f1 f2 : nat) (s : string) (params : gmap string string) :
  String.length s < f1 -> String.length s < f2 ->
  exec_loop f1 s params = exec_loop f2 s params.
Proof.
  revert f2 s params. induction f1 as [|f1 IH]; intros f2 s params H1 H2; [lia|].
  destruct f2 as [|f2]; [lia|]. cbn [exec_loop].
  destruct (match_here s) as [[[k v] rest]|] eqn:E.
  - apply match_here_shorter in E. apply IH; lia.
  - destruct s as [|c r]; [reflexivity|]. cbn [String.length] in *. apply IH; lia.
Qed.

Lemma scan_match (s key value rest : string) (params : gmap string string) :
  match_here s = Some (key, value, rest) ->
  scan s params = scan rest (set_param key value params).
Proof.
  intros E. unfold scan.
  transitivity (exec_loop (String.length s) rest (set_param key value params)).
  - cbn [exec_loop]. rewrite E. reflexivity.
  - apply match_here_shorter in E. apply exec_loop_fuel; lia.
Qed.

Lemma scan_skip (c : ascii) (r : string) (params : gmap string string) :
  match_here (String c r) = None -> scan (String c r) params = scan r params.
Proof.
  intros E. unfold scan.
  transitivity (exec_loop (String.length (String c r)) r params).
  - cbn [exec_loop]. rewrite E. reflexivity.
  - reflexivity.
Qed.

Lemma scan_end (params : gmap string string) : scan "" params = params.
Proof. reflexivity. Qed.

Lemma match_here_nonword (c : ascii) (r : string) :
  is_word_char c = false -> match_here (String c r) = None.
Proof. intros H. unfold match_here. cbn [span]. rewrite H. reflexivity. Qed.

End Header_codec.

Section Envelope.

Import Crypto.

Lemma scan_token (key value rest : string) (params : gmap string string) :
  truthy key = true -> all_chars is_word_char key = true ->
  String.eqb key "__proto__" = false ->
  quotable value = true ->
  scan (token key value rest) params = scan rest (<[key := value]> params).
Proof.
  intros Hk Hkw Hp Hq. apply andb_true_iff in Hq as [Hv Hvq].
  rewrite (scan_match _ key value rest) by (apply match_here_token; assumption).
  unfold set_param. rewrite Hp. reflexivity.
Qed.

Lemma scan_comma (rest : string) (params : gmap string string) :
  scan (String "," rest) params = scan rest params.
Proof. apply scan_skip. apply match_here_nonword. reflexivity. Qed.

Lemma envelope_text_tokens (keyId algorithm created expires headers signature : string) :
  envelope_text keyId algorithm created expires headers signature
  = signaturePrefix
    +:+ token "keyId" keyId (String "," (token "algorithm" algorithm (String ","
          (token "created" created (String "," (token "expires" expires (String ","
             (token "headers" headers (String "," (token "signature" signature "")))))))))).
Proof.
  reflexivity.
Qed.

(** The codec round trip on envelopes: decoding the wire form recovers the
    six values, and so does decoding it with the prefix cut off. *)
Lemma parse_envelope (keyId algorithm created expires headers signature : string) :
  quotable keyId = true -> quotable algorithm = true -> quotable created = true ->
  quotable expires = true -> quotable headers = true -> quotable signature = true ->
  let header := envelope_text keyId algorithm created expires headers signature in
  parseAuthorizationHeader header
  = envelope_fields keyId algorithm created expires headers signature
  /\ exists content,
       header = signaturePrefix +:+ content
       /\ parseAuthorizationHeader content = parseAuthorizationHeader header.
Proof.
  intros H1 H2 H3 H4 H5 H6 header. subst header.
  rewrite envelope_text_tokens.
  set (content := token "keyId" keyId _).
  assert (Hscan : scan content ∅
                  = envelope_fields keyId algorithm created expires headers signature).
  { subst content.
    rewrite scan_token by first [assumption | reflexivity]. rewrite scan_comma.
    rewrite scan_token by first [assumption | reflexivity]. rewrite scan_comma.
    rewrite scan_token by first [assumption | reflexivity]. rewrite scan_comma.
    rewrite scan_token by first [assumption | reflexivity]. rewrite scan_comma.
    rewrite scan_token by first [assumption | reflexivity]. rewrite scan_comma.
    rewrite scan_token by first [assumption | reflexivity].
    rewrite scan_end. reflexivity. }
  assert (Hwith : parseAuthorizationHeader (signaturePrefix +:+ content) = scan content ∅).
  { unfold parseAuthorizationHeader.
    replace (Json.strip_prefix signaturePrefix (signaturePrefix +:+ content))
      with (Some content) by reflexivity.
    reflexivity. }
  assert (Hwithout : parseAuthorizationHeader content = scan content ∅).
  { unfold parseAuthorizationHeader.
    replace (Json.strip_prefix signaturePrefix content) with (@None string) by reflexivity.
    reflexivity. }
  split.
  - rewrite Hwith. exact Hscan.
  - exists content. split; [reflexivity|]. rewrite Hwith, Hwithout. reflexivity.
Qed.

(** *** The values [createAuthorizationHeader] writes *)

Lemma all_chars_impl (p q : ascii -> bool) (s : string) :
  (forall c, p c = true -> q c = true) -> all_chars p s = true -> all_chars q s = true.
Proof.
  intros Hpq. induction s as [|c s IH]; [reflexivity|]. cbn.
  intros H. apply andb_true_iff in H as [Hc Hs]. rewrite (Hpq c Hc), (IH Hs). reflexivity.
Qed.

Lemma decimal_char_not_quote (c : ascii) : decimal_char c = true -> is_not_quote c = true.
Proof.
  unfold decimal_char, is_not_quote, Num.is_digit. intros H.
  destruct (Ascii.eqb_spec c Json.dquote) as [->|]; [|reflexivity]. discriminate H.
Qed.

Lemma uint_text_decimal (d : Decimal.uint) :
  all_chars decimal_char (NilEmpty.string_of_uint d) = true.
Proof. induction d; cbn; auto. Qed.

Lemma number_text_decimal (z : Z) :
  all_chars decimal_char (Num.to_string (Num.Int z)) = true
  /\ truthy (Num.to_string (Num.Int z)) = true.
Proof.
  unfold Num.to_string, NilZero.string_of_int, NilZero.string_of_uint.
  destruct (Z.to_int z) as [d|d]; destruct d; cbn; (split; [|reflexivity]);
    rewrite ?uint_text_decimal; reflexivity.
Qed.

Lemma number_text_quotable (z : Z) : quotable (Num.to_string (Num.Int z)) = true.
Proof.
  destruct (number_text_decimal z) as [Hd Ht]. unfold quotable. rewrite Ht.
  apply (all_chars_impl _ _ _ decimal_char_not_quote Hd).
Qed.

Lemma enc_not_quote (n : N) : is_not_quote (Base64.enc n) = true.
Proof.
  unfold Base64.enc.
  destruct (nth_in_or_default (N.to_nat n) Base64.alphabet Base64.pad) as [Hin| ->];
    [|reflexivity].
  assert (Hall : forallb is_not_quote Base64.alphabet = true) by reflexivity.
  rewrite forallb_forall in Hall. apply Hall. exact Hin.
Qed.

Lemma base64_text_quotable (bs : list ascii) :
  bs <> [] -> quotable (Base64.encodeBase64 bs) = true.
Proof.
  intros Hne. unfold quotable. apply andb_true_iff. split.
  - destruct bs as [|a [|b [|c rest]]]; [congruence|reflexivity..].
  - clear Hne. induction bs as [|a|a b|a b c rest IH] using list_ind3.
    + reflexivity.
    + cbn [Base64.encodeBase64 all_chars]. rewrite !enc_not_quote. reflexivity.
    + cbn [Base64.encodeBase64 all_chars]. rewrite !enc_not_quote. reflexivity.
    + cbn [Base64.encodeBase64 all_chars]. rewrite !enc_not_quote, IH. reflexivity.
Qed.

Lemma keyId_quotable (subscriberId uniqueKeyId : string) :
  all_chars is_not_quote subscriberId = true ->
  all_chars is_not_quote uniqueKeyId = true ->
  quotable (subscriberId +:+ "|" +:+ uniqueKeyId +:+ "|ed25519") = true.
Proof.
  intros Hs Hu. unfold quotable. apply andb_true_iff. split.
  - destruct subscriberId; reflexivity.
  - rewrite !all_chars_append, Hs, Hu. reflexivity.
Qed.

End Envelope.

Section Header_roundtrip.

Import Crypto.

Variable P : Nacl.primitives.
Hypothesis signature_size :
  forall msg secretKey,
    length secretKey = 64 -> length (Nacl.crypto_sign P msg secretKey) = 64.

Lemma sign_quotable (message key signature : string) :
  sign P message key = Ok signature -> quotable signature = true.
Proof.
  unfold sign. destruct (Base64.decodeBase64 key) as [sk|]; [|discriminate].
  cbn [mbind result_bind]. unfold Nacl.sign_detached.
  destruct (Nat.eqb_spec (length sk) 64) as [Hsk|]; [|discriminate].
  cbn [mbind result_bind]. intros H. injection H as <-.
  apply base64_text_quotable. intros E.
  pose proof (signature_size (decodeUTF8 message) sk Hsk) as L. rewrite E in L. discriminate L.
Qed.

Lemma signed_header_envelope (subscriberId uniqueKeyId key : string) (now_ms : Z)
    (body : Body) (header : string) :
  signed_header P subscriberId uniqueKeyId key now_ms body = Ok header ->
  exists signature,
    sign P (createSigningString (Num.Int (now_ms / 1000)) (Num.Int (now_ms / 1000 + 30))
              (createDigest (body_text body))) key = Ok signature
    /\ quotable signature = true
    /\ header = envelope_text (subscriberId +:+ "|" +:+ uniqueKeyId +:+ "|ed25519") "ed25519"
                  (Num.to_string (Num.Int (now_ms / 1000)))
                  (Num.to_string (Num.Int (now_ms / 1000 + 30)))
                  "(created) (expires) digest" signature.
Proof.
  unfold signed_header. cbv zeta. fold (body_text body).
  match goal with |- context [sign P ?m key] => destruct (sign P m key) as [sg|] eqn:E end;
    [|discriminate].
  cbn [mbind result_bind]. intros H. injection H as <-.
  exists sg. split; [reflexivity|]. split; [exact (sign_quotable _ _ _ E)|].
  unfold envelope_text. rewrite !append_assoc. reflexivity.
Qed.

(** What a successful [createAuthorizationHeader] did: it signed with the
    private key the environment holds afterwards. *)
Lemma createAuthorizationHeader_inv (env : Env) (seed : list ascii) (now_ms : Z)
    (body : Body) (env' : Env) (header : string) :
  createAuthorizationHeader P env seed now_ms body = Ok (env', header) ->
  exists key,
    env' !! "PRIVATE_KEY" = Some key
    /\ signed_header P (or_default (env !! "SUBSCRIBER_ID") "ondc-logistics-bap.example.com")
         (or_default (env !! "UNIQUE_KEY_ID") "k1") key now_ms body = Ok header.
Proof.
  unfold createAuthorizationHeader. cbv zeta.
  match goal with
  | |- match ?e !! "PRIVATE_KEY" with _ => _ end = _ -> _ =>
      set (e1 := e); destruct (e1 !! "PRIVATE_KEY") as [key|] eqn:Ek; [|discriminate]
  end.
  destruct (truthy key); [|discriminate].
  match goal with
  | |- context [signed_header P ?a ?b key now_ms body] =>
      destruct (signed_header P a b key now_ms body) as [h|] eqn:E; [|discriminate]
  end.
  cbn [mbind result_bind]. intros H. injection H as <- <-.
  exists key. split; [exact Ek|exact E].
Qed.

(** Whatever the ids hold, the header starts with the prefix, and the
    parser reads with or without it the same text from the same place. *)
Lemma signed_header_prefix (subscriberId uniqueKeyId key : string) (now_ms : Z)
    (body : Body) (header : string) :
  signed_header P subscriberId uniqueKeyId key now_ms body = Ok header ->
  exists content,
    header = signaturePrefix +:+ content
    /\ parseAuthorizationHeader content = parseAuthorizationHeader header.
Proof.
  unfold signed_header. cbv zeta.
  match goal with |- context [sign P ?m key] => destruct (sign P m key) as [sg|] end;
    [|discriminate].
  cbn [mbind result_bind]. intros H. injection H as <-.
  match goal with
  | |- exists content, "Signature keyId=" +:+ ?rest = _ /\ _ =>
      exists ("keyId=" +:+ rest)
  end.
  split; [reflexivity|].
  unfold parseAuthorizationHeader.
  match goal with
  | |- context [Json.strip_prefix signaturePrefix ("keyId=" +:+ ?rest)] =>
      replace (Json.strip_prefix signaturePrefix ("keyId=" +:+ rest))
        with (@None string) by reflexivity;
      replace (Json.strip_prefix signaturePrefix ("Signature keyId=" +:+ rest))
        with (Some ("keyId=" +:+ rest)) by reflexivity
  end.
  reflexivity.
Qed.

End Header_roundtrip.

(** C6, as the code has it.  For every header [createAuthorizationHeader]
    returns, parsing it with the [Signature ] prefix cut off gives the same
    mapping as parsing it whole.  When moreover neither the subscriber id
    nor the unique key id holds a double quote (and a signature has its 64
    bytes), the header is the wire form of six values and
    [parseAuthorizationHeader] maps the six field names to exactly those
    values. *)
Theorem header_roundtrip (P : Nacl.primitives) (env : Crypto.Env) (seed : list ascii)
    (now_ms : Z) (body : Crypto.Body) (env' : Crypto.Env) (header : string) :
  let subscriberId := or_default (env !! "SUBSCRIBER_ID") "ondc-logistics-bap.example.com" in
  let uniqueKeyId := or_default (env !! "UNIQUE_KEY_ID") "k1" in
  let keyId := subscriberId +:+ "|" +:+ uniqueKeyId +:+ "|ed25519" in
  let created := Num.to_string (Num.Int (now_ms / 1000)) in
  let expires := Num.to_string (Num.Int (now_ms / 1000 + 30)) in
  let headers := "(created) (expires) digest" in
  Crypto.createAuthorizationHeader P env seed now_ms body = Ok (env', header) ->
  (exists content,
     header = Crypto.signaturePrefix +:+ content
     /\ Crypto.parseAuthorizationHeader content = Crypto.parseAuthorizationHeader header)
  /\ ((forall msg secretKey,
         length secretKey = 64 -> length (Nacl.crypto_sign P msg secretKey) = 64) ->
      all_chars Crypto.is_not_quote subscriberId = true ->
      all_chars Crypto.is_not_quote uniqueKeyId = true ->
      exists signature,
        header = envelope_text keyId "ed25519" created expires headers signature
        /\ Crypto.parseAuthorizationHeader header
           = envelope_fields keyId "ed25519" created expires headers signature).
Proof.
  intros subscriberId uniqueKeyId keyId created expires headers H.
  apply createAuthorizationHeader_inv in H as (key & _ & E).
  split; [exact (signed_header_prefix P _ _ _ _ _ _ E)|].
  intros Hsize Hs Hu.
  apply (signed_header_envelope P Hsize) in E as (signature & _ & Hq & ->).
  exists signature. split; [reflexivity|].
  apply parse_envelope; try assumption; try reflexivity.
  - apply keyId_quotable; assumption.
  - apply number_text_quotable.
  - apply number_text_quotable.
Qed.

Lemma header_roundtrip_witness :
  exists env' header,
    Crypto.createAuthorizationHeader Fixture.sign_primitives fixture_env [] 1700000000123
      (Crypto.BodyObject (JObj [("a", JNum 1)])) = Ok (env', header)
    /\ (exists content,
          header = Crypto.signaturePrefix +:+ content
          /\ Crypto.parseAuthorizationHeader content = Crypto.parseAuthorizationHeader header)
    /\ exists signature,
         header = envelope_text "ondc-logistics-bap.example.com|k1|ed25519" "ed25519"
                    "1700000000" "1700000030" "(created) (expires) digest" signature
         /\ Crypto.parseAuthorizationHeader header
            = envelope_fields "ondc-logistics-bap.example.com|k1|ed25519" "ed25519"
                "1700000000" "1700000030" "(created) (expires) digest" signature.
Proof.
  eexists _, _. split; [vm_compute; reflexivity|].
  destruct (header_roundtrip Fixture.sign_primitives fixture_env [] 1700000000123
              (Crypto.BodyObject (JObj [("a", JNum 1)])) _ _ eq_refl) as [Hprefix Hfields].
  split; [exact Hprefix|].
  apply Hfields.
  - exact (signature_size _ fixture_ed25519_contract).
  - vm_compute. reflexivity.
  - vm_compute. reflexivity.
Defined.

(** C6 as stated fails: with a double quote in the subscriber id the header
    carries the key id as written, and the parser binds [keyId] to the part
    before the quote. *)
Lemma header_roundtrip_counterexample :
  let subscriberId := "a" +:+ Crypto.dq +:+ "b" in
  let env := <["SUBSCRIBER_ID" := subscriberId]> fixture_env in
  match Crypto.createAuthorizationHeader Fixture.sign_primitives env [] 1700000000123
          (Crypto.BodyObject (JObj [])) with
  | Ok (_, header) =>
      (exists rest, header = "Signature keyId=" +:+ Crypto.dq
                             +:+ (subscriberId +:+ "|k1|ed25519") +:+ Crypto.dq +:+ rest)
      /\ Crypto.parseAuthorizationHeader header !! "keyId" = Some "a"
      /\ "a" <> subscriberId +:+ "|k1|ed25519"
  | Throw _ => False
  end.
Proof.
  vm_compute. split; [eexists; reflexivity|]. split; [reflexivity|discriminate].
Qed.

(** ** Decimal text of integers *)

Section Number_text.

Lemma skip_whitespace_decimal (c : ascii) (r : string) :
  decimal_char c = true -> Num.skip_whitespace (String c r) = String c r.
Proof.
  intros H.
  destruct c as [[] [] [] [] [] [] [] []]; try discriminate H;
    destruct r as [|c2 [|c3 r3]]; reflexivity.
Qed.

Lemma digits_value_pos (d : Decimal.uint) (acc : positive) :
  Num.digits_value (NilEmpty.string_of_uint d) (Z.pos acc) = Z.pos (Pos.of_uint_acc d acc).
Proof.
  revert acc. induction d; intros acc; cbn [NilEmpty.string_of_uint Num.digits_value Pos.of_uint_acc];
    [reflexivity|..];
    (replace (Num.is_digit _) with true by reflexivity);
    rewrite <- IHd; f_equal; unfold Num.digit_value; cbn; lia.
Qed.

Lemma digits_value_uint (d : Decimal.uint) :
  Num.digits_value (NilEmpty.string_of_uint d) 0 = Z.of_N (Pos.of_uint d).
Proof.
  induction d; cbn [NilEmpty.string_of_uint Num.digits_value Pos.of_uint];
    [reflexivity|..];
    (replace (Num.is_digit _) with true by reflexivity).
  - exact IHd.
  - apply (digits_value_pos d 1).
  - apply (digits_value_pos d 2).
  - apply (digits_value_pos d 3).
  - apply (digits_value_pos d 4).
  - apply (digits_value_pos d 5).
  - apply (digits_value_pos d 6).
  - apply (digits_value_pos d 7).
  - apply (digits_value_pos d 8).
  - apply (digits_value_pos d 9).
Qed.

Lemma uint_text_starts_with_digit (d : Decimal.uint) :
  exists c r, NilZero.string_of_uint d = String c r /\ Num.is_digit c = true.
Proof.
  destruct d; cbn; eexists _, _; split; reflexivity.
Qed.

Lemma nilzero_digits_value (d : Decimal.uint) :
  Num.digits_value (NilZero.string_of_uint d) 0 = Z.of_uint d.
Proof.
  unfold Z.of_uint. rewrite <- digits_value_uint.
  destruct d; reflexivity.
Qed.

Lemma parseInt_uint_text (d : Decimal.uint) :
  Num.parseInt (NilZero.string_of_uint d) = Num.Int (Z.of_uint d).
Proof.
  destruct (uint_text_starts_with_digit d) as (c & r & E & Hc).
  unfold Num.parseInt. rewrite E.
  rewrite skip_whitespace_decimal by (unfold decimal_char; rewrite Hc; reflexivity).
  assert (Hsign : c <> "-"%char /\ c <> "+"%char).
  { split; intros ->; discriminate Hc. }
  destruct Hsign as [Hm Hp].
  replace (match String c r with
           | String "-" r0 => (true, r0)
           | String "+" r0 => (false, r0)
           | _ => (false, String c r)
           end) with (false, String c r).
  - cbn [Num.starts_with_digit]. rewrite Hc. rewrite <- E, nilzero_digits_value. reflexivity.
  - destruct c as [[] [] [] [] [] [] [] []]; try reflexivity; congruence.
Qed.

(** [parseInt] reads back the decimal text of an integer. *)
Lemma parseInt_to_string (z : Z) : Num.parseInt (Num.to_string (Num.Int z)) = Num.Int z.
Proof.
  rewrite <- (DecimalZ.of_to z) at 2.
  unfold Num.to_string, NilZero.string_of_int.
  destruct (Z.to_int z) as [d|d].
  - apply parseInt_uint_text.
  - destruct (uint_text_starts_with_digit d) as (c & r & E & Hc).
    unfold Num.parseInt.
    rewrite skip_whitespace_decimal by reflexivity.
    rewrite E. cbn [Num.starts_with_digit]. rewrite Hc.
    rewrite <- E, nilzero_digits_value. reflexivity.
Qed.

End Number_text.

(** ** [JSON.parse] reads back what [JSON.stringify] writes *)

Section Json_roundtrip.

Import Json.


Lemma append_empty_r (a : string) : a +:+ "" = a.
Proof. induction a as [|c a IH]; [reflexivity|]. rewrite append_cons, IH. reflexivity. Qed.






Lemma uint_text_digits (d : Decimal.uint) :
  all_chars Num.is_digit (NilEmpty.string_of_uint d) = true.
Proof. induction d; cbn; auto. Qed.


























End Json_roundtrip.

(** ** What the digest is computed over *)

Section Digest.

Import Crypto.

Variable P : Nacl.primitives.
Hypothesis contract : ed25519_contract P.

Lemma quotable_truthy (s : string) : quotable s = true -> truthy s = true.
Proof. unfold quotable. intros H. apply andb_true_iff in H as [H _]. exact H. Qed.




End Digest.




(** ** The subscription handshake *)

Section Fixture_handshake.

Import Fixture.

Lemma xor_bytes_comm (a b : list ascii) : xor_bytes a b = xor_bytes b a.
Proof.
  unfold xor_bytes. revert b. induction a as [|x a IH]; intros [|y b]; cbn; try reflexivity.
  rewrite N.lxor_comm. f_equal. apply IH.
Qed.

Lemma xor_bytes_length (a b : list ascii) :
  length a = 32 -> length b = 32 -> length (xor_bytes a b) = 32.
Proof.
  intros Ha Hb. unfold xor_bytes.
  rewrite length_map, length_combine, Ha, Hb. reflexivity.
Qed.

Lemma fixture_handshake_contract : handshake_contract box_primitives.
Proof.
  split; cbn [box_primitives Challenge.box_keypair Challenge.box_beforenm
              Challenge.aes256ecb_encrypt Challenge.aes256ecb_decrypt fst snd].
  - intros seed. apply fit_length.
  - intros seed. apply fit_length.
  - apply xor_bytes_length.
  - intros seedA seedB. apply xor_bytes_comm.
  - intros key plaintext Hk. rewrite <- Hk.
    rewrite take_app_length, drop_app_length.
    unfold bytes_eqb. rewrite bool_decide_eq_true_2 by reflexivity. reflexivity.
Qed.

End Fixture_handshake.

Section Handshake.

Import Challenge.

Variable P : primitives.
Hypothesis contract : handshake_contract P.

Lemma encryptChallenge_generated (challenge : string) (seedA seedB : list ascii) :
  encryptChallenge P challenge (privateKey (generateEncryptionKeyPair P seedA))
                               (publicKey (generateEncryptionKeyPair P seedB))
  = Ok (Base64.encodeBase64
          (aes256ecb_encrypt P
             (box_beforenm P (fst (box_keypair P seedB)) (snd (box_keypair P seedA)))
             (list_ascii_of_string challenge))).
Proof.
  unfold encryptChallenge, generateEncryptionKeyPair. cbn [privateKey publicKey].
  rewrite !decodeBase64_encodeBase64. cbn [mbind result_bind].
  unfold box_before.
  rewrite (box_public_size P contract), (box_secret_size P contract).
  cbn [Nat.eqb negb mbind result_bind]. unfold cipher_key.
  rewrite (box_shared_size P contract)
    by (apply (box_public_size P contract) || apply (box_secret_size P contract)).
  reflexivity.
Qed.

Lemma decrypt_steps_generated (plaintext : list ascii) (seedA seedB : list ascii) :
  decrypt_steps P
    (Base64.encodeBase64
       (aes256ecb_encrypt P
          (box_beforenm P (fst (box_keypair P seedA)) (snd (box_keypair P seedB)))
          plaintext))
    (publicKey (generateEncryptionKeyPair P seedA))
    (privateKey (generateEncryptionKeyPair P seedB))
  = Ok (string_of_list_ascii plaintext).
Proof.
  unfold decrypt_steps, generateEncryptionKeyPair. cbn [privateKey publicKey].
  rewrite !decodeBase64_encodeBase64. cbn [mbind result_bind].
  unfold box_before.
  rewrite (box_public_size P contract), (box_secret_size P contract).
  cbn [Nat.eqb negb mbind result_bind]. unfold cipher_key.
  assert (L : length (box_beforenm P (fst (box_keypair P seedA)) (snd (box_keypair P seedB))) = 32).
  { apply (box_shared_size P contract);
      [apply (box_public_size P contract) | apply (box_secret_size P contract)]. }
  rewrite L. cbn [Nat.eqb mbind result_bind].
  rewrite (aes_decrypt_encrypt P contract) by exact L. reflexivity.
Qed.

(** Whatever the three texts are, [decryptChallenge] returns: the plaintext
    when every step succeeds, the failure value when one throws. *)
Lemma decryptChallenge_characterised (encryptedBase64 counterpartyPublicKey ownPrivateKey : string) :
  decryptChallenge P encryptedBase64 counterpartyPublicKey ownPrivateKey
  = Ok match decrypt_steps P encryptedBase64 counterpartyPublicKey ownPrivateKey with
       | Ok plaintext => Some plaintext
       | Throw _ => None
       end.
Proof.
  unfold decryptChallenge.
  destruct (decrypt_steps P encryptedBase64 counterpartyPublicKey ownPrivateKey); reflexivity.
Qed.

(** C9. A challenge encrypted under the shared key of the counterparty's
    private key and this node's public key decrypts to the original
    plaintext; and for every input the result is a value, the plaintext or
    the failure value, never a thrown exception: a step that throws (a text
    that is not base64, a key of the wrong size, a ciphertext the cipher
    rejects) gives the failure value. *)
Theorem challenge_roundtrip (plaintext : string) (seedA seedB : list ascii) :
  let counterparty := generateEncryptionKeyPair P seedA in
  let own := generateEncryptionKeyPair P seedB in
  (encryptChallenge P plaintext (privateKey counterparty) (publicKey own)
     ≫= fun encrypted => decryptChallenge P encrypted (publicKey counterparty) (privateKey own))
  = Ok (Some plaintext)
  /\ (forall encrypted publicKey privateKey,
        returns (decryptChallenge P encrypted publicKey privateKey))
  /\ (forall encrypted publicKey privateKey e,
        decrypt_steps P encrypted publicKey privateKey = Throw e ->
        decryptChallenge P encrypted publicKey privateKey = Ok None).
Proof.
  intros counterparty own. subst counterparty own. split; [|split].
  - rewrite encryptChallenge_generated. cbn [mbind result_bind].
    rewrite decryptChallenge_characterised.
    rewrite (box_agreement P contract), decrypt_steps_generated.
    rewrite string_of_list_ascii_of_string. reflexivity.
  - intros. rewrite decryptChallenge_characterised. eexists. reflexivity.
  - intros encrypted pk sk e H. rewrite decryptChallenge_characterised, H. reflexivity.
Qed.

Lemma decrypt_steps_malformed_ciphertext (encrypted publicKey privateKey e : string) :
  Base64.decodeBase64 encrypted = Throw e ->
  exists e', decrypt_steps P encrypted publicKey privateKey = Throw e'.
Proof.
  intros H. unfold decrypt_steps.
  destruct (Base64.decodeBase64 publicKey); cbn [mbind result_bind]; [|eauto].
  destruct (Base64.decodeBase64 privateKey); cbn [mbind result_bind]; [|eauto].
  destruct (box_before P _ _); cbn [mbind result_bind]; [|eauto].
  destruct (cipher_key _); cbn [mbind result_bind]; [|eauto].
  rewrite H. cbn [mbind result_bind]. eauto.
Qed.

End Handshake.

Lemma challenge_roundtrip_witness :
  handshake_contract Fixture.box_primitives
  /\ (Challenge.encryptChallenge Fixture.box_primitives "test-challenge-string-123"
        (Challenge.privateKey (Challenge.generateEncryptionKeyPair Fixture.box_primitives Fixture.seed1))
        (Challenge.publicKey (Challenge.generateEncryptionKeyPair Fixture.box_primitives Fixture.seed2))
      ≫= fun encrypted =>
           Challenge.decryptChallenge Fixture.box_primitives encrypted
             (Challenge.publicKey (Challenge.generateEncryptionKeyPair Fixture.box_primitives Fixture.seed1))
             (Challenge.privateKey (Challenge.generateEncryptionKeyPair Fixture.box_primitives Fixture.seed2)))
     = Ok (Some "test-challenge-string-123").
Proof.
  split.
  - exact fixture_handshake_contract.
  - exact (proj1 (challenge_roundtrip Fixture.box_primitives fixture_handshake_contract
                    "test-challenge-string-123" Fixture.seed1 Fixture.seed2)).
Defined.

(** ** Further facts about the store and the verifier *)

Section More_facts.

Import Store.

Lemma inherited_field_other (t : Transaction) (id : string) :
  id ∉ record_members -> inherited_field t id = inherited_builtin id.
Proof.
  intros H. unfold inherited_field.
  repeat match goal with
         | |- context [String.eqb id ?name] =>
             destruct (String.eqb_spec id name) as [->|_];
               [exfalso; apply H; unfold record_members; set_solver|]
         end.
  reflexivity.
Qed.

(** An identifier that is neither stored nor inherited, be it from
    [Object.prototype] or from a record installed as the prototype of the
    map, is answered with [null] by every [add*] function, and the store,
    the set of stored ids included, is left as it was. *)
Lemma add_unknown_returns_null (k : Kind) (s : State) (id : string) (data : json)
    (now : string) :
  transactions s !! id = None ->
  id <> "__proto__" ->
  id ∉ object_prototype_members ->
  (prototype s = None \/ id ∉ record_members) ->
  add_data k s id data now = Ok (s, Null).
Proof.
  intros Ho Hn Hm Hp. apply add_data_unknown.
  unfold lookup. rewrite eqb_proto_false by exact Hn. rewrite Ho.
  assert (Hb : inherited_builtin id = Undefined).
  { unfold inherited_builtin. rewrite bool_decide_eq_false_2 by exact Hm. reflexivity. }
  destruct (prototype s) as [t|] eqn:Ep; [|exact Hb].
  destruct Hp as [Hp|Hp]; [discriminate Hp|].
  rewrite (inherited_field_other t id Hp). exact Hb.
Qed.

(** [createTransaction] on an id already stored replaces the record, and the
    lookup by that id still succeeds. *)
Lemma createTransaction_overwrites (s : State) (id m1 m2 : string) (p1 p2 : json)
    (a1 a2 b1 b2 : string) :
  let s1 := fst (createTransaction s id m1 p1 a1 a2) in
  let s2 := fst (createTransaction s1 id m2 p2 b1 b2) in
  getTransaction s2 id
  = TransactionRef (if String.eqb id "__proto__" then Proto else Own id)
      {| transactionId := id; messageId := m2; status := "searching"; search := p2;
         catalogs := []; selections := []; initResults := []; statusResults := [];
         errors := []; createdAt := b1; updatedAt := b2 |}.
Proof.
  intros s1 s2. subst s1 s2. unfold createTransaction, getTransaction. cbn [fst].
  rewrite lookup_assign. reflexivity.
Qed.

(** [addStatusData] appends and leaves the status alone; [addErrorData]
    sets the status [error] and keeps everything received before. *)
Lemma status_and_error_updates (s : State) (id : string) (slot : Slot) (t : Transaction)
    (data : json) (now : string) :
  lookup s id = TransactionRef slot t ->
  (exists t', addStatusData s id data now = Ok (write s slot t', TransactionRef slot t')
              /\ status t' = status t /\ statusResults t' = statusResults t ++ [data])
  /\ (exists t', addErrorData s id data now = Ok (write s slot t', TransactionRef slot t')
                 /\ status t' = "error" /\ errors t' = errors t ++ [data]
                 /\ catalogs t' = catalogs t /\ selections t' = selections t
                 /\ initResults t' = initResults t /\ statusResults t' = statusResults t).
Proof.
  intros H. split; eexists; (split; [apply add_data_existing; exact H|]);
    repeat split; reflexivity.
Qed.

End More_facts.

Lemma add_unknown_returns_null_witness :
  let s := fst (Store.createTransaction Store.initial "__proto__" "M1" (JObj []) "t0" "t0") in
  Store.prototype s <> None
  /\ Store.addCatalogData s "T9" (JObj []) "t" = Ok (s, Store.Null).
Proof.
  intros s. split; [discriminate|].
  apply (add_unknown_returns_null Store.Catalog s "T9" (JObj []) "t").
  - reflexivity.
  - discriminate.
  - unfold Store.object_prototype_members. intros H.
    repeat (apply elem_of_cons in H as [H|H]; [discriminate H|]).
    apply elem_of_nil in H. exact H.
  - right. unfold record_members. intros H.
    repeat (apply elem_of_cons in H as [H|H]; [discriminate H|]).
    apply elem_of_nil in H. exact H.
Defined.

Lemma status_and_error_updates_witness :
  let s1 := fst (Store.createTransaction Store.initial "T1" "M1" (JObj []) "t0" "t0") in
  exists t', Store.addStatusData s1 "T1" (JNum 1) "t1"
             = Ok (Store.write s1 (Store.Own "T1") t', Store.TransactionRef (Store.Own "T1") t')
             /\ Store.status t' = "searching".
Proof.
  intros s1.
  destruct (proj1 (status_and_error_updates s1 "T1" (Store.Own "T1")
                     {| Store.transactionId := "T1"; Store.messageId := "M1";
                        Store.status := "searching"; Store.search := JObj [];
                        Store.catalogs := []; Store.selections := [];
                        Store.initResults := []; Store.statusResults := [];
                        Store.errors := []; Store.createdAt := "t0";
                        Store.updatedAt := "t0" |} (JNum 1) "t1" eq_refl))
    as (t' & H1 & H2 & _).
  exists t'. split; assumption.
Defined.

Lemma verify_malformed_false_witness :
  Crypto.verify Fixture.sign_primitives "message" "AAAA" "not base64!" = Ok false.
Proof.
  apply (verify_malformed_false Fixture.sign_primitives "message" "AAAA" "not base64!").
  left. intros publicKey H. vm_compute in H. discriminate H.
Defined.

(** Test vectors of the digest: SHA-256 of the empty text and of [abc]. *)
Example sha256_empty :
  Base64.encodeBase64 (Sha256.sha256 []) = "47DEQpj8HBSa+/TImW+5JCeuQeRkm5NMpJWZG3hSuFU=".
Proof. vm_compute. reflexivity. Qed.

Example sha256_abc :
  Base64.encodeBase64 (Sha256.sha256 (list_ascii_of_string "abc"))
  = "ungWv48Bz+pBQUDeXa4iI7ADYaOWF3qctBD/YfIAFa0=".
Proof. vm_compute. reflexivity. Qed.

(** The callback of C8 run through the route: the handler throws instead of
    answering NACK 404. *)
Example on_search_inherited_key :
  Routes.on_search Store.initial "constructor" (JObj []) "t" = Throw Store.type_error.
Proof. reflexivity. Qed.

(** The digest carries the label [BLAKE-512] and holds the base64 text of a
    SHA-256 hash. *)
Example createDigest_abc :
  Crypto.createDigest "abc" = "BLAKE-512=ungWv48Bz+pBQUDeXa4iI7ADYaOWF3qctBD/YfIAFa0=".
Proof. vm_compute. reflexivity. Qed.

(** [verify] returns a boolean for every input, and [true] only for a
    well-formed signature and key that the primitive accepts. *)
Theorem verify_total (P : Nacl.primitives) (message signatureBase64 publicKeyBase64 : string) :
  exists b,
    Crypto.verify P message signatureBase64 publicKeyBase64 = Ok b
    /\ (b = true <->
        exists publicKey signature,
          Base64.decodeBase64 publicKeyBase64 = Ok publicKey
          /\ Base64.decodeBase64 signatureBase64 = Ok signature
          /\ length signature = 64 /\ length publicKey = 32
          /\ Nacl.crypto_sign_open P (Crypto.decodeUTF8 message) signature publicKey = true).
Proof.
  eexists. split; [apply verify_characterised|].
  destruct (Base64.decodeBase64 publicKeyBase64) as [pk|e1].
  - destruct (Base64.decodeBase64 signatureBase64) as [sg|e2].
    + split.
      * intros H. apply andb_true_iff in H as [H H3]. apply andb_true_iff in H as [H1 H2].
        apply Nat.eqb_eq in H1, H2. exists pk, sg. repeat split; assumption.
      * intros (pk' & sg' & E1 & E2 & H1 & H2 & H3).
        injection E1 as <-. injection E2 as <-.
        apply Nat.eqb_eq in H1, H2. rewrite H1, H2, H3. reflexivity.
    + split; [discriminate|]. intros (pk' & sg' & _ & E2 & _). discriminate E2.
  - split; [discriminate|]. intros (pk' & sg' & E1 & _). discriminate E1.
Qed.

(** The loop of [parseAuthorizationHeader] runs to the end of every header:
    a larger step bound gives the same mapping. *)
Theorem header_scan_terminates (header : string) (extra : nat) :
  let content := default header (Json.strip_prefix Crypto.signaturePrefix header) in
  Crypto.parseAuthorizationHeader header
  = Crypto.exec_loop (S (String.length content) + extra) content ∅.
Proof.
  intros content. subst content. unfold Crypto.parseAuthorizationHeader.
  destruct (Json.strip_prefix Crypto.signaturePrefix header) as [c|];
    cbn [default from_option]; unfold id; apply exec_loop_fuel; lia.
Qed.

(** * Further properties of the code *)

(** ** The store: what a call leaves alone *)

Section Store_frame.

Import Store.

(** A record read from the store sits under the key it was read by, or is
    the prototype read through [__proto__]. *)
Lemma lookup_ref_inv (s : State) (id : string) (slot : Slot) (t : Transaction) :
  lookup s id = TransactionRef slot t ->
  (slot = Own id /\ id <> "__proto__" /\ transactions s !! id = Some t)
  \/ (slot = Proto /\ id = "__proto__" /\ prototype s = Some t).
Proof.
  unfold lookup. destruct (String.eqb_spec id "__proto__") as [E|E].
  - destruct (prototype s) as [p|]; intros H; [|discriminate H].
    injection H as <- <-. right. auto.
  - destruct (transactions s !! id) as [t0|] eqn:Ht.
    + intros H. injection H as <- <-. left. auto.
    + destruct (prototype s) as [p|]; unfold inherited_field, inherited_builtin;
        repeat case_match; discriminate.
Qed.

(** The three ways an [add*] call returns. *)
Lemma add_data_inv (k : Kind) (s s' : State) (id : string) (data : json) (now : string)
    (v : Value) :
  add_data k s id data now = Ok (s', v) ->
  (s' = s /\ v = Null)
  \/ (exists slot t, lookup s id = TransactionRef slot t
        /\ s' = write s slot (update k data now t)
        /\ v = TransactionRef slot (update k data now t))
  \/ (exists fields fields' p, lookup s id = JsonValue (JObj fields)
        /\ prototype s = Some p
        /\ s' = {| transactions := transactions s;
                   prototype := Some (with_search p (JObj fields')) |}
        /\ v = JsonValue (JObj fields')).
Proof.
  unfold add_data. destruct (falsy (lookup s id)) eqn:F.
  - intros H. injection H as <- <-. left. auto.
  - destruct (lookup s id) as [| |slot t|name|str|items|j] eqn:L; try discriminate.
    + intros H. injection H as <- <-. right. left. exists slot, t. auto.
    + destruct j as [| | | | |fields]; try discriminate.
      destruct (update_json k data now fields) as [fields'|]; [|discriminate].
      destruct (prototype s) as [p|] eqn:Hp; [|discriminate].
      intros H. injection H as <- <-. right. right. exists fields, fields', p. auto.
Qed.

Lemma inherited_field_with_search (p : Transaction) (j : json) (key : string) :
  key <> "search" -> inherited_field (with_search p j) key = inherited_field p key.
Proof.
  intros H. unfold inherited_field.
  apply String.eqb_neq in H. rewrite H. reflexivity.
Qed.

Lemma lookup_json_inv (s : State) (id : string) (j : json) :
  lookup s id = JsonValue j -> id = "search" /\ transactions s !! id = None.
Proof.
  unfold lookup. destruct (String.eqb_spec id "__proto__") as [E|E].
  - destruct (prototype s); discriminate.
  - destruct (transactions s !! id); [discriminate|].
    destruct (prototype s) as [p|]; unfold inherited_field, inherited_builtin.
    + destruct (String.eqb_spec id "search") as [E'|E']; [intros _; auto|].
      repeat case_match; discriminate.
    + case_match; discriminate.
Qed.

(** No [add*] call, whatever it returns, adds an id to the store or removes
    one: [getAllTransactionIds] answers the same before and after. *)
Theorem add_keeps_the_ids (k : Kind) (s s' : State) (id : string) (data : json)
    (now : string) (v : Value) :
  add_data k s id data now = Ok (s', v) ->
  getAllTransactionIds s' = getAllTransactionIds s.
Proof.
  intros H. apply add_data_inv in H as [[-> _]|[(slot & t & L & -> & _)|(f & f' & p & _ & _ & -> & _)]].
  - reflexivity.
  - apply lookup_ref_inv in L as [(-> & _ & Ht)|(-> & _ & _)]; unfold getAllTransactionIds;
      cbn [write transactions]; [|reflexivity].
    apply dom_insert_lookup_L. rewrite Ht. eauto.
  - reflexivity.
Qed.

(** An [add*] call for one id leaves what [getTransaction] answers for
    every other id as it was (the key [__proto__] apart, which names the
    prototype of the map and not an entry). *)
Theorem add_leaves_other_ids (k : Kind) (s s' : State) (id other : string) (data : json)
    (now : string) (v : Value) :
  add_data k s id data now = Ok (s', v) ->
  id <> "__proto__" -> other <> "__proto__" -> other <> id ->
  getTransaction s' other = getTransaction s other.
Proof.
  intros H Hid Ho Hne.
  apply add_data_inv in H as [[-> _]|[(slot & t & L & -> & _)|(f & f' & p & L & Hp & -> & _)]].
  - reflexivity.
  - apply lookup_ref_inv in L as [(-> & _ & Ht)|(_ & E & _)]; [|contradiction].
    unfold getTransaction, lookup. cbn [write transactions prototype].
    rewrite lookup_insert_ne by congruence. reflexivity.
  - apply lookup_json_inv in L as [-> _].
    unfold getTransaction, lookup. cbn [transactions prototype].
    rewrite Hp, inherited_field_with_search by exact Hne.
    rewrite eqb_proto_false by exact Ho. reflexivity.
Qed.

(** [createTransaction] makes its id one of the stored ids, and leaves what
    [getTransaction] answers for every other id as it was.  The id
    [__proto__] is the exception: the record becomes the prototype of the
    map, and the set of stored ids does not change. *)
Theorem createTransaction_registers (s : State) (id messageId other : string)
    (payload : json) (t1 t2 : string) :
  let s' := fst (createTransaction s id messageId payload t1 t2) in
  (id <> "__proto__" ->
   getAllTransactionIds s' = {[ id ]} ∪ getAllTransactionIds s
   /\ (other <> id -> getTransaction s' other = getTransaction s other))
  /\ (id = "__proto__" ->
      getAllTransactionIds s' = getAllTransactionIds s
      /\ exists t, getTransaction s' id = TransactionRef Proto t /\ transactionId t = id).
Proof.
  intros s'. subst s'. unfold createTransaction. cbn [fst]. split.
  - intros Hid. unfold assign. rewrite eqb_proto_false by exact Hid. split.
    + unfold getAllTransactionIds. cbn [transactions]. apply dom_insert_L.
    + intros Hne. unfold getTransaction, lookup. cbn [transactions prototype].
      rewrite lookup_insert_ne by congruence. reflexivity.
  - intros ->. split; [reflexivity|]. eexists. split; reflexivity.
Qed.

Lemma received_update (k k' : Kind) (data : json) (now : string) (t : Transaction) :
  received k (update k' data now t)
  = received k t ++ (if same_kind k' k then [data] else []).
Proof. destruct k, k'; cbn; rewrite ?app_nil_r; reflexivity. Qed.

Lemma lookup_write_slot (s : State) (id : string) (slot : Slot) (t t' : Transaction) :
  lookup s id = TransactionRef slot t ->
  lookup (write s slot t') id = TransactionRef slot t'.
Proof.
  intros L. apply lookup_ref_inv in L as [(-> & Hid & _)|(-> & -> & _)].
  - unfold lookup. rewrite eqb_proto_false by exact Hid.
    cbn [write transactions]. rewrite lookup_insert_eq. reflexivity.
  - reflexivity.
Qed.

Lemma add_each_received (calls : list (Kind * json * string)) (s : State) (id : string)
    (slot : Slot) (t : Transaction) :
  lookup s id = TransactionRef slot t ->
  exists s' t',
    add_each s id calls = Ok s'
    /\ lookup s' id = TransactionRef slot t'
    /\ (forall k, received k t' = received k t ++ payloads_of k calls)
    /\ transactionId t' = transactionId t /\ messageId t' = messageId t
    /\ search t' = search t /\ createdAt t' = createdAt t.
Proof.
  revert s t. induction calls as [|[[k data] now] rest IH]; intros s t L.
  - exists s, t. cbn. repeat split; try assumption; try reflexivity.
    intros k. cbn. rewrite app_nil_r. reflexivity.
  - cbn [add_each]. rewrite (add_data_existing k s id slot t data now L).
    cbn [mbind result_bind fst].
    destruct (IH _ _ (lookup_write_slot s id slot t (update k data now t) L))
      as (s' & t' & E & L' & R & H1 & H2 & H3 & H4).
    exists s', t'. split; [exact E|]. split; [exact L'|]. split; [|auto].
    intros k0. rewrite R, received_update, <- app_assoc. f_equal.
    cbn [payloads_of]. destruct (same_kind k k0); reflexivity.
Qed.

(** Any run of [add*] calls for a stored transaction succeeds, and
    afterwards each of the five lists holds what it held before followed
    by the payloads of its own kind in arrival order; calls of different
    kinds do not disturb each other, and the identifiers, the search
    payload and the creation time stay as they were. *)
Theorem callbacks_kept_in_arrival_order (calls : list (Kind * json * string)) (s : State)
    (id : string) (slot : Slot) (t : Transaction) :
  lookup s id = TransactionRef slot t ->
  exists s' t',
    add_each s id calls = Ok s'
    /\ getTransaction s' id = TransactionRef slot t'
    /\ (forall k, received k t' = received k t ++ payloads_of k calls)
    /\ transactionId t' = transactionId t /\ messageId t' = messageId t
    /\ search t' = search t /\ createdAt t' = createdAt t.
Proof.
  intros L. destruct (add_each_received calls s id slot t L) as (s' & t' & E & L' & R).
  exists s', t'. split; [exact E|]. split; [|exact R].
  unfold getTransaction. rewrite L'. reflexivity.
Qed.

End Store_frame.

Lemma add_keeps_the_ids_witness :
  let s := fst (Store.createTransaction Store.initial "T1" "M1" (JObj []) "t0" "t0") in
  exists s' v, Store.add_data Store.Select s "T1" (JNum 1) "t1" = Ok (s', v)
               /\ Store.getAllTransactionIds s' = Store.getAllTransactionIds s.
Proof.
  intros s. eexists. eexists. split; [reflexivity|].
  eapply (add_keeps_the_ids Store.Select s _ "T1" (JNum 1) "t1"). reflexivity.
Defined.

Lemma add_leaves_other_ids_witness :
  let s0 := fst (Store.createTransaction Store.initial "T1" "M1" (JObj []) "t0" "t0") in
  let s := fst (Store.createTransaction s0 "T2" "M2" (JObj []) "t0" "t0") in
  exists s' v, Store.add_data Store.Catalog s "T1" (JNum 1) "t1" = Ok (s', v)
               /\ Store.getTransaction s' "T2" = Store.getTransaction s "T2".
Proof.
  intros s0 s. eexists. eexists. split; [reflexivity|].
  eapply (add_leaves_other_ids Store.Catalog s _ "T1" "T2" (JNum 1) "t1");
    [reflexivity|discriminate|discriminate|discriminate].
Defined.

Lemma callbacks_kept_in_arrival_order_witness :
  let s := fst (Store.createTransaction Store.initial "T1" "M1" (JObj []) "t0" "t0") in
  exists s' t',
    add_each s "T1" [(Store.Catalog, JNum 1, "t1"); (Store.Select, JNum 2, "t2");
                     (Store.Catalog, JNum 3, "t3")] = Ok s'
    /\ Store.getTransaction s' "T1" = Store.TransactionRef (Store.Own "T1") t'
    /\ Store.catalogs t' = [JNum 1; JNum 3].
Proof.
  intros s.
  destruct (callbacks_kept_in_arrival_order
              [(Store.Catalog, JNum 1, "t1"); (Store.Select, JNum 2, "t2");
               (Store.Catalog, JNum 3, "t3")] s "T1" (Store.Own "T1")
              {| Store.transactionId := "T1"; Store.messageId := "M1";
                 Store.status := "searching"; Store.search := JObj [];
                 Store.catalogs := []; Store.selections := [];
                 Store.initResults := []; Store.statusResults := [];
                 Store.errors := []; Store.createdAt := "t0";
                 Store.updatedAt := "t0" |} eq_refl)
    as (s' & t' & E & G & R & _).
  exists s', t'. split; [exact E|]. split; [exact G|]. exact (R Store.Catalog).
Defined.

(** ** The header grammar: what the loop accepts and what it records *)

Section Header_fields.

Import Crypto.

Lemma scan_separator (sep rest : string) (params : gmap string string) :
  separator sep = true -> scan (sep +:+ rest) params = scan rest params.
Proof.
  induction sep as [|c sep IH]; intros H; [reflexivity|].
  cbn in H. apply andb_true_iff in H as [Hc H].
  rewrite append_cons, scan_skip.
  - apply IH. exact H.
  - apply match_here_nonword. apply negb_true_iff. exact Hc.
Qed.

Lemma scan_fields (fields : list (string * string * string)) (tail : string)
    (params : gmap string string) :
  forallb field_ok fields = true -> separator tail = true ->
  scan (fields_text fields tail) params = bind_fields fields params.
Proof.
  revert params. induction fields as [|[[sep k] v] rest IH]; intros params H Ht.
  - cbn [fields_text bind_fields fold_left].
    rewrite <- (append_empty_r tail), scan_separator by exact Ht. apply scan_end.
  - cbn [forallb] in H. apply andb_true_iff in H as [Hf H].
    unfold field_ok in Hf. cbn [fst snd] in Hf.
    apply andb_true_iff in Hf as [Hf Hq]. apply andb_true_iff in Hf as [Hs Hn].
    unfold field_name in Hn. apply andb_true_iff in Hn as [Hn Hp].
    apply andb_true_iff in Hn as [Hk Hw]. apply negb_true_iff in Hp.
    cbn [fields_text bind_fields fold_left fst snd].
    rewrite scan_separator by exact Hs.
    rewrite scan_token by assumption.
    apply IH; assumption.
Qed.

(** A header of any number of fields, in any order, with any text free of
    word characters (spaces, commas, line breaks) before, between and after
    them, is decoded to its fields; a field given twice takes its last value. *)
Theorem header_fields_decoded (fields : list (string * string * string)) (tail : string) :
  forallb field_ok fields = true -> separator tail = true ->
  parseAuthorizationHeader (signaturePrefix +:+ fields_text fields tail)
  = bind_fields fields ∅.
Proof.
  intros H Ht. unfold parseAuthorizationHeader.
  replace (Json.strip_prefix signaturePrefix (signaturePrefix +:+ fields_text fields tail))
    with (Some (fields_text fields tail)) by reflexivity.
  apply (scan_fields fields tail ∅ H Ht).
Qed.

Lemma exec_loop_recorded (fuel : nat) (s : string) (params : gmap string string) :
  recorded params -> recorded (exec_loop fuel s params).
Proof.
  revert s params. induction fuel as [|fuel IH]; intros s params H; [exact H|].
  cbn [exec_loop]. destruct (match_here s) as [[[key value] rest]|] eqn:E.
  - apply IH. apply match_here_sound in E as (_ & Hk & Hw & Hv & Hq).
    unfold set_param. destruct (String.eqb key "__proto__") eqn:Ep; [exact H|].
    intros k v Hl. destruct (decide (k = key)) as [->|Hne].
    + rewrite lookup_insert_eq in Hl. injection Hl as <-.
      unfold field_name, quotable. rewrite Hk, Hw, Hv, Hq, Ep. auto.
    + rewrite lookup_insert_ne in Hl by congruence. apply H. exact Hl.
  - destruct s as [|c r]; [exact H|]. apply IH. exact H.
Qed.

(** Whatever the header, every field [parseAuthorizationHeader] returns has
    a name made of word characters and a value that is not empty and holds
    no double quote: a field of the result is never an empty text. *)
Theorem parsed_fields_wellformed (header k v : string) :
  parseAuthorizationHeader header !! k = Some v ->
  field_name k = true /\ quotable v = true /\ truthy v = true.
Proof.
  intros H. unfold parseAuthorizationHeader in H.
  apply exec_loop_recorded in H.
  - destruct H as [Hk Hq]. repeat split; try assumption.
    unfold quotable in Hq. apply andb_true_iff in Hq as [Hv _]. exact Hv.
  - intros k' v' Hl. rewrite lookup_empty in Hl. discriminate Hl.
Qed.

End Header_fields.

Lemma header_fields_decoded_witness :
  Crypto.parseAuthorizationHeader
    (Crypto.signaturePrefix
     +:+ fields_text [("", "created", "1"); (" , ", "expires", "31"); (" ", "created", "2")] " ")
  = <["created" := "2"]> (<["expires" := "31"]> (<["created" := "1"]> ∅)).
Proof.
  apply (header_fields_decoded
           [("", "created", "1"); (" , ", "expires", "31"); (" ", "created", "2")] " ");
    reflexivity.
Defined.

Lemma parsed_fields_wellformed_witness :
  field_name "expires" = true /\ quotable "1700000030" = true /\ truthy "1700000030" = true.
Proof.
  apply (parsed_fields_wellformed expired_header "expires" "1700000030").
  vm_compute. reflexivity.
Defined.

(** ** The verifier: its verdicts *)

Section Verdicts.

Import Crypto.

Lemma parsed_recorded (header : string) : recorded (parseAuthorizationHeader header).
Proof.
  unfold parseAuthorizationHeader. apply exec_loop_recorded.
  intros k v Hl. rewrite lookup_empty in Hl. discriminate Hl.
Qed.

Lemma parsed_truthy (header k v : string) :
  parseAuthorizationHeader header !! k = Some v -> truthy v = true.
Proof.
  intros H. apply parsed_recorded in H as [_ Hq].
  unfold quotable in Hq. apply andb_true_iff in Hq as [Hv _]. exact Hv.
Qed.

(** On a request with a body the verifier returns a verdict with one of
    five messages. *)
Lemma verdict_with_body (P : Nacl.primitives) (env : Env) (now_ms : Z) (req : Request) :
  exists v,
    verifyAuthorizationHeader P env now_ms req = Ok v
    /\ (valid v = true <-> error v = None)
    /\ In (error v)
         [None; Some "Missing Authorization header"; Some "Malformed Authorization header";
          Some "Authorization header expired";
          Some "No public key configured for verification"; Some "Invalid signature"].
Proof.
  unfold verifyAuthorizationHeader.
  destruct (bool_decide (env !! "DEV_MODE" = Some "true")).
  { eexists. split; [reflexivity|]. cbn. split; [tauto|]. auto. }
  destruct (authorization req) as [h|].
  2:{ eexists. split; [reflexivity|]. cbn. split; [split; discriminate|]. auto. }
  destruct (truthy h); cbn [negb].
  2:{ eexists. split; [reflexivity|]. cbn. split; [split; discriminate|]. auto. }
  destruct (_ || _).
  { eexists. split; [reflexivity|]. cbn. split; [split; discriminate|]. auto. }
  destruct (Num.gt _ _).
  { eexists. split; [reflexivity|]. cbn. split; [split; discriminate|]. auto. }
  destruct (negb (truthy_opt (env !! "PUBLIC_KEY"))).
  { eexists. split; [reflexivity|]. cbn. split; [split; discriminate|]. auto 6. }
  rewrite verify_characterised.
  generalize (match Base64.decodeBase64 (default "" (env !! "PUBLIC_KEY")) with
              | Ok publicKey =>
                  match Base64.decodeBase64
                          (default "" (parseAuthorizationHeader h !! "signature")) with
                  | Ok signature =>
                      Nat.eqb (length signature) 64 && Nat.eqb (length publicKey) 32
                      && Nacl.crypto_sign_open P
                           (decodeUTF8
                              (createSigningString
                                 (parseInt_opt (parseAuthorizationHeader h !! "created"))
                                 (parseInt_opt (parseAuthorizationHeader h !! "expires"))
                                 (createDigest (Json.stringify (body req)))))
                           signature publicKey
                  | Throw _ => false
                  end
              | Throw _ => false
              end).
  intros b. cbn [mbind result_bind try_catch]. destruct b.
  - eexists. split; [reflexivity|]. cbn. split; [tauto|]. auto.
  - eexists. split; [reflexivity|]. cbn. split; [split; discriminate|]. auto 7.
Qed.

(** [verifyAuthorizationHeader] returns a verdict for every request, one
    whose body no parser has set included, and never throws; the verdict
    carries an error message exactly when it is not valid.  The message is
    one of five fixed texts or the [Verification failed] text of the catch
    branch, and the catch branch is reached only when the body is
    [undefined]: with a body, nothing inside the [try] throws. *)
Theorem verdict_is_closed (P : Nacl.primitives) (env : Env) (now_ms : Z)
    (req : Callbacks.Request) :
  exists v,
    Callbacks.verifyAuthorizationHeader P env now_ms req = Ok v
    /\ (valid v = true <-> error v = None)
    /\ In (error v)
         [None; Some "Missing Authorization header"; Some "Malformed Authorization header";
          Some "Authorization header expired";
          Some "No public key configured for verification"; Some "Invalid signature";
          Some ("Verification failed: " +:+ Callbacks.digest_type_error)]
    /\ (error v = Some ("Verification failed: " +:+ Callbacks.digest_type_error) ->
        Callbacks.body req = None).
Proof.
  unfold Callbacks.verifyAuthorizationHeader.
  destruct (Callbacks.body req) as [b|].
  - destruct (verdict_with_body P env now_ms
                {| authorization := Callbacks.authorization req; body := b |})
      as (v & Hv & Hiff & Hin).
    exists v. split; [exact Hv|]. split; [exact Hiff|].
    cbn [In] in Hin. split.
    + cbn [In]. tauto.
    + intros E. rewrite E in Hin.
      destruct Hin as [H|[H|[H|[H|[H|[H|[]]]]]]]; discriminate H.
  - destruct (bool_decide (env !! "DEV_MODE" = Some "true")).
    { eexists. split; [reflexivity|]. cbn. split; [tauto|]. split; [auto|discriminate]. }
    destruct (Callbacks.authorization req) as [h|].
    2:{ eexists. split; [reflexivity|]. cbn. split; [split; discriminate|].
        split; [auto|reflexivity]. }
    destruct (truthy h); cbn [negb].
    2:{ eexists. split; [reflexivity|]. cbn. split; [split; discriminate|].
        split; [auto|reflexivity]. }
    destruct (_ || _).
    { eexists. split; [reflexivity|]. cbn. split; [split; discriminate|].
      split; [auto|reflexivity]. }
    destruct (Num.gt _ _).
    { eexists. split; [reflexivity|]. cbn. split; [split; discriminate|].
      split; [auto|reflexivity]. }
    destruct (negb (truthy_opt (env !! "PUBLIC_KEY"))).
    { eexists. split; [reflexivity|]. cbn. split; [split; discriminate|].
      split; [auto 6|reflexivity]. }
    eexists. split; [reflexivity|]. cbn [valid error try_catch].
    split; [split; discriminate|]. split; [|reflexivity].
    cbn [In]. do 6 right. left. reflexivity.
Qed.

Lemma accepted_is_signed (P : Nacl.primitives) (env : Env) (now_ms : Z) (req : Request)
    (v : Verdict) :
  env !! "DEV_MODE" <> Some "true" ->
  verifyAuthorizationHeader P env now_ms req = Ok v -> valid v = true ->
  signed_request P env now_ms req.
Proof.
  unfold signed_request.
  intros Hdev H Hv. unfold verifyAuthorizationHeader in H.
  rewrite bool_decide_eq_false_2 in H by exact Hdev.
  destruct (authorization req) as [h|]; [|injection H as <-; discriminate Hv].
  destruct (truthy h); cbn [negb] in H; [|injection H as <-; discriminate Hv].
  destruct (parseAuthorizationHeader h !! "keyId") as [keyId|] eqn:E1;
    [|injection H as <-; discriminate Hv].
  destruct (parseAuthorizationHeader h !! "signature") as [sg|] eqn:E2;
    [|cbn in H; rewrite ?orb_true_r in H; injection H as <-; discriminate Hv].
  destruct (parseAuthorizationHeader h !! "created") as [cr|] eqn:E3;
    [|cbn in H; rewrite ?orb_true_r in H; injection H as <-; discriminate Hv].
  destruct (parseAuthorizationHeader h !! "expires") as [ex|] eqn:E4;
    [|cbn in H; rewrite ?orb_true_r in H; injection H as <-; discriminate Hv].
  cbn [truthy_opt parseInt_opt default from_option] in H. unfold id in H.
  rewrite (parsed_truthy h _ _ E1), (parsed_truthy h _ _ E2),
    (parsed_truthy h _ _ E3), (parsed_truthy h _ _ E4) in H. cbn [negb orb] in H.
  destruct (Num.gt _ _) eqn:G; [injection H as <-; discriminate Hv|].
  destruct (env !! "PUBLIC_KEY") as [pk|] eqn:Epk;
    [|cbn in H; injection H as <-; discriminate Hv].
  cbn [truthy_opt negb default from_option] in H. unfold id in H.
  destruct (truthy pk) eqn:Tpk; cbn [negb] in H; [|injection H as <-; discriminate Hv].
  destruct (verify P _ sg pk) as [b|e] eqn:V; cbn [mbind result_bind try_catch] in H.
  - injection H as <-. cbn [valid] in Hv. subst b.
    exists h, keyId, sg, cr, ex, pk. repeat split; assumption.
  - injection H as <-. discriminate Hv.
Qed.

(** Outside development mode a request is accepted exactly when its header
    carries the four fields [keyId], [signature], [created] and [expires],
    the clock is not past [expires], a public key is configured, and the
    signature verifies under that key over the signing string rebuilt from
    the header's two times and the digest of the body as received. *)
Theorem verdict_accepts_iff (P : Nacl.primitives) (env : Env) (now_ms : Z) (req : Request) :
  env !! "DEV_MODE" <> Some "true" ->
  (exists v, verifyAuthorizationHeader P env now_ms req = Ok v /\ valid v = true)
  <-> signed_request P env now_ms req.
Proof.
  intros Hdev. split.
  - intros (v & H & Hv). exact (accepted_is_signed P env now_ms req v Hdev H Hv).
  - unfold signed_request, verifyAuthorizationHeader.
    rewrite bool_decide_eq_false_2 by exact Hdev.
    intros (h & keyId & sg & cr & ex & pk & -> & E1 & E2 & E3 & E4 & G & Epk & Tpk & V).
    assert (Th : truthy h = true).
    { destruct h; [|reflexivity]. rewrite parse_empty_header, lookup_empty in E1.
      discriminate E1. }
    rewrite Th. cbn [negb]. rewrite E1, E2, E3, E4, Epk.
    cbn [truthy_opt parseInt_opt default from_option]. unfold id.
    rewrite (parsed_truthy h _ _ E1), (parsed_truthy h _ _ E2),
      (parsed_truthy h _ _ E3), (parsed_truthy h _ _ E4), Tpk, G, V.
    cbn. eexists. split; reflexivity.
Qed.

End Verdicts.

Lemma verdict_accepts_iff_witness :
  let req := {| Crypto.authorization := Some expired_header; Crypto.body := JObj [] |} in
  (exists v, Crypto.verifyAuthorizationHeader Fixture.sign_primitives fixture_env
               1700000000000 req = Ok v /\ Crypto.valid v = true)
  <-> signed_request Fixture.sign_primitives fixture_env 1700000000000 req.
Proof.
  intros req.
  apply (verdict_accepts_iff Fixture.sign_primitives fixture_env 1700000000000 req).
  vm_compute. discriminate.
Defined.

(** ** Signing: what a signature covers, and the key it is made with *)

Section Signing_string.

Import Crypto.

Lemma append_cancel_l (p x y : string) : p +:+ x = p +:+ y -> x = y.
Proof.
  induction p as [|c p IH]; intros H; [exact H|].
  rewrite !append_cons in H. injection H as H. apply IH. exact H.
Qed.

(** A text is cut at its first line break in one way only. *)
Lemma first_line_unique (a a' x x' : string) :
  all_chars not_newline a = true -> all_chars not_newline a' = true ->
  a +:+ String "010" x = a' +:+ String "010" x' -> a = a' /\ x = x'.
Proof.
  revert a'. induction a as [|c a IH]; intros [|c' a'] Ha Ha' H.
  - rewrite !append_empty_l in H. injection H as ->. auto.
  - rewrite append_empty_l, append_cons in H. injection H as <- _.
    cbn in Ha'. discriminate Ha'.
  - rewrite append_empty_l, append_cons in H. injection H as -> _.
    cbn in Ha. discriminate Ha.
  - rewrite !append_cons in H. injection H as -> H.
    cbn in Ha, Ha'. apply andb_true_iff in Ha as [_ Ha]. apply andb_true_iff in Ha' as [_ Ha'].
    destruct (IH a' Ha Ha' H) as [-> ->]. auto.
Qed.

Lemma number_text_one_line (n : Num.number) : all_chars not_newline (Num.to_string n) = true.
Proof.
  destruct n as [|z]; [reflexivity|].
  destruct (number_text_decimal z) as [H _].
  apply (all_chars_impl decimal_char); [|exact H].
  intros c Hc. unfold not_newline. destruct (Ascii.eqb_spec c "010") as [->|]; [|reflexivity].
  discriminate Hc.
Qed.

Lemma number_text_injective (a b : Num.number) : Num.to_string a = Num.to_string b -> a = b.
Proof.
  intros H. apply (f_equal Num.parseInt) in H.
  destruct a as [|x], b as [|y]; rewrite ?parseInt_to_string in H;
    first [exact H | reflexivity | discriminate H].
Qed.

(** The signing string determines the creation time, the expiry time and
    the digest it was built from: two requests that differ in any of the
    three are signed over different texts. *)
Theorem signing_string_injective (created expires created' expires' : Num.number)
    (digest digest' : string) :
  createSigningString created expires digest = createSigningString created' expires' digest' ->
  created = created' /\ expires = expires' /\ digest = digest'.
Proof.
  unfold createSigningString. intros H.
  apply append_cancel_l in H.
  change newline with (String "010" "") in H. rewrite !append_cons, !append_empty_l in H.
  apply first_line_unique in H as [Hc H]; try apply number_text_one_line.
  injection H as H.
  apply first_line_unique in H as [He H]; try apply number_text_one_line.
  injection H as H.
  apply number_text_injective in Hc, He. auto.
Qed.

End Signing_string.

Section Key_provision.

Import Crypto.

Variable P : Nacl.primitives.
Hypothesis contract : ed25519_contract P.

Lemma privateKey_truthy (seed : list ascii) :
  truthy (privateKey (generateKeyPair P seed)) = true.
Proof.
  apply quotable_truthy, base64_text_quotable. intros E.
  pose proof (keypair_secret_size P contract seed) as H.
  unfold Nacl.sign_keyPair in E. rewrite E in H. discriminate H.
Qed.

(** With a private key configured, [createAuthorizationHeader] leaves the
    environment as it is.  With none (or an empty one) it always returns a
    header: it generates a pair, stores the private key and replaces
    whatever [PUBLIC_KEY] held by the generated public key. *)
Theorem header_key_provision (env : Env) (seed : list ascii) (now_ms : Z) (body : Body) :
  (truthy_opt (env !! "PRIVATE_KEY") = true ->
   forall env' header,
     createAuthorizationHeader P env seed now_ms body = Ok (env', header) -> env' = env)
  /\ (truthy_opt (env !! "PRIVATE_KEY") = false ->
      exists header,
        createAuthorizationHeader P env seed now_ms body
        = Ok (<["PUBLIC_KEY" := publicKey (generateKeyPair P seed)]>
                (<["PRIVATE_KEY" := privateKey (generateKeyPair P seed)]> env), header)).
Proof.
  unfold createAuthorizationHeader. split; intros Hk; rewrite Hk.
  - intros env' header. destruct (env !! "PRIVATE_KEY") as [key|]; [|discriminate].
    destruct (truthy key); [|discriminate].
    destruct (signed_header _ _ _ _ _ _); [|discriminate].
    cbn [mbind result_bind]. intros H. injection H as <- _. reflexivity.
  - cbv zeta. rewrite lookup_insert_ne by discriminate. rewrite lookup_insert_eq.
    rewrite privateKey_truthy.
    unfold signed_header. cbv zeta. rewrite (sign_generated P contract).
    cbn [mbind result_bind]. eexists. reflexivity.
Qed.

End Key_provision.

Section Bad_key.

Import Crypto.

(** A configured private key that is not the base64 text of 64 bytes makes
    [createAuthorizationHeader] throw, whatever the body: nothing around the
    call catches the exception of the decoder or of the signing routine. *)
Theorem malformed_private_key_throws (P : Nacl.primitives) (env : Env) (seed : list ascii)
    (now_ms : Z) (body : Body) (key : string) :
  env !! "PRIVATE_KEY" = Some key -> truthy key = true ->
  (forall bytes, Base64.decodeBase64 key = Ok bytes -> length bytes <> 64) ->
  exists message, createAuthorizationHeader P env seed now_ms body = Throw message.
Proof.
  intros Hk Ht Hbad. unfold createAuthorizationHeader.
  rewrite Hk. cbn [truthy_opt]. rewrite Ht, Hk, Ht.
  unfold signed_header, sign. cbv zeta.
  destruct (Base64.decodeBase64 key) as [bytes|e] eqn:E; cbn [mbind result_bind].
  - unfold Nacl.sign_detached. specialize (Hbad bytes eq_refl).
    apply Nat.eqb_neq in Hbad. rewrite Hbad. cbn. eexists. reflexivity.
  - eexists. reflexivity.
Qed.

End Bad_key.

Lemma signing_string_injective_witness :
  Num.Int 1 = Num.Int 1 /\ Num.Int 31 = Num.Int 31 /\ "d" = "d".
Proof.
  apply (signing_string_injective (Num.Int 1) (Num.Int 31) (Num.Int 1) (Num.Int 31) "d" "d").
  reflexivity.
Defined.

Lemma header_key_provision_witness :
  exists header,
    Crypto.createAuthorizationHeader Fixture.sign_primitives ∅ Fixture.seed1 1700000000000
      (Crypto.BodyString "{}")
    = Ok (<["PUBLIC_KEY" :=
                Crypto.publicKey (Crypto.generateKeyPair Fixture.sign_primitives Fixture.seed1)]>
            (<["PRIVATE_KEY" :=
                 Crypto.privateKey (Crypto.generateKeyPair Fixture.sign_primitives Fixture.seed1)]>
               ∅), header).
Proof.
  apply (proj2 (header_key_provision Fixture.sign_primitives fixture_ed25519_contract
                  ∅ Fixture.seed1 1700000000000 (Crypto.BodyString "{}"))).
  reflexivity.
Defined.

Lemma malformed_private_key_throws_witness :
  exists message,
    Crypto.createAuthorizationHeader Fixture.sign_primitives (<["PRIVATE_KEY" := "AAAA"]> ∅)
      Fixture.seed1 1700000000000 (Crypto.BodyString "{}") = Throw message.
Proof.
  apply (malformed_private_key_throws Fixture.sign_primitives (<["PRIVATE_KEY" := "AAAA"]> ∅)
           Fixture.seed1 1700000000000 (Crypto.BodyString "{}") "AAAA").
  - reflexivity.
  - reflexivity.
  - intros bytes H. vm_compute in H. injection H as <-. discriminate.
Defined.

(** ** Contexts: validation, construction and the replies *)

Section Object_properties.

Lemma obj_get_replace_field (k k' : string) (v : json) (fs fs' : list (string * json)) :
  Json.replace_field k' v fs = Some fs' ->
  Json.obj_get k fs' = if String.eqb k k' then Some v else Json.obj_get k fs.
Proof.
  revert fs'. induction fs as [|[k0 v0] fs IH]; intros fs' H; [discriminate H|].
  cbn [Json.replace_field] in H. destruct (String.eqb_spec k' k0) as [<-|Hne].
  - injection H as <-. cbn [Json.obj_get]. destruct (String.eqb k k'); reflexivity.
  - destruct (Json.replace_field k' v fs) as [rest|]; [|discriminate H].
    injection H as <-. cbn [Json.obj_get]. rewrite (IH rest eq_refl).
    destruct (String.eqb_spec k k0) as [->|]; [|reflexivity].
    destruct (String.eqb_spec k0 k'); [congruence|reflexivity].
Qed.

Lemma replace_field_none (k : string) (v : json) (fs : list (string * json)) :
  Json.replace_field k v fs = None -> Json.obj_get k fs = None.
Proof.
  induction fs as [|[k0 v0] fs IH]; [reflexivity|]. cbn [Json.replace_field Json.obj_get].
  destruct (String.eqb k k0); [discriminate|].
  destruct (Json.replace_field k v fs); [discriminate|]. intros _. apply IH. reflexivity.
Qed.

Lemma obj_get_insert_index (i : N) (k k' : string) (v : json) (fs : list (string * json)) :
  Json.obj_get k' fs = None ->
  Json.obj_get k (Json.insert_index i k' v fs)
  = if String.eqb k k' then Some v else Json.obj_get k fs.
Proof.
  induction fs as [|[k0 v0] fs IH]; intros H.
  - cbn. destruct (String.eqb k k'); reflexivity.
  - cbn [Json.obj_get] in H. destruct (String.eqb_spec k' k0) as [|Hne]; [discriminate H|].
    cbn [Json.insert_index].
    destruct (Json.canonical_index k0) as [i'|]; [destruct (i <? i')%N|].
    + cbn [Json.obj_get]. destruct (String.eqb k k'); reflexivity.
    + cbn [Json.obj_get]. rewrite (IH H).
      destruct (String.eqb_spec k k0) as [->|]; [|reflexivity].
      destruct (String.eqb_spec k0 k'); [congruence|reflexivity].
    + cbn [Json.obj_get]. destruct (String.eqb k k'); reflexivity.
Qed.

Lemma obj_get_app (k : string) (a b : list (string * json)) :
  Json.obj_get k (a ++ b)
  = match Json.obj_get k a with Some v => Some v | None => Json.obj_get k b end.
Proof.
  induction a as [|[k0 v0] a IH]; [reflexivity|]. cbn [app Json.obj_get].
  destruct (String.eqb k k0); [reflexivity|exact IH].
Qed.

(** Reading a property after an assignment: the value assigned under the
    key assigned, what was there under every other key. *)
Lemma obj_get_obj_set (k k' : string) (v : json) (fs : list (string * json)) :
  Json.obj_get k (Json.obj_set k' v fs)
  = if String.eqb k k' then Some v else Json.obj_get k fs.
Proof.
  unfold Json.obj_set. destruct (Json.replace_field k' v fs) as [fs'|] eqn:E.
  - apply obj_get_replace_field. exact E.
  - apply replace_field_none in E.
    destruct (Json.canonical_index k') as [i|].
    + apply obj_get_insert_index. exact E.
    + rewrite obj_get_app. cbn [Json.obj_get].
      destruct (String.eqb_spec k k') as [->|].
      * rewrite E. reflexivity.
      * destruct (Json.obj_get k fs); reflexivity.
Qed.

End Object_properties.

Section Validation.

Import Helpers.

Lemma missing_nil (context : json) (names : list string) :
  flat_map
    (fun name =>
       if truthy_value (property context name) then []
       else ["Missing required field: context." +:+ name]) names = []
  <-> Forall (fun name => truthy_value (property context name) = true) names.
Proof.
  induction names as [|n names IH]; cbn [flat_map].
  - split; [constructor|reflexivity].
  - destruct (truthy_value (property context n)) eqn:E.
    + rewrite app_nil_l, IH. split; [intros H; constructor; assumption|].
      intros H. inversion H. assumption.
    + split; [discriminate|]. intros H. inversion H. congruence.
Qed.

Lemma unexpected_nil (context : json) (name label expected : string) :
  truthy_value (property context name) = true ->
  (unexpected context name label expected = Ok []
   <-> property context name = Some (JStr expected)).
Proof.
  unfold unexpected, truthy_value. destruct (property context name) as [v|]; [|discriminate].
  intros Hv. rewrite Hv. cbn [andb]. unfold differs_from.
  destruct v as [|b|z|s|items|fields];
    try (split; [|intros H; discriminate H];
         destruct (to_js_string _); cbn [mbind result_bind]; discriminate).
  destruct (String.eqb_spec s expected) as [->|Hne]; cbn [negb].
  - split; reflexivity.
  - split; [discriminate|]. intros H. congruence.
Qed.

Lemma validateContext_shape (context : json) (v : Validation) :
  validateContext context = Ok v ->
  exists domainErrors versionErrors,
    unexpected context "domain" "domain" "ONDC:LOG10" = Ok domainErrors
    /\ unexpected context "core_version" "core_version" "1.2.0" = Ok versionErrors
    /\ valid v = Nat.eqb (length (errors v)) 0
    /\ errors v = missing_fields context ++ domainErrors ++ versionErrors.
Proof.
  intros H.
  assert (H' : (domainErrors ← unexpected context "domain" "domain" "ONDC:LOG10";
                versionErrors ← unexpected context "core_version" "core_version" "1.2.0";
                let errors := missing_fields context ++ domainErrors ++ versionErrors in
                Ok {| valid := Nat.eqb (length errors) 0; errors := errors |}) = Ok v).
  { destruct context; try discriminate H; exact H. }
  clear H.
  destruct (unexpected context "domain" "domain" "ONDC:LOG10") as [d|]; [|discriminate H'].
  destruct (unexpected context "core_version" "core_version" "1.2.0") as [c|];
    [|discriminate H'].
  cbn [mbind result_bind] in H'. injection H' as <-.
  exists d, c. repeat split; reflexivity.
Qed.

Lemma validateContext_valid_iff (context : json) (v : Validation) :
  validateContext context = Ok v ->
  (valid v = true
   <-> Forall (fun name => truthy_value (property context name) = true) required
       /\ property context "domain" = Some (JStr "ONDC:LOG10")
       /\ property context "core_version" = Some (JStr "1.2.0")).
Proof.
  intros H. apply validateContext_shape in H as (d & c & Ed & Ec & -> & ->).
  rewrite Nat.eqb_eq, length_zero_iff_nil.
  split.
  - intros E. apply app_eq_nil in E as [E1 E]. apply app_eq_nil in E as [-> ->].
    apply missing_nil in E1.
    assert (Hd : truthy_value (property context "domain") = true).
    { apply (proj1 (Forall_forall _ _) E1). unfold required. set_solver. }
    assert (Hc : truthy_value (property context "core_version") = true).
    { apply (proj1 (Forall_forall _ _) E1). unfold required. set_solver. }
    split; [exact E1|]. split.
    + apply (unexpected_nil context "domain" "domain" _ Hd). exact Ed.
    + apply (unexpected_nil context "core_version" "core_version" _ Hc). exact Ec.
  - intros (E1 & E2 & E3).
    assert (Hd : truthy_value (property context "domain") = true) by (rewrite E2; reflexivity).
    assert (Hc : truthy_value (property context "core_version") = true)
      by (rewrite E3; reflexivity).
    apply (unexpected_nil context "domain" "domain" _ Hd) in E2.
    apply (unexpected_nil context "core_version" "core_version" _ Hc) in E3.
    rewrite Ed in E2. rewrite Ec in E3. injection E2 as ->. injection E3 as ->.
    apply missing_nil in E1. unfold missing_fields. rewrite E1. reflexivity.
Qed.

Lemma valid_is_clean (context : json) (v : Validation) :
  validateContext context = Ok v -> valid v = true ->
  v = {| valid := true; errors := [] |}.
Proof.
  intros H Hv. apply validateContext_shape in H as (d & c & _ & _ & H & _).
  rewrite H in Hv.
  apply Nat.eqb_eq, length_zero_iff_nil in Hv. destruct v as [b e]. cbn [valid errors] in *.
  subst e. rewrite H. reflexivity.
Qed.

Lemma validateContext_valid_intro (context : json) :
  Forall (fun name => truthy_value (property context name) = true) required ->
  property context "domain" = Some (JStr "ONDC:LOG10") ->
  property context "core_version" = Some (JStr "1.2.0") ->
  validateContext context = Ok {| valid := true; errors := [] |}.
Proof.
  intros H1 H2 H3.
  assert (Hd : truthy_value (property context "domain") = true) by (rewrite H2; reflexivity).
  assert (Hc : truthy_value (property context "core_version") = true)
    by (rewrite H3; reflexivity).
  apply (unexpected_nil context "domain" "domain" _ Hd) in H2.
  apply (unexpected_nil context "core_version" "core_version" _ Hc) in H3.
  apply missing_nil in H1.
  assert (Hn : context <> JNull) by (intros ->; discriminate Hd).
  unfold validateContext. rewrite H2, H3. cbn [mbind result_bind]. unfold missing_fields.
  rewrite H1. destruct context; try congruence; reflexivity.
Qed.



(** The replies carry a context that passes validation whenever the
    context of the request did.  [buildAckResponse] and [buildNackResponse]
    copy every field, [action] included, and overwrite the time only;
    [buildErrorPayload] also sets [action] to [on_error]. *)
Theorem reply_context_stays_valid (context : list (string * json))
    (errorCode errorMessage timestamp : string) :
  truthy timestamp = true ->
  validateContext (JObj context) = Ok {| valid := true; errors := [] |} ->
  (forall reply,
     In reply [buildAckResponse context timestamp;
               buildNackResponse context errorCode errorMessage timestamp] ->
     exists c,
       property reply "context" = Some c
       /\ validateContext c = Ok {| valid := true; errors := [] |}
       /\ property c "timestamp" = Some (JStr timestamp)
       /\ forall name, name <> "timestamp" ->
                       property c name = property (JObj context) name)
  /\ (exists c,
        property (buildErrorPayload context errorCode errorMessage timestamp) "context"
        = Some c
        /\ validateContext c = Ok {| valid := true; errors := [] |}
        /\ property c "timestamp" = Some (JStr timestamp)
        /\ property c "action" = Some (JStr "on_error")
        /\ forall name, name <> "timestamp" -> name <> "action" ->
                        property c name = property (JObj context) name).
Proof.
  intros Ht Hv.
  destruct (proj1 (validateContext_valid_iff (JObj context) _ Hv) eq_refl)
    as (Hall & Hd & Hcv). cbn [property] in Hall, Hd, Hcv.
  assert (Hstamp : forall fs,
             Forall (fun name => truthy_value (Json.obj_get name fs) = true) required ->
             Forall (fun name => truthy_value
                       (Json.obj_get name (Json.obj_set "timestamp" (JStr timestamp) fs)) = true)
                    required).
  { intros fs H. eapply Forall_impl; [exact H|]. intros name Hn. cbn beta in *.
    rewrite obj_get_obj_set. destruct (String.eqb name "timestamp"); [|exact Hn].
    cbn. destruct timestamp; [discriminate Ht|reflexivity]. }
  assert (Hstamped : exists c,
             Some (JObj (stamped context timestamp)) = Some c
             /\ validateContext c = Ok {| valid := true; errors := [] |}
             /\ property c "timestamp" = Some (JStr timestamp)
             /\ forall name, name <> "timestamp" ->
                             property c name = property (JObj context) name).
  { eexists. split; [reflexivity|]. unfold stamped. split; [|split].
    - apply validateContext_valid_intro; cbn [property];
        [apply Hstamp; exact Hall| |]; rewrite obj_get_obj_set; assumption.
    - cbn [property]. rewrite obj_get_obj_set. reflexivity.
    - intros name Hn. cbn [property]. rewrite obj_get_obj_set.
      apply String.eqb_neq in Hn. rewrite Hn. reflexivity. }
  split.
  - intros reply Hin. cbn [In] in Hin. destruct Hin as [<-|[<-|[]]]; exact Hstamped.
  - eexists. split; [reflexivity|]. split; [|split; [|split]].
    + apply validateContext_valid_intro; cbn [property].
      * apply Hstamp. eapply Forall_impl; [exact Hall|]. intros name Hn. cbn beta in *.
        rewrite obj_get_obj_set. destruct (String.eqb name "action"); [reflexivity|exact Hn].
      * rewrite !obj_get_obj_set. exact Hd.
      * rewrite !obj_get_obj_set. exact Hcv.
    + cbn [property]. rewrite obj_get_obj_set. reflexivity.
    + cbn [property]. rewrite !obj_get_obj_set. reflexivity.
    + intros name Hn Ha. cbn [property]. rewrite !obj_get_obj_set.
      apply String.eqb_neq in Hn, Ha. rewrite Hn, Ha. reflexivity.
Qed.

(** The fields [validateContext] reads, in the context [buildContext] makes. *)
Lemma buildContext_fields (p : ContextParams) (uuid timestamp : string) :
  exists fields,
    buildContext p uuid timestamp = JObj fields
    /\ Json.obj_get "domain" fields = Some (JStr (default "ONDC:LOG10" (domain p)))
    /\ Json.obj_get "country" fields = Some (JStr (default "IND" (country p)))
    /\ Json.obj_get "city" fields = Some (JStr (default "std:011" (city p)))
    /\ Json.obj_get "action" fields = option_map JStr (action p)
    /\ Json.obj_get "core_version" fields = Some (JStr (default "1.2.0" (coreVersion p)))
    /\ Json.obj_get "bap_id" fields = option_map JStr (bapId p)
    /\ Json.obj_get "bap_uri" fields = option_map JStr (bapUri p)
    /\ Json.obj_get "transaction_id" fields = option_map JStr (transactionId p)
    /\ Json.obj_get "message_id" fields = Some (JStr (or_default (messageId p) uuid))
    /\ Json.obj_get "timestamp" fields = Some (JStr timestamp).
Proof.
  unfold buildContext. eexists. split; [reflexivity|].
  repeat split;
    (destruct (bppUri p) as [uri|]; [destruct (truthy uri)|]);
    (destruct (bppId p) as [id|]; [destruct (truthy id)|]);
    rewrite ?obj_get_obj_set; cbn [String.eqb Ascii.eqb Bool.eqb];
    destruct (action p), (bapId p), (bapUri p), (transactionId p); reflexivity.
Qed.

Lemma json_text_truthy (s : string) : Helpers.truthy_value (Some (JStr s)) = truthy s.
Proof. destruct s; reflexivity. Qed.

Lemma json_field_truthy (o : option string) :
  Helpers.truthy_value (option_map JStr o) = truthy_opt o.
Proof. destruct o as [s|]; [apply json_text_truthy|reflexivity]. Qed.

Lemma buildContext_valid_intro (p : ContextParams) (uuid timestamp : string) :
  truthy timestamp = true ->
  truthy_opt (action p) = true -> truthy_opt (transactionId p) = true ->
  truthy_opt (bapId p) = true -> truthy_opt (bapUri p) = true ->
  default "ONDC:LOG10" (domain p) = "ONDC:LOG10" ->
  default "1.2.0" (coreVersion p) = "1.2.0" ->
  truthy (default "IND" (country p)) = true ->
  truthy (default "std:011" (city p)) = true ->
  truthy (or_default (messageId p) uuid) = true ->
  validateContext (buildContext p uuid timestamp) = Ok {| valid := true; errors := [] |}.
Proof.
  intros Ht H1 H2 H3 H4 H5 H6 H7 H8 H9.
  destruct (buildContext_fields p uuid timestamp)
    as (fields & -> & Hd & Hco & Hci & Ha & Hcv & Hbi & Hbu & Hti & Hm & Hts).
  apply validateContext_valid_intro; cbn [property].
  - unfold required. repeat constructor;
      rewrite ?Hd, ?Hco, ?Hci, ?Ha, ?Hcv, ?Hbi, ?Hbu, ?Hti, ?Hm, ?Hts, ?json_text_truthy,
        ?json_field_truthy, ?H5, ?H6; first [assumption | reflexivity].
  - rewrite Hd, H5. reflexivity.
  - rewrite Hcv, H6. reflexivity.
Qed.

(** A context made by [buildContext] passes [validateContext] exactly when
    the action, the transaction id and the two subscriber fields are given
    and not empty, no default is overridden by an empty text, the domain and
    the core version are the defaults (or equal to them), and the message
    id, given or drawn, is not empty; the clock text never is. *)
Theorem buildContext_valid_iff (p : ContextParams) (uuid timestamp : string) :
  truthy timestamp = true ->
  (validateContext (buildContext p uuid timestamp) = Ok {| valid := true; errors := [] |}
   <-> truthy_opt (action p) = true /\ truthy_opt (transactionId p) = true
       /\ truthy_opt (bapId p) = true /\ truthy_opt (bapUri p) = true
       /\ default "ONDC:LOG10" (domain p) = "ONDC:LOG10"
       /\ default "1.2.0" (coreVersion p) = "1.2.0"
       /\ truthy (default "IND" (country p)) = true
       /\ truthy (default "std:011" (city p)) = true
       /\ truthy (or_default (messageId p) uuid) = true).
Proof.
  intros Ht. split.
  - destruct (buildContext_fields p uuid timestamp)
      as (fields & E & Hd & Hco & Hci & Ha & Hcv & Hbi & Hbu & Hti & Hm & Hts).
    rewrite E. intros H.
    destruct (proj1 (validateContext_valid_iff (JObj fields) _ H) eq_refl)
      as (Hall & Hd' & Hcv').
    cbn [property] in Hall, Hd', Hcv'. unfold required in Hall.
    repeat (apply Forall_cons in Hall as [? Hall]).
    rewrite Hd in Hd'. rewrite Hcv in Hcv'. injection Hd' as Hd'. injection Hcv' as Hcv'.
    rewrite ?Hco, ?Hci, ?Ha, ?Hbi, ?Hbu, ?Hti, ?Hm, ?json_text_truthy, ?json_field_truthy in *.
    repeat split; assumption.
  - intros (H1 & H2 & H3 & H4 & H5 & H6 & H7 & H8 & H9).
    apply buildContext_valid_intro; assumption.
Qed.

End Validation.

Section Search_context.

(** The context of every [search] request passes [validateContext] as soon
    as the two identifiers drawn and the clock text are not empty, whatever
    the environment and the caller's transaction id. *)
Theorem search_context_valid (env : Crypto.Env) (transactionId : option string)
    (uuid1 uuid2 timestamp : string) :
  truthy uuid1 = true -> truthy uuid2 = true -> truthy timestamp = true ->
  Helpers.validateContext (Service.search_context env transactionId uuid1 uuid2 timestamp)
  = Ok {| Helpers.valid := true; Helpers.errors := [] |}.
Proof.
  intros H1 H2 Ht. unfold Service.search_context.
  assert (Hor : forall o d, truthy d = true -> truthy (or_default o d) = true).
  { intros [s|] d Hd; cbn; [destruct (truthy s) eqn:E|]; assumption. }
  apply (buildContext_valid_intro _ uuid2 timestamp Ht);
    cbn [Helpers.action Helpers.transactionId Helpers.bapId Helpers.bapUri Helpers.domain
         Helpers.coreVersion Helpers.country Helpers.city Helpers.messageId truthy_opt
         default from_option or_default];
    rewrite ?H2; try reflexivity; try assumption; apply Hor; try assumption; reflexivity.
Qed.

End Search_context.


Lemma reply_context_stays_valid_witness :
  exists c,
    Helpers.property
      (Helpers.buildNackResponse sample_fields "404" "Transaction not found" "t1") "context"
    = Some c
    /\ Helpers.validateContext c = Ok {| Helpers.valid := true; Helpers.errors := [] |}
    /\ Helpers.property c "action" = Some (JStr "on_search").
Proof.
  destruct (proj1 (reply_context_stays_valid sample_fields "404" "Transaction not found" "t1"
                     eq_refl eq_refl)
              (Helpers.buildNackResponse sample_fields "404" "Transaction not found" "t1")
              (or_intror (or_introl eq_refl)))
    as (c & H1 & H2 & _ & H4).
  exists c. split; [exact H1|]. split; [exact H2|].
  rewrite (H4 "action") by discriminate. reflexivity.
Defined.

Lemma buildContext_valid_iff_witness :
  Helpers.validateContext (Helpers.buildContext sample_params "u1" "t1")
  = Ok {| Helpers.valid := true; Helpers.errors := [] |}.
Proof.
  apply (proj2 (buildContext_valid_iff sample_params "u1" "t1" eq_refl)).
  repeat split; reflexivity.
Defined.

Lemma search_context_valid_witness :
  Helpers.validateContext (Service.search_context ∅ None "u1" "u2" "t1")
  = Ok {| Helpers.valid := true; Helpers.errors := [] |}.
Proof.
  apply (search_context_valid ∅ None "u1" "u2" "t1"); reflexivity.
Defined.

(** ** The callback endpoints *)

Section Callback_routes.

Import Store Callbacks.

Variable P : Nacl.primitives.

Lemma add_data_falsy (k : Kind) (s s' : State) (id : string) (data : json) (now : string)
    (v : Value) :
  add_data k s id data now = Ok (s', v) -> falsy v = true -> s' = s.
Proof.
  intros H F.
  apply add_data_inv in H as [[-> _]|[(slot & t & _ & _ & ->)|(f & f' & p & _ & _ & _ & ->)]];
    [reflexivity|discriminate F|discriminate F].
Qed.

Lemma verifyAuth_next (env : Crypto.Env) (now_ms : Z) (req : Request) (v : Crypto.Verdict) :
  verifyAuthorizationHeader P env now_ms req = Ok v -> Crypto.valid v = true ->
  verifyAuth P env now_ms req = Ok Next.
Proof. intros H Hv. unfold verifyAuth. rewrite H. cbn [mbind result_bind]. rewrite Hv. reflexivity. Qed.

Lemma verifyAuth_inv (env : Crypto.Env) (now_ms : Z) (req : Request) (a : Step) :
  verifyAuth P env now_ms req = Ok a ->
  exists v, verifyAuthorizationHeader P env now_ms req = Ok v
    /\ ((a = Next /\ Crypto.valid v = true)
        \/ (Crypto.valid v = false
            /\ a = Respond (Nack (or_empty_object (optional_property (body req) "context"))
                              "401" (Crypto.error v)))).
Proof.
  unfold verifyAuth.
  destruct (verifyAuthorizationHeader P env now_ms req) as [v|e]; [|discriminate].
  cbn [mbind result_bind]. destruct (Crypto.valid v) eqn:Hv; cbn [negb]; intros H;
    injection H as <-; exists v; auto.
Qed.

(** A request the verifier of the routes accepts outside development mode
    has a body. *)
Lemma accepted_has_body (env : Crypto.Env) (now_ms : Z) (req : Request) (v : Crypto.Verdict) :
  env !! "DEV_MODE" <> Some "true" ->
  verifyAuthorizationHeader P env now_ms req = Ok v -> Crypto.valid v = true ->
  exists b, body req = Some b
    /\ Crypto.verifyAuthorizationHeader P env now_ms
         {| Crypto.authorization := authorization req; Crypto.body := b |} = Ok v.
Proof.
  intros Hdev H Hv. unfold verifyAuthorizationHeader in H.
  destruct (body req) as [b|]; [eauto|]. exfalso.
  rewrite bool_decide_eq_false_2 in H by exact Hdev.
  destruct (authorization req) as [h|]; [|injection H as <-; discriminate Hv].
  destruct (negb (truthy h)); [injection H as <-; discriminate Hv|].
  destruct (_ || _); [injection H as <-; discriminate Hv|].
  destruct (Num.gt _ _); [injection H as <-; discriminate Hv|].
  destruct (negb _); injection H as <-; discriminate Hv.
Qed.

Lemma validateBecknContext_inv (env : Crypto.Env) (req : Request) (b : Step) :
  validateBecknContext env req = Ok b ->
  (exists r, b = Respond r /\ is_ack r = false)
  \/ (b = Next
      /\ exists bd context val,
           body req = Some bd
           /\ Helpers.property bd "context" = Some context
           /\ falsy_json context = false
           /\ Helpers.validateContext context = Ok val
           /\ (env !! "DEV_MODE" = Some "true"
               \/ val = {| Helpers.valid := true; Helpers.errors := [] |})).
Proof.
  unfold validateBecknContext.
  destruct (body req) as [bd|] eqn:Hbd.
  2:{ intros H. injection H as <-. left. eexists. split; reflexivity. }
  destruct (falsy_json bd).
  { intros H. injection H as <-. left. eexists. split; reflexivity. }
  destruct (Helpers.property bd "context") as [context|] eqn:Hc.
  2:{ intros H. injection H as <-. left. eexists. split; reflexivity. }
  destruct (falsy_json context) eqn:F.
  { intros H. injection H as <-. left. eexists. split; reflexivity. }
  destruct (Helpers.validateContext context) as [v|e] eqn:V; [|discriminate].
  cbn [mbind result_bind].
  destruct (Helpers.valid v) eqn:Hv; cbn [negb andb].
  - intros H. injection H as <-. right. split; [reflexivity|].
    exists bd, context, v. split; [reflexivity|]. split; [exact Hc|].
    split; [exact F|]. split; [exact V|]. right.
    exact (valid_is_clean context v V Hv).
  - destruct (bool_decide (env !! "DEV_MODE" = Some "true")) eqn:D; cbn [negb].
    + intros H. injection H as <-. right. split; [reflexivity|].
      exists bd, context, v. split; [reflexivity|]. split; [exact Hc|].
      split; [exact F|]. split; [exact V|]. left.
      apply bool_decide_eq_true in D. exact D.
    + intros H. injection H as <-. left. eexists. split; reflexivity.
Qed.

(** The handler on a body with a context that is not [null]. *)
Lemma handler_unfold (route : Route) (now : string) (req : Request) (s : State)
    (bd context : json) :
  body req = Some bd -> Helpers.property bd "context" = Some context -> context <> JNull ->
  handler route now req s
  = guard s (log_received route context (Helpers.property context "transaction_id"))
      (fun _ =>
         match Helpers.property context "transaction_id" with
         | None => Replied s (Nack context "400" (Some "Missing transaction_id"))
         | Some id =>
             if falsy_json id
             then Replied s (Nack context "400" (Some "Missing transaction_id"))
             else
               guard s
                 (key ← Helpers.to_js_string id;
                  add_data (kind_of route) s key
                    (payload context "message" (Helpers.property bd "message")) now)
                 (fun r =>
                    if falsy (snd r)
                    then Replied (fst r) (Nack context "404" (Some "Transaction not found"))
                    else
                      guard (fst r) (log_stored route (Helpers.property bd "message"))
                        (fun _ => Replied (fst r) (Ack context)))
         end).
Proof.
  intros Hb Hc Hn. unfold handler. rewrite Hb.
  destruct bd; try discriminate Hc. cbn [Helpers.property] in Hc |- *. rewrite Hc.
  destruct context; try congruence; reflexivity.
Qed.

(** How a handler ends: with the store untouched, by a crash or a reply
    that is no ACK, or after the store took the payload. *)
Lemma handler_inv (route : Route) (now : string) (req : Request) (s : State) :
  (exists e, handler route now req s = Crashed s e)
  \/ (exists r, handler route now req s = Replied s r /\ is_ack r = false)
  \/ (exists bd context id key v s',
        body req = Some bd
        /\ Helpers.property bd "context" = Some context
        /\ Helpers.property context "transaction_id" = Some id
        /\ falsy_json id = false
        /\ Helpers.to_js_string id = Ok key
        /\ add_data (kind_of route) s key
             (payload context "message" (Helpers.property bd "message")) now = Ok (s', v)
        /\ falsy v = false
        /\ (handler route now req s = Replied s' (Ack context)
            \/ (route = OnSearch /\ exists e, handler route now req s = Crashed s' e))).
Proof.
  destruct (body req) as [bd|] eqn:Hb.
  2:{ left. unfold handler. rewrite Hb. eauto. }
  destruct (Helpers.property bd "context") as [context|] eqn:Hc.
  2:{ left. unfold handler. rewrite Hb.
      destruct bd; cbn [Helpers.property] in Hc |- *; rewrite ?Hc; eauto. }
  assert (Hcases : context = JNull \/ context <> JNull)
    by (destruct context; first [left; reflexivity | right; discriminate]).
  destruct Hcases as [->|Hn].
  { left. unfold handler. rewrite Hb.
    destruct bd; try discriminate Hc. cbn [Helpers.property] in Hc |- *. rewrite Hc. eauto. }
  rewrite (handler_unfold route now req s bd context Hb Hc Hn).
  destruct (log_received route context (Helpers.property context "transaction_id"))
    as [u|e]; cbn [guard]; [|left; eauto].
  destruct (Helpers.property context "transaction_id") as [id|] eqn:Hid.
  2:{ right. left. eexists. split; reflexivity. }
  destruct (falsy_json id) eqn:Fid.
  { right. left. eexists. split; reflexivity. }
  destruct (Helpers.to_js_string id) as [key|e] eqn:Hk; cbn [mbind result_bind guard];
    [|left; eauto].
  destruct (add_data (kind_of route) s key _ now) as [[s' v]|e] eqn:Ha; cbn [guard fst snd];
    [|left; eauto].
  destruct (falsy v) eqn:Fv.
  { rewrite (add_data_falsy _ _ _ _ _ _ _ Ha Fv). right. left. eexists. split; reflexivity. }
  right. right. exists bd, context, id, key, v, s'.
  repeat split; try assumption; try reflexivity.
  unfold log_stored. destruct route; cbn [guard]; try (left; reflexivity).
  destruct (Helpers.to_js_string (providerCount (Helpers.property bd "message")))
    as [t|e]; cbn [mbind result_bind guard].
  - left. reflexivity.
  - right. split; [reflexivity|]. eauto.
Qed.



(** Outside development mode no callback is acknowledged unless its header
    passed the verifier; on the four routes that validate the context, an
    ACK further means that the context was valid, named a transaction id,
    and that the store found a record for it and took the payload. *)
Theorem acknowledged_callback_was_verified (route : Route) (env : Crypto.Env) (now_ms : Z)
    (now : string) (req : Request) (s s' : State) (context : json) :
  env !! "DEV_MODE" <> Some "true" ->
  callback route P env now_ms now req s = Replied s' (Ack context) ->
  exists b,
    body req = Some b
    /\ signed_request P env now_ms
         {| Crypto.authorization := authorization req; Crypto.body := b |}
    /\ (route <> OnError ->
        Helpers.property b "context" = Some context
        /\ Helpers.validateContext context
           = Ok {| Helpers.valid := true; Helpers.errors := [] |}
        /\ exists id key v,
             Helpers.property context "transaction_id" = Some id
             /\ Helpers.to_js_string id = Ok key
             /\ add_data (kind_of route) s key
                  (payload context "message" (Helpers.property b "message")) now
                = Ok (s', v)
             /\ getTransaction s' key = v /\ v <> Null).
Proof.
  intros Hdev H. unfold callback in H.
  destruct (verifyAuth P env now_ms req) as [a|e] eqn:A; [|discriminate H].
  apply verifyAuth_inv in A as (v & Hv & [[-> Hvalid]|[_ ->]]);
    cbn [guard] in H; [|discriminate H].
  destruct (accepted_has_body env now_ms req v Hdev Hv Hvalid) as (b & Hb & Hvb).
  exists b. split; [exact Hb|]. split.
  { exact (accepted_is_signed P env now_ms _ v Hdev Hvb Hvalid). }
  intros Hroute.
  assert (H' : guard s (validateBecknContext env req)
                 (fun b => match b with
                           | Respond r => Replied s r
                           | Next => handler route now req s
                           end) = Replied s' (Ack context)).
  { destruct route; try exact H. congruence. }
  clear H.
  destruct (validateBecknContext env req) as [st|e] eqn:B; [|discriminate H'].
  apply validateBecknContext_inv in B
    as [(r1 & -> & Hr1)|(-> & bd & c & val & Hbd & Hc & Fc & Hval & Hmode)];
    cbn [guard] in H'.
  { injection H' as _ ->. discriminate Hr1. }
  destruct Hmode as [Hd| ->]; [contradiction|].
  rewrite Hb in Hbd. injection Hbd as <-.
  destruct (handler_inv route now req s)
    as [[e E]|[(r & E & Hr)|(bd' & c' & id & key & txn & s1 & Hb' & Hc' & Hid & Fid & Hk
                              & Hadd & Ft & E)]].
  - rewrite E in H'. discriminate H'.
  - rewrite E in H'. injection H' as _ Er. rewrite Er in Hr. discriminate Hr.
  - rewrite Hb in Hb'. injection Hb' as <-. rewrite Hc in Hc'. injection Hc' as <-.
    destruct E as [E|[_ [e E]]]; rewrite E in H'; [|discriminate H'].
    injection H' as <- <-.
    split; [exact Hc|]. split; [exact Hval|].
    exists id, key, txn. split; [exact Hid|]. split; [exact Hk|]. split; [exact Hadd|].
    apply add_data_inv in Hadd
      as [[_ ->]|[(slot & t & L & -> & ->)|(f & f' & p & L & Hp & -> & ->)]].
    + discriminate Ft.
    + split; [|discriminate]. unfold getTransaction.
      rewrite (lookup_write_slot s _ slot t _ L). reflexivity.
    + split; [|discriminate]. apply lookup_json_inv in L as [L Ht]. rewrite L in *.
      unfold getTransaction, lookup.
      cbn [transactions prototype String.eqb Ascii.eqb Bool.eqb].
      rewrite Ht. reflexivity.
Qed.

Lemma validateBecknContext_next (env : Crypto.Env) (req : Request) (bd context : json)
    (val : Helpers.Validation) :
  body req = Some bd -> Helpers.property bd "context" = Some context ->
  falsy_json context = false ->
  Helpers.validateContext context = Ok val ->
  Helpers.valid val = true \/ env !! "DEV_MODE" = Some "true" ->
  validateBecknContext env req = Ok Next.
Proof.
  intros Hb Hc Fc Hval Hmode. unfold validateBecknContext. rewrite Hb.
  assert (Fb : falsy_json bd = false) by (destruct bd; try discriminate Hc; reflexivity).
  rewrite Fb, Hc, Fc, Hval. cbn [mbind result_bind].
  destruct Hmode as [Hv|Hd].
  - rewrite Hv. reflexivity.
  - rewrite (bool_decide_eq_true_2 _ Hd). rewrite andb_false_r. reflexivity.
Qed.

Lemma transaction_id_context (context id : json) :
  Helpers.property context "transaction_id" = Some id ->
  context <> JNull /\ falsy_json context = false.
Proof. destruct context; try discriminate. intros _. split; [discriminate|reflexivity]. Qed.

(** The accepting path: a verified callback whose context is valid (or, in
    development mode, any context [validateContext] returns for; or any
    context on [/on_error]) and names a stored transaction is answered with
    an ACK, and the store then holds the record with the payload appended,
    provided the values the route writes to its log can be converted to
    strings.  The transaction id is a value of JavaScript, so that the key
    it is converted to is the one the store is asked for. *)
Theorem verified_callback_is_stored (route : Route) (env : Crypto.Env) (now_ms : Z)
    (now : string) (req : Request) (s : State) (v : Crypto.Verdict)
    (b context id : json) (key : string) (slot : Slot) (t : Transaction) :
  verifyAuthorizationHeader P env now_ms req = Ok v -> Crypto.valid v = true ->
  body req = Some b ->
  Helpers.property b "context" = Some context ->
  (route = OnError
   \/ exists val, Helpers.validateContext context = Ok val
                  /\ (Helpers.valid val = true \/ env !! "DEV_MODE" = Some "true")) ->
  Helpers.property context "transaction_id" = Some id -> falsy_json id = false ->
  js_value id -> Helpers.to_js_string id = Ok key ->
  log_received route context (Some id) = Ok tt ->
  log_stored route (Helpers.property b "message") = Ok tt ->
  lookup s key = TransactionRef slot t ->
  let data := payload context (stored_property route)
                (Helpers.property b (stored_property route)) in
  let t' := update (kind_of route) data now t in
  callback route P env now_ms now req s = Replied (write s slot t') (Ack context)
  /\ getTransaction (write s slot t') key = TransactionRef slot t'
  /\ received (kind_of route) t' = received (kind_of route) t ++ [data].
Proof.
  intros Hv Hvalid Hb Hc Hmode Hid Fid _ Hk Hlog1 Hlog2 L data t'. subst data t'.
  destruct (transaction_id_context context id Hid) as [Hn Fc].
  split; [|split].
  - unfold callback. rewrite (verifyAuth_next env now_ms req v Hv Hvalid). cbn [guard].
    assert (Hh : handler route now req s
                 = Replied
                     (write s slot
                        (update (kind_of route)
                           (payload context "message" (Helpers.property b "message")) now t))
                     (Ack context)).
    { rewrite (handler_unfold route now req s b context Hb Hc Hn).
      rewrite Hid, Hlog1. cbn [guard]. rewrite Fid, Hk. cbn [mbind result_bind].
      rewrite (add_data_existing _ s key slot t _ now L). cbn [guard fst snd falsy].
      rewrite Hlog2. reflexivity. }
    destruct route;
      try (destruct Hmode as [?|(val & Hval & Hm)]; [discriminate|];
           rewrite (validateBecknContext_next env req b context val Hb Hc Fc Hval Hm);
           cbn [guard]; exact Hh).
    unfold error_handler. rewrite Hb.
    assert (Hi : interpolate (Some id) = Ok key) by exact Hk.
    destruct b; try discriminate Hc; cbn [Helpers.property] in Hc |- *;
      rewrite Hc; cbn [optional_property]; rewrite Hid, Hi; cbn [guard];
      rewrite Fid, Hk; cbn [mbind result_bind]; unfold addErrorData;
      rewrite (add_data_existing Error s key slot t _ now L); cbn [guard fst];
      unfold or_empty_object, or_else; rewrite Fc; reflexivity.
  - unfold getTransaction. rewrite (lookup_write_slot s _ slot t _ L). reflexivity.
  - rewrite received_update. destruct route; reflexivity.
Qed.


End Callback_routes.

(** An [/on_search] callback whose provider list has a [length] that cannot
    be converted: the catalogue is stored and the route crashes in its log
    line. *)
Example on_search_crash_after_write :
  let message :=
    JObj [("catalog",
           JObj [("bpp/providers", JObj [("length", JObj [("toString", JNum 1)])])])] in
  let req := {| Callbacks.authorization := None;
                Callbacks.body := Some (JObj [("context", sample_context);
                                              ("message", message)]) |} in
  exists s',
    Callbacks.callback Callbacks.OnSearch Fixture.sign_primitives (<["DEV_MODE" := "true"]> ∅)
      0 "t1" req sample_store = Callbacks.Crashed s' Helpers.primitive_error
    /\ Store.getAllTransactionIds s' = Store.getAllTransactionIds sample_store
    /\ s' <> sample_store.
Proof.
  intros message req. eexists. split; [vm_compute; reflexivity|].
  split; [vm_compute; reflexivity|]. intros H.
  apply (f_equal (fun st => match Store.getTransaction st "T1" with
                            | Store.TransactionRef _ t => length (Store.catalogs t)
                            | _ => 0
                            end)) in H.
  vm_compute in H. discriminate H.
Qed.


Lemma acknowledged_callback_was_verified_witness :
  exists b,
    Callbacks.body sample_callback = Some b
    /\ signed_request Fixture.sign_primitives fixture_env 1700000010000
         {| Crypto.authorization := Callbacks.authorization sample_callback;
            Crypto.body := b |}.
Proof.
  destruct (acknowledged_callback_was_verified Fixture.sign_primitives
              Callbacks.OnSearch fixture_env 1700000010000 "t1" sample_callback
              sample_store
              (Store.write sample_store (Store.Own "T1")
                 (Store.update Store.Catalog
                    (Callbacks.payload sample_context "message" (Some (JObj []))) "t1"
                    {| Store.transactionId := "T1"; Store.messageId := "M1";
                       Store.status := "searching"; Store.search := JObj [];
                       Store.catalogs := []; Store.selections := [];
                       Store.initResults := []; Store.statusResults := [];
                       Store.errors := []; Store.createdAt := "t0";
                       Store.updatedAt := "t0" |}))
              sample_context
              ltac:(vm_compute; discriminate) ltac:(vm_compute; reflexivity))
    as (b & Hb & Hs & _).
  exists b. split; assumption.
Defined.

Lemma verified_callback_is_stored_witness :
  exists s',
    Callbacks.callback Callbacks.OnSelect Fixture.sign_primitives fixture_env 1700000010000
      "t1" sample_callback sample_store = Callbacks.Replied s' (Callbacks.Ack sample_context)
    /\ exists t', Store.getTransaction s' "T1" = Store.TransactionRef (Store.Own "T1") t'
                  /\ Store.selections t'
                     = [JObj [("context", sample_context); ("message", JObj [])]].
Proof.
  destruct (verified_callback_is_stored Fixture.sign_primitives Callbacks.OnSelect fixture_env
              1700000010000 "t1" sample_callback sample_store
              {| Crypto.valid := true; Crypto.error := None |}
              sample_body sample_context (JStr "T1") "T1" (Store.Own "T1")
              {| Store.transactionId := "T1"; Store.messageId := "M1";
                 Store.status := "searching"; Store.search := JObj [];
                 Store.catalogs := []; Store.selections := [];
                 Store.initResults := []; Store.statusResults := [];
                 Store.errors := []; Store.createdAt := "t0";
                 Store.updatedAt := "t0" |}
              ltac:(vm_compute; reflexivity) eq_refl eq_refl eq_refl
              (or_intror (ex_intro _ {| Helpers.valid := true; Helpers.errors := [] |}
                            (conj eq_refl (or_introl eq_refl))))
              eq_refl eq_refl I eq_refl eq_refl eq_refl eq_refl)
    as (H1 & H2 & H3).
  eexists. split; [exact H1|]. eexists. split; [exact H2|exact H3].
Defined.


(** ** Durations *)

Section Durations.

Import Helpers.

Lemma count_text_digits (n : Z) :
  (0 <= n)%Z ->
  all_chars Num.is_digit (Num.to_string (Num.Int n)) = true
  /\ truthy (Num.to_string (Num.Int n)) = true.
Proof.
  intros Hn. unfold Num.to_string, NilZero.string_of_int, Z.to_int.
  destruct n as [|p|p]; [split; reflexivity| |lia].
  unfold NilZero.string_of_uint.
  destruct (Pos.to_uint p) eqn:E; cbn; (split; [|reflexivity]);
    rewrite ?uint_text_digits; reflexivity.
Qed.

Lemma group_present (n : Z) (unit : ascii) (rest : string) :
  (0 <= n)%Z -> Num.is_digit unit = false ->
  group unit (Num.to_string (Num.Int n) +:+ String unit rest)
  = (Some (Num.to_string (Num.Int n)), rest).
Proof.
  intros Hn Hu. destruct (count_text_digits n Hn) as [Hd Ht].
  unfold group. rewrite (span_all Num.is_digit _ unit rest Hd Hu), Ht.
  rewrite Ascii.eqb_refl. reflexivity.
Qed.

Lemma group_other_unit (n : Z) (unit other : ascii) (rest : string) :
  (0 <= n)%Z -> Num.is_digit other = false -> Ascii.eqb other unit = false ->
  group unit (Num.to_string (Num.Int n) +:+ String other rest)
  = (None, Num.to_string (Num.Int n) +:+ String other rest).
Proof.
  intros Hn Ho Hne. destruct (count_text_digits n Hn) as [Hd Ht].
  unfold group. rewrite (span_all Num.is_digit _ other rest Hd Ho), Ht, Hne. reflexivity.
Qed.

Lemma group_value_count (n : Z) : group_value (Some (Num.to_string (Num.Int n))) = Num.Int n.
Proof.
  unfold group_value. cbn [or_default].
  destruct (number_text_decimal n) as [_ Ht]. rewrite Ht. apply parseInt_to_string.
Qed.

Lemma component_unit (count : option Z) (unit : ascii) (rest : string) :
  component count (String unit "") +:+ rest
  = match count with
    | Some n => Num.to_string (Num.Int n) +:+ String unit rest
    | None => rest
    end.
Proof.
  destruct count as [n|]; cbn [component]; [|reflexivity].
  rewrite append_assoc. reflexivity.
Qed.

(** On a well-formed duration text whose components and whose total are
    safe integers, the two parsers read the components back:
    [parseDurationToMinutes] gives sixty times the hours plus the minutes
    plus the seconds rounded up to whole minutes, [parseDuration] of the
    results route gives the hours and minutes and drops the seconds.  Both
    results are safe integers, so no step of the code has rounded. *)
Theorem duration_components (hours minutes seconds : option Z) :
  let h := default 0%Z hours in
  let m := default 0%Z minutes in
  let s := default 0%Z seconds in
  count_ok hours -> count_ok minutes -> count_ok seconds ->
  (h * 60 + m + (s + 59) / 60 <= max_safe_integer)%Z ->
  parseDurationToMinutes (duration_text hours minutes seconds)
  = Num.Int (h * 60 + m + (s + 59) / 60)
  /\ Results.parseDuration (duration_text hours minutes seconds) = Num.Int (h * 60 + m)
  /\ (0 <= h * 60 + m <= h * 60 + m + (s + 59) / 60)%Z.
Proof.
  intros h m s Hh' Hm' Hs' Htotal.
  assert (Hh : (0 <= h)%Z) by (subst h; destruct hours; cbn in *; lia).
  assert (Hm : (0 <= m)%Z) by (subst m; destruct minutes; cbn in *; lia).
  assert (Hs : (0 <= s)%Z) by (subst s; destruct seconds; cbn in *; lia).
  assert (Hbound : (0 <= h * 60 + m <= h * 60 + m + (s + 59) / 60)%Z).
  { assert (0 <= (s + 59) / 60)%Z by (apply Z.div_pos; lia). lia. }
  clear Htotal. subst h m s.
  assert (Hmatch : duration_match (duration_text hours minutes seconds)
                   = Some (option_map (fun n => Num.to_string (Num.Int n)) hours,
                           option_map (fun n => Num.to_string (Num.Int n)) minutes,
                           option_map (fun n => Num.to_string (Num.Int n)) seconds)).
  { unfold duration_match, duration_text.
    change (after_PT ("PT" +:+ ?x)) with (Some x).
    cbv iota beta.
    change "H" with (String "H" "") at 1. change "M" with (String "M" "") at 1.
    change "S" with (String "S" "").
    rewrite (component_unit hours), (component_unit minutes).
    assert (HS : forall unit, Ascii.eqb "S" unit = false -> Num.is_digit unit = false ->
                 group unit (component seconds (String "S" "")) = (None, component seconds (String "S" ""))).
    { intros unit Hu Hd. destruct seconds as [sv|]; [|reflexivity].
      cbn [component]. apply group_other_unit; [exact Hs|reflexivity|exact Hu]. }
    assert (HSS : group "S" (component seconds (String "S" ""))
                  = (option_map (fun n => Num.to_string (Num.Int n)) seconds, "")).
    { destruct seconds as [sv|]; [|reflexivity].
      cbn [component option_map]. apply group_present; [exact Hs|reflexivity]. }
    assert (HM : forall unit, Ascii.eqb "M" unit = false -> Ascii.eqb "S" unit = false ->
                 Num.is_digit unit = false ->
                 group unit (match minutes with
                             | Some n => Num.to_string (Num.Int n)
                                         +:+ String "M" (component seconds (String "S" ""))
                             | None => component seconds (String "S" "")
                             end)
                 = (None, match minutes with
                          | Some n => Num.to_string (Num.Int n)
                                      +:+ String "M" (component seconds (String "S" ""))
                          | None => component seconds (String "S" "")
                          end)).
    { intros unit Hu1 Hu2 Hd. destruct minutes as [mv|]; [|apply HS; assumption].
      apply group_other_unit; [exact Hm|reflexivity|exact Hu1]. }
    destruct hours as [hv|]; cbn [option_map].
    - rewrite group_present by first [exact Hh | reflexivity].
      destruct minutes as [mv|]; cbn [option_map].
      + rewrite group_present by first [exact Hm | reflexivity]. rewrite HSS. reflexivity.
      + rewrite HS by reflexivity. rewrite HSS. reflexivity.
    - rewrite HM by reflexivity.
      destruct minutes as [mv|]; cbn [option_map].
      + rewrite group_present by first [exact Hm | reflexivity]. rewrite HSS. reflexivity.
      + rewrite HS by reflexivity. rewrite HSS. reflexivity. }
  assert (Hval : forall count,
             group_value (option_map (fun n => Num.to_string (Num.Int n)) count)
             = Num.Int (default 0%Z count)).
  { intros [n|]; [apply group_value_count|reflexivity]. }
  unfold parseDurationToMinutes, Results.parseDuration. rewrite Hmatch, !Hval.
  cbn [times plus ceil_div]. split; [|split; [reflexivity|exact Hbound]].
  f_equal. f_equal.
  rewrite <- (Z.opp_involutive ((default 0%Z seconds + 59) / 60)). f_equal.
  set (x := default 0%Z seconds).
  assert (Hq : ((x + 59) / 60 * 60 <= x + 59 < ((x + 59) / 60 + 1) * 60)%Z) by
    (pose proof (Z.div_mod (x + 59) 60 ltac:(lia));
     pose proof (Z.mod_pos_bound (x + 59) 60 ltac:(lia)); lia).
  symmetry. apply (Z.div_unique (- x) 60 _ ((x + 59) / 60 * 60 - x)%Z); lia.
Qed.

Lemma digits_value_bound (s : string) (acc : Z) :
  (0 <= acc)%Z ->
  (0 <= Num.digits_value s acc < (acc + 1) * 10 ^ Z.of_nat (String.length s))%Z.
Proof.
  revert acc. induction s as [|c s IH]; intros acc H.
  - cbn. lia.
  - cbn [Num.digits_value String.length]. rewrite Nat2Z.inj_succ, Z.pow_succ_r by lia.
    assert (Hp : (0 < 10 ^ Z.of_nat (String.length s))%Z) by (apply Z.pow_pos_nonneg; lia).
    destruct (Num.is_digit c) eqn:Hc; [|nia].
    unfold Num.is_digit in Hc. apply andb_true_iff in Hc as [H1 H2].
    apply N.leb_le in H1, H2.
    assert (Hd : (0 <= Num.digit_value c <= 9)%Z) by (unfold Num.digit_value; lia).
    specialize (IH (acc * 10 + Num.digit_value c)%Z ltac:(lia)). nia.
Qed.

Lemma parseInt_digits (s : string) :
  truthy s = true -> all_chars Num.is_digit s = true ->
  exists n, Num.parseInt s = Num.Int n
            /\ (0 <= n < 10 ^ Z.of_nat (String.length s))%Z.
Proof.
  intros Ht Hd. destruct s as [|c r]; [discriminate Ht|].
  cbn [all_chars] in Hd. apply andb_true_iff in Hd as [Hc _].
  exists (Num.digits_value (String c r) 0). split.
  - unfold Num.parseInt.
    rewrite skip_whitespace_decimal by (unfold decimal_char; rewrite Hc; reflexivity).
    replace (match String c r with
             | String "-" r0 => (true, r0)
             | String "+" r0 => (false, r0)
             | _ => (false, String c r)
             end) with (false, String c r).
    + cbn [Num.starts_with_digit]. rewrite Hc. reflexivity.
    + destruct c as [[] [] [] [] [] [] [] []]; try reflexivity; discriminate Hc.
  - pose proof (digits_value_bound (String c r) 0 ltac:(lia)) as H. lia.
Qed.

(** A group holds a count below ten to the length of the text it was read
    from, and what is left for the next group is no longer than that text. *)
Lemma group_value_count_of (unit : ascii) (s : string) :
  (exists n, group_value (fst (group unit s)) = Num.Int n
             /\ (0 <= n < 10 ^ Z.of_nat (String.length s))%Z)
  /\ String.length (snd (group unit s)) <= String.length s.
Proof.
  assert (Hp : (0 < 10 ^ Z.of_nat (String.length s))%Z) by (apply Z.pow_pos_nonneg; lia).
  unfold group. destruct (Crypto.span Num.is_digit s) as [digits r] eqn:E.
  apply span_decompose in E as [Es Hd].
  assert (Hnone : (exists n, group_value None = Num.Int n
                             /\ (0 <= n < 10 ^ Z.of_nat (String.length s))%Z)
                  /\ String.length s <= String.length s).
  { split; [|lia]. exists 0%Z. split; [reflexivity|lia]. }
  destruct (truthy digits) eqn:Ht; [|exact Hnone].
  destruct r as [|c r']; [exact Hnone|].
  destruct (Ascii.eqb c unit); [|exact Hnone].
  cbn [fst snd]. unfold group_value. cbn [or_default]. rewrite Ht.
  assert (Hl : String.length s = String.length digits + S (String.length r')).
  { rewrite Es, length_append. reflexivity. }
  split; [|lia].
  destruct (parseInt_digits digits Ht Hd) as (n & Hn & Hb).
  exists n. split; [exact Hn|].
  assert (10 ^ Z.of_nat (String.length digits) <= 10 ^ Z.of_nat (String.length s))%Z
    by (apply Z.pow_le_mono_r; lia).
  lia.
Qed.

Lemma after_PT_length (s r : string) :
  after_PT s = Some r -> String.length r + 2 <= String.length s.
Proof.
  revert r. induction s as [|c s IH]; intros r H; [discriminate H|].
  cbn [after_PT] in H. destruct s as [|c' s']; [discriminate H|].
  destruct (Ascii.eqb c "P" && Ascii.eqb c' "T").
  - injection H as <-. cbn. lia.
  - apply IH in H. cbn [String.length] in *. lia.
Qed.

Lemma after_PT_none (s : string) :
  after_PT s = None <-> forall a b, s <> a +:+ "PT" +:+ b.
Proof.
  induction s as [|c s IH].
  - split; [|reflexivity]. intros _ [|x a] b H; discriminate H.
  - cbn [after_PT]. destruct s as [|c' s'].
    + split; [|reflexivity]. intros _ [|x [|y a]] b H; discriminate H.
    + destruct (Ascii.eqb_spec c "P") as [->|Hc]; cbn [andb].
      * destruct (Ascii.eqb_spec c' "T") as [->|Hc'].
        -- split; [discriminate|]. intros H. exfalso. apply (H "" s'). reflexivity.
        -- rewrite IH. split.
           ++ intros H [|x a] b E.
              ** injection E as E1 E2. congruence.
              ** rewrite append_cons in E. injection E as _ E. exact (H a b E).
           ++ intros H a b E. apply (H (String "P" a) b). rewrite append_cons, E. reflexivity.
      * rewrite IH. split.
        -- intros H [|x a] b E.
           ++ injection E as E1 E2. congruence.
           ++ rewrite append_cons in E. injection E as _ E. exact (H a b E).
        -- intros H a b E. apply (H (String c a) b). rewrite append_cons, E. reflexivity.
Qed.

(** On a text of at most sixteen characters both parsers return a whole
    number of minutes that is a safe integer and not negative, never [NaN];
    a text of any length without the marker P, T gives 0 from
    [parseDurationToMinutes] and 60 from [parseDuration]. *)
Theorem duration_is_a_count (duration : string) :
  (String.length duration <= 16 ->
   (exists n, parseDurationToMinutes duration = Num.Int n
              /\ (0 <= n <= max_safe_integer)%Z)
   /\ (exists n, Results.parseDuration duration = Num.Int n
               /\ (0 <= n <= max_safe_integer)%Z))
  /\ ((forall a b, duration <> a +:+ "PT" +:+ b) ->
      parseDurationToMinutes duration = Num.Int 0
      /\ Results.parseDuration duration = Num.Int 60).
Proof.
  unfold parseDurationToMinutes, Results.parseDuration, duration_match.
  destruct (after_PT duration) as [r0|] eqn:E.
  - split; [|intros H; apply after_PT_none in H; congruence].
    intros Hlen. apply after_PT_length in E.
    destruct (group_value_count_of "H" r0) as [(h & Hh & Hh0) L1].
    destruct (group "H" r0) as [gh r1].
    destruct (group_value_count_of "M" r1) as [(m & Hm & Hm0) L2].
    destruct (group "M" r1) as [gm r2].
    destruct (group_value_count_of "S" r2) as [(s & Hs & Hs0) _].
    destruct (group "S" r2) as [gs r3].
    cbn [fst snd] in *. rewrite Hh, Hm, Hs. cbn [times plus ceil_div].
    assert (Hpow : forall t : string,
               String.length t <= 14 ->
               (10 ^ Z.of_nat (String.length t) <= 100000000000000)%Z).
    { intros t Ht. change 100000000000000%Z with (10 ^ 14)%Z.
      apply Z.pow_le_mono_r; lia. }
    pose proof (Hpow r0 ltac:(lia)). pose proof (Hpow r1 ltac:(lia)).
    pose proof (Hpow r2 ltac:(lia)).
    assert (Hup : (- s / 60 <= 0)%Z) by (apply Z.div_le_upper_bound; lia).
    assert (Hlow : (- s <= - s / 60)%Z) by (apply Z.div_le_lower_bound; lia).
    unfold max_safe_integer.
    split; eexists; (split; [reflexivity|lia]).
  - split; [|intros _; split; reflexivity].
    intros _. unfold max_safe_integer.
    split; [exists 0%Z|exists 60%Z]; (split; [reflexivity|lia]).
Qed.

End Durations.

Lemma duration_components_witness :
  Helpers.parseDurationToMinutes (duration_text (Some 1%Z) None (Some 30%Z)) = Num.Int 61
  /\ Results.parseDuration (duration_text (Some 1%Z) None (Some 30%Z)) = Num.Int 60.
Proof.
  refine (let H := duration_components (Some 1%Z) None (Some 30%Z) _ _ _ _ in
          conj (proj1 H) (proj1 (proj2 H)));
    first [cbn; unfold max_safe_integer; lia | vm_compute; discriminate].
Defined.
